(** * Cypress TrueTouch (TTSP) touchscreen core: a shallow embedding of
      drivers/input/touchscreen/cyttsp/cyttsp_core.c

    The driver is sequential C over a register bus.  Integers are [Z];
    every [u8] that enters a driver structure is reduced modulo 256.
    The session [struct cyttsp] is threaded explicitly; everything the
    driver does to the outside world (bus transfers, [msleep], input
    reports, [dev_info]) is appended to a log kept in the session, so
    that the order and number of effects can be stated. *)

From Stdlib Require Import ZArith List Bool Lia.
Import ListNotations.
Open Scope Z_scope.

(** ** Constants *)

(* errno values used by the core *)
Definition EIO : Z := 5.
Definition EAGAIN : Z := 11.
Definition ENOMEM : Z := 12.
Definition ENODEV : Z := 19.
Definition EINVAL : Z := 22.

(* cyttsp_core.h *)
Definition CY_NUM_RETRY : Z := 4.

(* cyttsp.h *)
Definition CY_ACT_INTRVL_DFLT : Z := 0x00.
Definition CY_TCH_TMOUT_DFLT : Z := 0xFF.
Definition CY_LP_INTRVL_DFLT : Z := 0x0A.
Definition CY_ACT_DIST_DFLT : Z := 0xF8.

(* cyttsp_core.c *)
Definition CY_NUM_BL_KEYS : Z := 8.
Definition CY_REG_BASE : Z := 0x00.
Definition CY_REG_ACT_DIST : Z := 0x1E.
Definition CY_REG_ACT_INTRVL : Z := 0x1D.
Definition CY_MAXZ : Z := 255.
Definition CY_DELAY_DFLT : Z := 20.
Definition CY_DELAY_MAX : Z := 500 / CY_DELAY_DFLT.
Definition CY_HNDSHK_BIT : Z := 0x80.
Definition CY_OPERATE_MODE : Z := 0x00.
Definition CY_SYSINFO_MODE : Z := 0x10.
Definition CY_SOFT_RESET_MODE : Z := 0x01.
Definition CY_DEEP_SLEEP_MODE : Z := 0x02.
Definition CY_LOW_POWER_MODE : Z := 0x04.
Definition CY_MAX_FINGER : Z := 4.
Definition CY_MAX_ID : Z := 16.

(** ** Helper macros *)

Definition GET_NUM_TOUCHES (x : Z) : Z := Z.land x 0x0F.
Definition IS_LARGE_AREA (x : Z) : Z := Z.shiftr (Z.land x 0x10) 4.
Definition IS_BAD_PKT (x : Z) : Z := Z.land x 0x20.
Definition IS_VALID_APP (x : Z) : Z := Z.land x 0x01.
Definition IS_OPERATIONAL_ERR (x : Z) : Z := Z.land x 0x3F.
Definition GET_HSTMODE (reg : Z) : Z := Z.shiftr (Z.land reg 0x70) 4.
Definition GET_BOOTLOADERMODE (reg : Z) : Z := Z.shiftr (Z.land reg 0x10) 4.

Definition u8 (x : Z) : Z := x mod 256.

(** ** Data *)

Inductive cyttsp_powerstate : Type :=
| CY_IDLE_STATE
| CY_ACTIVE_STATE
| CY_LOW_PWR_STATE
| CY_SLEEP_STATE
| CY_BL_STATE
| CY_INVALID_STATE.

Definition powerstate_eqb (a b : cyttsp_powerstate) : bool :=
  match a, b with
  | CY_IDLE_STATE, CY_IDLE_STATE
  | CY_ACTIVE_STATE, CY_ACTIVE_STATE
  | CY_LOW_PWR_STATE, CY_LOW_PWR_STATE
  | CY_SLEEP_STATE, CY_SLEEP_STATE
  | CY_BL_STATE, CY_BL_STATE
  | CY_INVALID_STATE, CY_INVALID_STATE => true
  | _, _ => false
  end.

(* the fields of struct cyttsp_platform_data the core reads;
   [bl_keys] is a pointer: [None] is NULL, [Some k] the caller's array *)
Record cyttsp_platform_data : Type := {
  maxx : Z;
  maxy : Z;
  use_hndshk : bool;
  use_sleep : bool;
  act_dist : Z;
  act_intrvl : Z;
  tch_tmout : Z;
  lp_intrvl : Z;
  bl_keys : option (list Z)
}.

Inductive abs_axis : Type :=
| ABS_MT_POSITION_X
| ABS_MT_POSITION_Y
| ABS_MT_TOUCH_MAJOR.

(* what the driver does to its environment, in program order *)
Inductive event : Type :=
| EvBusRead (addr len : Z)
| EvBusWrite (addr len : Z) (values : list Z)
| EvSleep (ms : Z)
| EvMtSlot (slot : Z)
| EvMtSlotState (active : bool)
| EvAbs (axis : abs_axis) (value : Z)
| EvSync
| EvComplete
| EvPrState (s : cyttsp_powerstate).

Definition is_bus_call (e : event) : bool :=
  match e with EvBusRead _ _ | EvBusWrite _ _ _ => true | _ => false end.

Definition is_bus_write (e : event) : bool :=
  match e with EvBusWrite _ _ _ => true | _ => false end.

Definition is_sleep (e : event) : bool :=
  match e with EvSleep _ => true | _ => false end.

Definition is_input (e : event) : bool :=
  match e with
  | EvMtSlot _ | EvMtSlotState _ | EvAbs _ _ | EvSync => true
  | _ => false
  end.

(* byte offsets inside the packed register snapshots *)
Definition byte_at (buf : list Z) (off : nat) : Z := nth off buf 0.

(* struct cyttsp_bootloader_data: 16 bytes *)
Definition SIZEOF_BL_DATA : Z := 16.
Definition bl_file (b : list Z) : Z := byte_at b 0.
Definition bl_status (b : list Z) : Z := byte_at b 1.

(* struct cyttsp_sysinfo_data: 32 bytes *)
Definition SIZEOF_SYSINFO_DATA : Z := 32.
Definition tts_verh (b : list Z) : Z := byte_at b 17.
Definition tts_verl (b : list Z) : Z := byte_at b 18.

(* struct cyttsp_xydata (packed): 32 bytes; struct cyttsp_tch is 5 *)
Definition SIZEOF_XYDATA : Z := 32.
Definition hst_mode (b : list Z) : Z := byte_at b 0.
Definition tt_mode (b : list Z) : Z := byte_at b 1.
Definition tt_stat (b : list Z) : Z := byte_at b 2.
Definition touch12_id (b : list Z) : Z := byte_at b 8.
Definition touch34_id (b : list Z) : Z := byte_at b 21.
Definition xy_act_dist (b : list Z) : Z := byte_at b 30.

Record cyttsp_tch : Type := { tch_x : Z; tch_y : Z; tch_z : Z }.

Definition be16_to_cpu (hi lo : Z) : Z := hi * 256 + lo.

Definition tch_at (b : list Z) (off : nat) : cyttsp_tch :=
  {| tch_x := be16_to_cpu (byte_at b off) (byte_at b (off + 1));
     tch_y := be16_to_cpu (byte_at b (off + 2)) (byte_at b (off + 3));
     tch_z := byte_at b (off + 4) |}.

(* a transfer stores what the bus delivered over the front of the
   caller's buffer; the buffer keeps its size *)
Definition store_bytes (buf data : list Z) : list Z :=
  firstn (length buf) (map u8 data ++ skipn (length data) buf).

(* a fixed-size C array together with the indices past its end that a
   copy has written; [memcpy dst off src n] is memcpy(&dst[off], src, n).
   Bytes read past the end of [src] are unknown and modelled as 0. *)
Record buffer : Type := { buf_bytes : list Z; buf_spill : list nat }.

Definition array (n : nat) : buffer :=
  {| buf_bytes := repeat 0 n; buf_spill := [] |}.

Definition memcpy (dst : buffer) (off : nat) (src : list Z) (n : nat)
    : buffer :=
  let size := length (buf_bytes dst) in
  {| buf_bytes :=
       firstn size (firstn off (buf_bytes dst)
                    ++ firstn n (map u8 src ++ repeat 0 n)
                    ++ skipn (off + n) (buf_bytes dst));
     buf_spill :=
       buf_spill dst ++ filter (fun i => Nat.leb size i) (seq off n) |}.

Definition bl_command : list Z :=
  [ 0x00;   (* file offset *)
    0xFF;   (* command *)
    0xA5;   (* exit bootloader command *)
    0; 1; 2; 3; 4; 5; 6; 7 (* default keys *) ].

Definition SIZEOF_BL_COMMAND : nat := length bl_command.

(* the construction of bl_cmd at the head of cyttsp_exit_bl_mode *)
Definition build_bl_cmd (pd : cyttsp_platform_data) : buffer :=
  let bl_cmd := array SIZEOF_BL_COMMAND in
  let bl_cmd := memcpy bl_cmd 0 bl_command SIZEOF_BL_COMMAND in
  match bl_keys pd with
  | Some keys =>
      memcpy bl_cmd (SIZEOF_BL_COMMAND - Z.to_nat CY_NUM_BL_KEYS)%nat
             keys SIZEOF_BL_COMMAND
  | None => bl_cmd
  end.

(* ids[0..3] of cyttsp_extract_track_ids *)
Definition cyttsp_extract_track_ids (xy_data : list Z) : list Z :=
  [ Z.shiftr (touch12_id xy_data) 4;
    Z.land (touch12_id xy_data) 0xF;
    Z.shiftr (touch34_id xy_data) 4;
    Z.land (touch34_id xy_data) 0xF ].

(* NULL is [None] *)
Definition cyttsp_get_tch (xy_data : list Z) (idx : nat)
    : option cyttsp_tch :=
  match idx with
  | 0%nat => Some (tch_at xy_data 3)
  | 1%nat => Some (tch_at xy_data 9)
  | 2%nat => Some (tch_at xy_data 16)
  | 3%nat => Some (tch_at xy_data 22)
  | _ => None
  end.

Section Core.

(** The state behind the [bus_ops] handle: the transport together with
    the controller and the interrupt line it drives. *)
Context {B : Type}.

(* struct cyttsp_bus_ops: a transfer returns an s32 (0 on success,
   negative errno on failure) and, for a read, the bytes stored *)
Record cyttsp_bus_ops : Type := {
  write : B -> Z -> Z -> list Z -> Z * B;
  read : B -> Z -> Z -> Z * list Z * B
}.

(* the kernel services whose result depends on the outside world *)
Record kernel_ops : Type := {
  request_threaded_irq : B -> Z * B;
  wait_for_completion_timeout : B -> Z -> Z * B
}.

Record cyttsp : Type := {
  platform_data : cyttsp_platform_data;
  bus_ops : cyttsp_bus_ops;
  kernel : kernel_ops;
  bl_data : list Z;
  sysinfo_data : list Z;
  power_state : cyttsp_powerstate;
  hw : B;
  log : list event
}.

Definition set_power_state (ts : cyttsp) (s : cyttsp_powerstate) : cyttsp :=
  {| platform_data := platform_data ts; bus_ops := bus_ops ts;
     kernel := kernel ts; bl_data := bl_data ts;
     sysinfo_data := sysinfo_data ts; power_state := s;
     hw := hw ts; log := log ts |}.

Definition set_bl_data (ts : cyttsp) (b : list Z) : cyttsp :=
  {| platform_data := platform_data ts; bus_ops := bus_ops ts;
     kernel := kernel ts; bl_data := b;
     sysinfo_data := sysinfo_data ts; power_state := power_state ts;
     hw := hw ts; log := log ts |}.

Definition set_sysinfo_data (ts : cyttsp) (b : list Z) : cyttsp :=
  {| platform_data := platform_data ts; bus_ops := bus_ops ts;
     kernel := kernel ts; bl_data := bl_data ts;
     sysinfo_data := b; power_state := power_state ts;
     hw := hw ts; log := log ts |}.

Definition set_hw (ts : cyttsp) (h : B) : cyttsp :=
  {| platform_data := platform_data ts; bus_ops := bus_ops ts;
     kernel := kernel ts; bl_data := bl_data ts;
     sysinfo_data := sysinfo_data ts; power_state := power_state ts;
     hw := h; log := log ts |}.

Definition emit (ts : cyttsp) (e : event) : cyttsp :=
  {| platform_data := platform_data ts; bus_ops := bus_ops ts;
     kernel := kernel ts; bl_data := bl_data ts;
     sysinfo_data := sysinfo_data ts; power_state := power_state ts;
     hw := hw ts; log := log ts ++ [e] |}.

Definition msleep (ts : cyttsp) (ms : Z) : cyttsp := emit ts (EvSleep ms).

(** ** Retrying transport *)

(* the body of the [for] loop of ttsp_read_block_data, [fuel] bounding
   the number of iterations still to run *)
Fixpoint read_retry (fuel : nat) (tries retval : Z) (ts : cyttsp)
    (command length : Z) (buf : list Z) : Z * list Z * cyttsp :=
  match fuel with
  | O => (retval, buf, ts)
  | S fuel' =>
      if (tries <? CY_NUM_RETRY) && (retval <? 0) then
        let '(r, data, h) := read (bus_ops ts) (hw ts) command length in
        let ts1 := set_hw (emit ts (EvBusRead command length)) h in
        let ts2 := if r =? 0 then ts1 else msleep ts1 CY_DELAY_DFLT in
        read_retry fuel' (tries + 1) r ts2 command length
                   (store_bytes buf data)
      else (retval, buf, ts)
  end.

Definition ttsp_read_block_data (ts : cyttsp) (command length : Z)
    (buf : option (list Z)) : Z * list Z * cyttsp :=
  match buf with
  | None => (- EINVAL, [], ts)
  | Some b =>
      if length =? 0 then (- EINVAL, b, ts)
      else read_retry (Z.to_nat CY_NUM_RETRY) 0 (-1) ts command length b
  end.

Fixpoint write_retry (fuel : nat) (tries retval : Z) (ts : cyttsp)
    (command length : Z) (buf : list Z) : Z * cyttsp :=
  match fuel with
  | O => (retval, ts)
  | S fuel' =>
      if (tries <? CY_NUM_RETRY) && (retval <? 0) then
        let '(r, h) := write (bus_ops ts) (hw ts) command length buf in
        let ts1 := set_hw (emit ts (EvBusWrite command length buf)) h in
        let ts2 := if r =? 0 then ts1 else msleep ts1 CY_DELAY_DFLT in
        write_retry fuel' (tries + 1) r ts2 command length buf
      else (retval, ts)
  end.

Definition ttsp_write_block_data (ts : cyttsp) (command length : Z)
    (buf : option (list Z)) : Z * cyttsp :=
  match buf with
  | None => (- EINVAL, ts)
  | Some b =>
      if length =? 0 then (- EINVAL, ts)
      else write_retry (Z.to_nat CY_NUM_RETRY) 0 (-1) ts command length b
  end.

(** ** Mode controller *)

Definition set_byte (buf : list Z) (off : nat) (v : Z) : list Z :=
  firstn off buf ++ [v] ++ skipn (S off) buf.

Definition cyttsp_load_bl_regs (ts : cyttsp) : Z * cyttsp :=
  let ts1 := set_bl_data ts (repeat 0 (Z.to_nat SIZEOF_BL_DATA)) in
  let ts2 := set_bl_data ts1 (set_byte (bl_data ts1) 1 0x10) in
  let '(retval, buf, ts3) :=
    ttsp_read_block_data ts2 CY_REG_BASE SIZEOF_BL_DATA
                         (Some (bl_data ts2)) in
  (retval, set_bl_data ts3 buf).

Definition cyttsp_bl_app_valid (ts : cyttsp) : Z * cyttsp :=
  let '(retval, ts1) := cyttsp_load_bl_regs ts in
  if retval <? 0 then (- ENODEV, ts1)
  else if negb (GET_BOOTLOADERMODE (bl_status (bl_data ts1)) =? 0) then
    if negb (IS_VALID_APP (bl_status (bl_data ts1)) =? 0) then (0, ts1)
    else (- ENODEV, ts1)
  else if GET_HSTMODE (bl_file (bl_data ts1)) =? CY_OPERATE_MODE then
    if IS_OPERATIONAL_ERR (bl_status (bl_data ts1)) =? 0 then (1, ts1)
    else (- ENODEV, ts1)
  else (- ENODEV, ts1).

(* do { body } while (again && (tries++ < CY_DELAY_MAX)), the shape of
   the three wait loops, over the state [St] the loop works on; [body]
   returns the first operand of the loop condition, the new retval and
   the state.  Returns the last retval, the final value of tries and
   the state. *)
Fixpoint poll_loop {St : Type} (fuel : nat) (body : St -> bool * Z * St)
    (tries : Z) (st : St) : Z * Z * St :=
  match fuel with
  | O => (0, tries, st)
  | S fuel' =>
      let '(again, retval, st1) := body st in
      if again then
        if tries <? CY_DELAY_MAX then poll_loop fuel' body (tries + 1) st1
        else (retval, tries + 1, st1)
      else (retval, tries, st1)
  end.

(* one more iteration than CY_DELAY_MAX: the loop condition lets a
   last pass run with tries = CY_DELAY_MAX *)
Definition POLL_FUEL : nat := S (Z.to_nat CY_DELAY_MAX).

Definition exit_bl_poll (ts : cyttsp) : bool * Z * cyttsp :=
  let ts1 := msleep ts CY_DELAY_DFLT in
  let '(retval, ts2) := cyttsp_load_bl_regs ts1 in
  (negb (retval =? 0)
   || negb (GET_BOOTLOADERMODE (bl_status (bl_data ts2)) =? 0),
   retval, ts2).

Definition cyttsp_exit_bl_mode (ts : cyttsp) : Z * cyttsp :=
  let bl_cmd := build_bl_cmd (platform_data ts) in
  let '(retval, ts1) :=
    ttsp_write_block_data ts CY_REG_BASE (Z.of_nat SIZEOF_BL_COMMAND)
                          (Some (buf_bytes bl_cmd)) in
  if retval <? 0 then (retval, ts1)
  else
    let '(retval, tries, ts2) := poll_loop POLL_FUEL exit_bl_poll 0 ts1 in
    if tries >=? CY_DELAY_MAX then (- ENODEV, ts2) else (retval, ts2).

(* xy_data is a local of cyttsp_set_operational_mode, kept from one
   pass of the loop to the next; it starts uninitialised, modelled as
   zeroes, and is read by the loop condition only after a transfer
   into it returned 0 *)
Definition operational_poll (st : list Z * cyttsp)
    : bool * Z * (list Z * cyttsp) :=
  let '(xy_data, ts) := st in
  let '(retval, xy_data, ts1) :=
    ttsp_read_block_data ts CY_REG_BASE SIZEOF_XYDATA (Some xy_data) in
  (negb (retval =? 0) || negb (xy_act_dist xy_data =? CY_ACT_DIST_DFLT),
   retval, (xy_data, ts1)).

Definition cyttsp_set_operational_mode (ts : cyttsp) : Z * cyttsp :=
  let cmd := CY_OPERATE_MODE in
  let xy_data := repeat 0 (Z.to_nat SIZEOF_XYDATA) in
  let '(retval, ts1) := ttsp_write_block_data ts CY_REG_BASE 1 (Some [cmd]) in
  if retval <? 0 then (retval, ts1)
  else
    let '(retval, tries, (_, ts2)) :=
      poll_loop POLL_FUEL operational_poll 0 (xy_data, ts1) in
    if tries >=? CY_DELAY_MAX then (- EAGAIN, ts2) else (retval, ts2).

Definition sysinfo_poll (ts : cyttsp) : bool * Z * cyttsp :=
  let ts1 := msleep ts CY_DELAY_DFLT in
  let '(retval, buf, ts2) :=
    ttsp_read_block_data ts1 CY_REG_BASE SIZEOF_SYSINFO_DATA
                         (Some (sysinfo_data ts1)) in
  let ts3 := set_sysinfo_data ts2 buf in
  (negb (retval =? 0)
   || ((tts_verh (sysinfo_data ts3) =? 0)
       && (tts_verl (sysinfo_data ts3) =? 0)),
   retval, ts3).

Definition cyttsp_set_sysinfo_mode (ts : cyttsp) : Z * cyttsp :=
  let cmd := CY_SYSINFO_MODE in
  let ts0 := set_sysinfo_data ts (repeat 0 (Z.to_nat SIZEOF_SYSINFO_DATA)) in
  let '(retval, ts1) := ttsp_write_block_data ts0 CY_REG_BASE 1 (Some [cmd]) in
  if retval <? 0 then (retval, ts1)
  else
    let '(retval, tries, ts2) := poll_loop POLL_FUEL sysinfo_poll 0 ts1 in
    if tries >=? CY_DELAY_MAX then (- EAGAIN, ts2) else (retval, ts2).

Definition cyttsp_set_sysinfo_regs (ts : cyttsp) : Z * cyttsp :=
  let pd := platform_data ts in
  if negb (act_intrvl pd =? CY_ACT_INTRVL_DFLT)
     || negb (tch_tmout pd =? CY_TCH_TMOUT_DFLT)
     || negb (lp_intrvl pd =? CY_LP_INTRVL_DFLT) then
    let intrvl_ray := [act_intrvl pd; tch_tmout pd; lp_intrvl pd] in
    let '(retval, ts1) :=
      ttsp_write_block_data ts CY_REG_ACT_INTRVL 3 (Some intrvl_ray) in
    (retval, msleep ts1 CY_DELAY_DFLT)
  else (0, ts).

(* INIT_COMPLETION, then the reset command, then the wait for the
   interrupt handler to complete bl_ready; the wait is given its
   timeout in milliseconds and answers 0 on timeout, the remaining
   jiffies (at least 1) otherwise *)
Definition cyttsp_soft_reset (ts : cyttsp) : Z * cyttsp :=
  let cmd := CY_SOFT_RESET_MODE in
  let wait_ms := CY_DELAY_DFLT * CY_DELAY_MAX in
  let '(retval, ts1) := ttsp_write_block_data ts CY_REG_BASE 1 (Some [cmd]) in
  if retval <? 0 then (retval, ts1)
  else
    let '(remaining, h) :=
      wait_for_completion_timeout (kernel ts1) (hw ts1) wait_ms in
    (remaining, set_hw ts1 h).

Definition cyttsp_act_dist_setup (ts : cyttsp) : Z * cyttsp :=
  let act_dist_setup := act_dist (platform_data ts) in
  ttsp_write_block_data ts CY_REG_ACT_DIST 1 (Some [act_dist_setup]).

(** ** Touch frames *)

Definition cyttsp_hndshk (ts : cyttsp) (hst : Z) : Z * cyttsp :=
  let cmd := u8 (Z.lxor hst CY_HNDSHK_BIT) in
  ttsp_write_block_data ts CY_REG_BASE 1 (Some [cmd]).

Definition cyttsp_report_slot (ts : cyttsp) (slot x y z : Z) : cyttsp :=
  let ts := emit ts (EvMtSlot slot) in
  let ts := emit ts (EvMtSlotState true) in
  let ts := emit ts (EvAbs ABS_MT_POSITION_X x) in
  let ts := emit ts (EvAbs ABS_MT_POSITION_Y y) in
  emit ts (EvAbs ABS_MT_TOUCH_MAJOR z).

Definition cyttsp_report_slot_empty (ts : cyttsp) (slot : Z) : cyttsp :=
  let ts := emit ts (EvMtSlot slot) in
  emit ts (EvMtSlotState false).

(* body of: for (i = 0; i < num_cur_tch; i++) *)
Definition report_touch (xy_data ids : list Z) (acc : Z * cyttsp) (i : nat)
    : Z * cyttsp :=
  let '(used, ts) := acc in
  let id := nth i ids 0 in
  let used := Z.lor used (Z.shiftl 1 id) in
  match cyttsp_get_tch xy_data i with
  | Some tch =>
      (used, cyttsp_report_slot ts id (tch_x tch) (tch_y tch) (tch_z tch))
  | None => (used, ts)
  end.

(* body of: for (i = 0; i < CY_MAX_ID; i++) *)
Definition report_unused (used : Z) (ts : cyttsp) (i : nat) : cyttsp :=
  if Z.land used (Z.shiftl 1 (Z.of_nat i)) =? 0
  then cyttsp_report_slot_empty ts (Z.of_nat i)
  else ts.

Definition cyttsp_handle_tchdata (ts : cyttsp) : Z * cyttsp :=
  let '(r, xy_data, ts1) :=
    ttsp_read_block_data ts CY_REG_BASE SIZEOF_XYDATA
                         (Some (repeat 0 (Z.to_nat SIZEOF_XYDATA))) in
  if negb (r =? 0) then (0, ts1)
  else
    let '(h, ts2) :=
      if use_hndshk (platform_data ts1)
      then cyttsp_hndshk ts1 (hst_mode xy_data)
      else (0, ts1) in
    if negb (h =? 0) then (0, ts2)
    else
      let num_cur_tch := GET_NUM_TOUCHES (tt_stat xy_data) in
      if powerstate_eqb (power_state ts2) CY_IDLE_STATE then (0, ts2)
      else if negb (GET_BOOTLOADERMODE (tt_mode xy_data) =? 0) then (-1, ts2)
      else
        let num_cur_tch :=
          if IS_LARGE_AREA (tt_stat xy_data) =? 1 then 0
          else if num_cur_tch >? CY_MAX_FINGER then 0
          else if negb (IS_BAD_PKT (tt_mode xy_data) =? 0) then 0
          else num_cur_tch in
        let ids := cyttsp_extract_track_ids xy_data in
        let '(used, ts3) :=
          fold_left (report_touch xy_data ids)
                    (seq 0 (Z.to_nat num_cur_tch)) (0, ts2) in
        let ts4 :=
          fold_left (report_unused used) (seq 0 (Z.to_nat CY_MAX_ID)) ts3 in
        (0, emit ts4 EvSync).

Definition cyttsp_pr_state (ts : cyttsp) : cyttsp :=
  emit ts (EvPrState (power_state ts)).

Definition cyttsp_irq (ts : cyttsp) : cyttsp :=
  if powerstate_eqb (power_state ts) CY_BL_STATE then emit ts EvComplete
  else
    let '(retval, ts1) := cyttsp_handle_tchdata ts in
    if retval <? 0 then
      let '(retval, ts2) := cyttsp_exit_bl_mode ts1 in
      let ts3 :=
        if negb (retval =? 0) then set_power_state ts2 CY_IDLE_STATE
        else set_power_state ts2 CY_ACTIVE_STATE in
      cyttsp_pr_state ts3
    else ts1.

(** ** Attach *)

(* cyttsp_power_on is a chain of calls, each followed by
   "if (retval < 0) goto bypass"; it is cut here at every call, each
   piece running from one call to the end of the function *)
Definition power_on_act_dist (ts : cyttsp) : Z * cyttsp :=
  let '(retval, ts) := cyttsp_act_dist_setup ts in
  if retval <? 0 then (retval, cyttsp_pr_state ts)
  else (0, cyttsp_pr_state (set_power_state ts CY_ACTIVE_STATE)).

Definition power_on_operational (ts : cyttsp) : Z * cyttsp :=
  let '(retval, ts) := cyttsp_set_operational_mode ts in
  if retval <? 0 then (retval, cyttsp_pr_state ts)
  else power_on_act_dist ts.

Definition power_on_sysinfo_regs (ts : cyttsp) : Z * cyttsp :=
  let '(retval, ts) := cyttsp_set_sysinfo_regs ts in
  if retval <? 0 then (retval, cyttsp_pr_state ts)
  else power_on_operational ts.

(* from the label no_bl_bypass on *)
Definition power_on_no_bl_bypass (ts : cyttsp) : Z * cyttsp :=
  let '(retval, ts) := cyttsp_set_sysinfo_mode ts in
  if retval <? 0 then (retval, cyttsp_pr_state ts)
  else power_on_sysinfo_regs ts.

(* from the call of cyttsp_exit_bl_mode on *)
Definition power_on_exit_bl (ts : cyttsp) : Z * cyttsp :=
  let '(retval, ts) := cyttsp_exit_bl_mode ts in
  if retval <? 0 then (retval, cyttsp_pr_state ts)
  else power_on_no_bl_bypass (set_power_state ts CY_IDLE_STATE).

(* from the call of cyttsp_bl_app_valid on *)
Definition power_on_bl_app_valid (ts : cyttsp) : Z * cyttsp :=
  let '(retval, ts) := cyttsp_bl_app_valid ts in
  if retval <? 0 then (retval, cyttsp_pr_state ts)
  else if retval >? 0 then power_on_no_bl_bypass ts
  else power_on_exit_bl ts.

(* [None] is a NULL session *)
Definition cyttsp_power_on (ots : option cyttsp) : Z * option cyttsp :=
  match ots with
  | None => (- ENOMEM, None)
  | Some ts =>
      let ts := set_power_state ts CY_BL_STATE in
      let '(retval, h) := request_threaded_irq (kernel ts) (hw ts) in
      let ts := set_hw ts h in
      if retval <? 0 then (retval, Some (cyttsp_pr_state ts))
      else
        let '(retval, ts) := cyttsp_soft_reset ts in
        if retval =? 0 then (retval, Some (cyttsp_pr_state ts))
        else
          let '(retval, ts) := power_on_bl_app_valid ts in
          (retval, Some ts)
  end.

(** ** Power management *)

Definition cyttsp_suspend (ts : cyttsp) : Z * cyttsp :=
  if use_sleep (platform_data ts)
     && powerstate_eqb (power_state ts) CY_ACTIVE_STATE then
    let sleep_mode := Z.b2z (use_sleep (platform_data ts)) in
    let '(retval, ts1) :=
      ttsp_write_block_data ts CY_REG_BASE 1 (Some [sleep_mode]) in
    if retval >=? 0 then (retval, set_power_state ts1 CY_SLEEP_STATE)
    else (retval, ts1)
  else (0, ts).

End Core.

Arguments cyttsp_bus_ops : clear implicits.
Arguments kernel_ops : clear implicits.
Arguments cyttsp : clear implicits.

(** ** A scripted platform for concrete runs

    Every bus transfer and every completion wait consumes the next
    scripted answer (a return code and, for a read, the bytes
    delivered); once the script is used up every call fails with -EIO. *)

Definition script : Type := list (Z * list Z).

Definition script_next (s : script) : Z * list Z * script :=
  match s with
  | [] => (- EIO, [], [])
  | (r, d) :: s' => (r, d, s')
  end.

Definition script_bus : cyttsp_bus_ops script :=
  {| write := fun s _ _ _ => let '(r, _, s') := script_next s in (r, s');
     read := fun s _ _ => script_next s |}.

Definition script_kernel : kernel_ops script :=
  {| request_threaded_irq := fun s => (0, s);
     wait_for_completion_timeout :=
       fun s _ => let '(r, _, s') := script_next s in (r, s') |}.

Definition script_session (pd : cyttsp_platform_data)
    (st : cyttsp_powerstate) (s : script) : cyttsp script :=
  {| platform_data := pd; bus_ops := script_bus; kernel := script_kernel;
     bl_data := repeat 0 (Z.to_nat SIZEOF_BL_DATA);
     sysinfo_data := repeat 0 (Z.to_nat SIZEOF_SYSINFO_DATA);
     power_state := st; hw := s; log := [] |}.

(* the cyttsp_platform_data of board-omap3beaglecypress.c (SPI), with
   the handshake switched by the caller *)
Definition dflt_bl_keys : list Z := [0; 1; 2; 3; 4; 5; 6; 7].

Definition board_platform_data (hndshk : bool) : cyttsp_platform_data :=
  {| maxx := 760; maxy := 740; use_hndshk := hndshk; use_sleep := true;
     act_dist := CY_ACT_DIST_DFLT; act_intrvl := CY_ACT_INTRVL_DFLT;
     tch_tmout := CY_TCH_TMOUT_DFLT; lp_intrvl := CY_LP_INTRVL_DFLT;
     bl_keys := Some dflt_bl_keys |}.

(** ** Vocabulary of the statements *)

Inductive xfer_kind : Type := XRead | XWrite.

(* the two transport entry points seen as one operation *)
Definition ttsp_block_data {B} (kind : xfer_kind) (ts : cyttsp B)
    (command length : Z) (buf : list Z) : Z * cyttsp B :=
  match kind with
  | XRead =>
      let '(r, _, ts') := ttsp_read_block_data ts command length (Some buf)
      in (r, ts')
  | XWrite => ttsp_write_block_data ts command length (Some buf)
  end.

(* one raw bus transfer: return code and next bus state *)
Definition bus_xfer {B} (kind : xfer_kind) (ops : cyttsp_bus_ops B)
    (command length : Z) (buf : list Z) (h : B) : Z * B :=
  match kind with
  | XRead => let '(r, _, h') := read ops h command length in (r, h')
  | XWrite => write ops h command length buf
  end.

Definition bus_event (kind : xfer_kind) (command length : Z) (buf : list Z)
    : event :=
  match kind with
  | XRead => EvBusRead command length
  | XWrite => EvBusWrite command length buf
  end.

(* return code of the (i+1)-th consecutive transfer started in state h *)
Fixpoint nth_rc {B} (xfer : B -> Z * B) (h : B) (i : nat) : Z :=
  match i with
  | O => fst (xfer h)
  | S i' => nth_rc xfer (snd (xfer h)) i'
  end.

(* k failed attempts, each followed by the inter-attempt delay *)
Definition failed_attempts (e : event) (k : nat) : list event :=
  concat (repeat [e; EvSleep CY_DELAY_DFLT] k).

Definition count (p : event -> bool) (l : list event) : nat :=
  length (filter p l).

Definition is_read_or_sleep (e : event) : bool :=
  match e with EvBusRead _ _ | EvSleep _ => true | _ => false end.

(* ts' is ts after bus traffic and delays only: configuration and
   PowerState are the same and nothing was reported to the input core *)
Definition io_step {B} (ts ts' : cyttsp B) : Prop :=
  platform_data ts' = platform_data ts /\
  bus_ops ts' = bus_ops ts /\
  kernel ts' = kernel ts /\
  power_state ts' = power_state ts /\
  exists l, log ts' = log ts ++ l /\ filter is_input l = [].

(* ts' is ts after bus reads and delays only: apart from the bus state
   and the log every field of the session is the same *)
Definition read_only_step {B} (ts ts' : cyttsp B) : Prop :=
  platform_data ts' = platform_data ts /\
  bus_ops ts' = bus_ops ts /\
  kernel ts' = kernel ts /\
  bl_data ts' = bl_data ts /\
  sysinfo_data ts' = sysinfo_data ts /\
  power_state ts' = power_state ts /\
  exists l, log ts' = log ts ++ l /\ forallb is_read_or_sleep l = true.

(* ts' is ts after between lo and hi attempts to write the same block *)
Definition write_step {B} (lo hi : nat) (ts ts' : cyttsp B)
    (command length : Z) (buf : list Z) : Prop :=
  platform_data ts' = platform_data ts /\
  bus_ops ts' = bus_ops ts /\
  kernel ts' = kernel ts /\
  bl_data ts' = bl_data ts /\
  sysinfo_data ts' = sysinfo_data ts /\
  power_state ts' = power_state ts /\
  exists l n, log ts' = log ts ++ l /\ (lo <= n <= hi)%nat /\
    filter is_bus_call l = repeat (EvBusWrite command length buf) n /\
    filter is_input l = [].

(* the first of the next n passes of a wait loop that leaves the first
   operand of the loop condition false, with its retval and session *)
Fixpoint settles {St : Type} (n : nat) (body : St -> bool * Z * St)
    (st : St) : option (Z * St) :=
  match n with
  | O => None
  | S n' =>
      let '(again, retval, st1) := body st in
      if again then settles n' body st1 else Some (retval, st1)
  end.

(* one poll of the bootloader status block: the delay, then the read *)
Definition bl_reread {B} (ts : cyttsp B) : Z * cyttsp B :=
  cyttsp_load_bl_regs (msleep ts CY_DELAY_DFLT).

(* the poll read the block and bit 4 of bl_status, the bootloader-mode
   bit, is clear in it *)
Definition shows_bl_cleared {B} (ts : cyttsp B) : bool :=
  (fst (bl_reread ts) =? 0)
  && negb (Z.testbit (bl_status (bl_data (snd (bl_reread ts)))) 4).

Fixpoint bl_cleared_within {B} (n : nat) (ts : cyttsp B) : bool :=
  match n with
  | O => false
  | S n' => shows_bl_cleared ts || bl_cleared_within n' (snd (bl_reread ts))
  end.

(* the register image of an operational-mode frame, field by field in
   the order of struct cyttsp_xydata; [rest] stands for tt_undef[3],
   act_dist and tt_reserved *)
Definition encode_tch (t : cyttsp_tch) : list Z :=
  [tch_x t / 256; tch_x t mod 256; tch_y t / 256; tch_y t mod 256; tch_z t].

Definition encode_xydata (hst mode stat : Z) (t1 : cyttsp_tch) (id12 : Z)
    (t2 : cyttsp_tch) (gest_cnt gest_id : Z) (t3 : cyttsp_tch) (id34 : Z)
    (t4 : cyttsp_tch) (rest : list Z) : list Z :=
  [hst; mode; stat] ++ encode_tch t1 ++ [id12] ++ encode_tch t2
  ++ [gest_cnt; gest_id] ++ encode_tch t3 ++ [id34] ++ encode_tch t4 ++ rest.

(* what the input core is told, read back from the calls made to it *)
Inductive update : Type :=
| Occupied (slot x y z : Z)
| Empty (slot : Z)
| FrameComplete.

Fixpoint updates_of (l : list event) : list update :=
  match l with
  | [] => []
  | EvMtSlot s :: EvMtSlotState true :: EvAbs ABS_MT_POSITION_X x
      :: EvAbs ABS_MT_POSITION_Y y :: EvAbs ABS_MT_TOUCH_MAJOR z :: l' =>
      Occupied s x y z :: updates_of l'
  | EvMtSlot s :: EvMtSlotState false :: l' => Empty s :: updates_of l'
  | EvSync :: l' => FrameComplete :: updates_of l'
  | _ :: l' => updates_of l'
  end.

(* the local xy_data handed to the transport by cyttsp_handle_tchdata *)
Definition frame_buf : option (list Z) :=
  Some (repeat 0 (Z.to_nat SIZEOF_XYDATA)).

(* the write cyttsp_suspend issues when it issues one *)
Definition sleep_write {B} (ts : cyttsp B) : Z * cyttsp B :=
  ttsp_write_block_data ts CY_REG_BASE 1
    (Some [Z.b2z (use_sleep (platform_data ts))]).

(* the protocol steps of attach that follow the soft reset *)
Inductive attach_step : Type :=
| BlAppValid
| ExitBl
| SysinfoMode
| SysinfoRegs
| OperationalMode
| ActDist.

Definition run_step {B} (step : attach_step) : cyttsp B -> Z * cyttsp B :=
  match step with
  | BlAppValid => cyttsp_bl_app_valid
  | ExitBl => cyttsp_exit_bl_mode
  | SysinfoMode => cyttsp_set_sysinfo_mode
  | SysinfoRegs => cyttsp_set_sysinfo_regs
  | OperationalMode => cyttsp_set_operational_mode
  | ActDist => cyttsp_act_dist_setup
  end.

(* [reaches ts1 step exited ts]: attach, out of the soft reset with
   session ts1, comes to run [step] on session ts, every step before
   it having succeeded; [exited] tells whether exit-bootloader was
   among them *)
Inductive reaches {B} (ts1 : cyttsp B)
    : attach_step -> bool -> cyttsp B -> Prop :=
| reach_bl_app_valid : reaches ts1 BlAppValid false ts1
| reach_exit_bl ts ts' :
    reaches ts1 BlAppValid false ts ->
    cyttsp_bl_app_valid ts = (0, ts') ->
    reaches ts1 ExitBl false ts'
| reach_sysinfo_directly ts v ts' :
    reaches ts1 BlAppValid false ts ->
    cyttsp_bl_app_valid ts = (v, ts') -> 0 < v ->
    reaches ts1 SysinfoMode false ts'
| reach_sysinfo_after_exit ts r ts' :
    reaches ts1 ExitBl false ts ->
    cyttsp_exit_bl_mode ts = (r, ts') -> 0 <= r ->
    reaches ts1 SysinfoMode true (set_power_state ts' CY_IDLE_STATE)
| reach_sysinfo_regs exited ts r ts' :
    reaches ts1 SysinfoMode exited ts ->
    cyttsp_set_sysinfo_mode ts = (r, ts') -> 0 <= r ->
    reaches ts1 SysinfoRegs exited ts'
| reach_operational exited ts r ts' :
    reaches ts1 SysinfoRegs exited ts ->
    cyttsp_set_sysinfo_regs ts = (r, ts') -> 0 <= r ->
    reaches ts1 OperationalMode exited ts'
| reach_act_dist exited ts r ts' :
    reaches ts1 OperationalMode exited ts ->
    cyttsp_set_operational_mode ts = (r, ts') -> 0 <= r ->
    reaches ts1 ActDist exited ts'.

(* the piece of cyttsp_power_on that starts at a step *)
Definition power_on_from {B} (step : attach_step)
    : cyttsp B -> Z * cyttsp B :=
  match step with
  | BlAppValid => power_on_bl_app_valid
  | ExitBl => power_on_exit_bl
  | SysinfoMode => power_on_no_bl_bypass
  | SysinfoRegs => power_on_sysinfo_regs
  | OperationalMode => power_on_operational
  | ActDist => power_on_act_dist
  end.

(* attach came through every step *)
Definition attach_ok {B} (ts1 : cyttsp B) (r : Z) (t : cyttsp B) : Prop :=
  r = 0 /\
  exists exited s e s',
    reaches ts1 ActDist exited s /\ run_step ActDist s = (e, s') /\
    0 <= e /\ t = cyttsp_pr_state (set_power_state s' CY_ACTIVE_STATE).

Definition attach_outcome {B} (ts1 : cyttsp B) (r : Z) (t : cyttsp B)
    : Prop :=
  (r < 0 /\ power_state t <> CY_ACTIVE_STATE) \/ attach_ok ts1 r t.

(** ** Concrete sessions on the scripted platform *)

(* two failed transfers, then a good one *)
Definition retry_demo : cyttsp script :=
  script_session (board_platform_data false) CY_ACTIVE_STATE
    [(- EIO, []); (- EIO, []); (0, [7; 8; 9])].

(* a bootloader status block: bl_file, bl_status, then zeroes *)
Definition bl_block (file status : Z) : list Z :=
  [file; status] ++ repeat 0 14.

(* status read: bootloader running, application valid *)
Definition bl_valid_demo : cyttsp script :=
  script_session (board_platform_data false) CY_BL_STATE
    [(0, bl_block 0x00 0x11)].

(* command write accepted; the first poll still shows the bootloader,
   the second shows it gone *)
Definition exit_bl_demo : cyttsp script :=
  script_session (board_platform_data false) CY_BL_STATE
    [(0, []); (0, bl_block 0x00 0x11); (0, bl_block 0x00 0x00)].

Definition two_touch_frame : list Z :=
  encode_xydata 0x00 0x00 0x02
    {| tch_x := 100; tch_y := 200; tch_z := 50 |} 0x39
    {| tch_x := 400; tch_y := 10; tch_z := 5 |}
    0 0 {| tch_x := 0; tch_y := 0; tch_z := 0 |} 0x00
    {| tch_x := 0; tch_y := 0; tch_z := 0 |} [0; 0; 0; CY_ACT_DIST_DFLT; 0].

Definition two_touch_demo : cyttsp script :=
  script_session (board_platform_data false) CY_ACTIVE_STATE
    [(0, two_touch_frame)].

(* a frame read in bootloader mode: bit 4 of the mode byte is set *)
Definition bl_frame : list Z := [0x00; 0x10] ++ repeat 0 30.

(* the frame, then a recovery that succeeds at the first poll *)
Definition reentry_demo : cyttsp script :=
  script_session (board_platform_data false) CY_ACTIVE_STATE
    [(0, bl_frame); (0, []); (0, bl_block 0x00 0x00)].

(* the frame with the handshake configured, and a bus that is dead
   from the handshake on *)
Definition reentry_unacknowledged : cyttsp script :=
  script_session (board_platform_data true) CY_ACTIVE_STATE [(0, bl_frame)].

(* a bus that is dead from the start *)
Definition dead_bus_demo : cyttsp script :=
  script_session (board_platform_data false) CY_ACTIVE_STATE [].

Definition suspend_demo : cyttsp script :=
  script_session (board_platform_data false) CY_ACTIVE_STATE [(0, [])].

(* attach: reset command accepted, ready signal received, and a status
   block with the bootloader running and no valid application *)
Definition attach_no_app_demo : cyttsp script :=
  script_session (board_platform_data false) CY_IDLE_STATE
    [(0, []); (1, []); (0, bl_block 0x00 0x10)].

(* attach: reset command accepted, then the wait times out *)
Definition attach_timeout_demo : cyttsp script :=
  script_session (board_platform_data false) CY_IDLE_STATE
    [(0, []); (0, [])].

(* command write accepted; the bootloader-mode bit is seen set by 25
   polls and clear by the 26th *)
Definition exit_bl_late_demo : cyttsp script :=
  script_session (board_platform_data false) CY_BL_STATE
    ([(0, [])] ++ repeat (0, bl_block 0x00 0x11) 25
     ++ [(0, bl_block 0x00 0x00)]).

(* attach on a bus that rejects the reset command four times and works
   from then on: status block of a running application, system
   information with a firmware version, operational frame showing the
   default active distance *)
Definition attach_reset_rejected_demo : cyttsp script :=
  script_session (board_platform_data false) CY_IDLE_STATE
    ([(- EIO, []); (- EIO, []); (- EIO, []); (- EIO, [])]
     ++ [(0, bl_block 0x00 0x00)]
     ++ [(0, []); (0, repeat 0 17 ++ [1; 0])]
     ++ [(0, []); (0, repeat 0 30 ++ [CY_ACT_DIST_DFLT; 0])]
     ++ [(0, [])]).

Definition is_bus_read (e : event) : bool :=
  match e with EvBusRead _ _ => true | _ => false end.

Definition is_exit_bl_write (e : event) : bool :=
  match e with
  | EvBusWrite _ len _ => len =? Z.of_nat SIZEOF_BL_COMMAND
  | _ => false
  end.

(** ** Resume

    cyttsp_resume, the counterpart of cyttsp_suspend.  The [wakeup]
    member of the platform data is a function pointer acting on the
    platform; it is passed beside the session, [None] being NULL.  The
    handle may be NULL ([None]). *)

Definition ENOSYS : Z := 38.

Definition cyttsp_resume {B} (wakeup : option (B -> Z * B))
    (handle : option (cyttsp B)) : Z * option (cyttsp B) :=
  match handle with
  | None => (0, None)
  | Some ts =>
      if use_sleep (platform_data ts)
         && negb (powerstate_eqb (power_state ts) CY_ACTIVE_STATE) then
        let '(retval, ts) :=
          match wakeup with
          | Some w => let '(r, h) := w (hw ts) in (r, set_hw ts h)
          | None => (- ENOSYS, ts)
          end in
        if retval >=? 0 then
          let '(retval, xydata, ts) :=
            ttsp_read_block_data ts CY_REG_BASE SIZEOF_XYDATA frame_buf in
          if (retval >=? 0) && (GET_HSTMODE (hst_mode xydata) =? 0)
          then (retval, Some (set_power_state ts CY_ACTIVE_STATE))
          else (retval, Some ts)
        else (retval, Some ts)
      else (0, Some ts)
  end.

(** ** Vocabulary of the further statements *)

(* the log after the first transfers of a retried block operation:
   [m] failed attempts with their delays, then a last transfer that
   returned [r], followed by a delay unless r is 0 *)
Definition attempts_log (e : event) (m : nat) (r : Z) : list event :=
  failed_attempts e m ++ e :: (if r =? 0 then [] else [EvSleep CY_DELAY_DFLT]).


(* a value a u8 can hold *)
Definition is_byte (x : Z) : Prop := 0 <= x < 256.

(* the session with a list of events appended to its log *)
Definition emit_list {B} (ts : cyttsp B) (l : list event) : cyttsp B :=
  fold_left emit l ts.

(* the calls cyttsp_report_slot and cyttsp_report_slot_empty make *)
Definition touch_events (c : Z * cyttsp_tch) : list event :=
  [ EvMtSlot (fst c); EvMtSlotState true;
    EvAbs ABS_MT_POSITION_X (tch_x (snd c));
    EvAbs ABS_MT_POSITION_Y (tch_y (snd c));
    EvAbs ABS_MT_TOUCH_MAJOR (tch_z (snd c)) ].

Definition empty_events (slot : Z) : list event :=
  [EvMtSlot slot; EvMtSlotState false].

(* the number of contacts a frame is taken to carry: what its status
   byte reports, or none when the frame is flagged large-area or
   invalid or reports more than CY_MAX_FINGER *)
Definition contact_count (xy_data : list Z) : nat :=
  if Z.testbit (tt_stat xy_data) 4 then 0%nat
  else if CY_MAX_FINGER <? GET_NUM_TOUCHES (tt_stat xy_data) then 0%nat
  else if Z.testbit (tt_mode xy_data) 5 then 0%nat
  else Z.to_nat (GET_NUM_TOUCHES (tt_stat xy_data)).

(* the four contact records of a frame, each with its track id *)
Definition frame_records (xy_data : list Z) : list (Z * cyttsp_tch) :=
  combine (cyttsp_extract_track_ids xy_data)
          [tch_at xy_data 3; tch_at xy_data 9;
           tch_at xy_data 16; tch_at xy_data 22].

Definition contacts (xy_data : list Z) : list (Z * cyttsp_tch) :=
  firstn (contact_count xy_data) (frame_records xy_data).

(* the slots, in ascending order, that none of the ids occupies *)
Definition free_slots (ids : list Z) : list Z :=
  filter (fun s => negb (existsb (Z.eqb s) ids))
         (map Z.of_nat (seq 0 (Z.to_nat CY_MAX_ID))).

Definition frame_events (xy_data : list Z) : list event :=
  flat_map touch_events (contacts xy_data)
  ++ flat_map empty_events (free_slots (map fst (contacts xy_data)))
  ++ [EvSync].

Definition occupied (c : Z * cyttsp_tch) : update :=
  Occupied (fst c) (tch_x (snd c)) (tch_y (snd c)) (tch_z (snd c)).


(* the bit mask the first loop of cyttsp_handle_tchdata builds *)
Definition used_mask (ids : list Z) : Z :=
  fold_left (fun used id => Z.lor used (Z.shiftl 1 id)) ids 0.


(* the byte cyttsp_hndshk sends for a host-mode byte: bit 7 toggled *)
Definition toggle_bit7 (hst : Z) : Z :=
  if Z.testbit hst 7 then hst - 128 else hst + 128.




(* ts' is ts with more events in its log, each of them satisfying Q *)
Definition log_step {B} (Q : event -> Prop) (ts ts' : cyttsp B) : Prop :=
  exists l, log ts' = log ts ++ l /\ Forall Q l.

(* the commands attach writes, by register, length and bytes *)
Definition attach_commands (pd : cyttsp_platform_data) : list event :=
  [ EvBusWrite CY_REG_BASE 1 [CY_SOFT_RESET_MODE];
    EvBusWrite CY_REG_BASE (Z.of_nat SIZEOF_BL_COMMAND)
               (buf_bytes (build_bl_cmd pd));
    EvBusWrite CY_REG_BASE 1 [CY_SYSINFO_MODE];
    EvBusWrite CY_REG_ACT_INTRVL 3 [act_intrvl pd; tch_tmout pd; lp_intrvl pd];
    EvBusWrite CY_REG_BASE 1 [CY_OPERATE_MODE];
    EvBusWrite CY_REG_ACT_DIST 1 [act_dist pd] ].

(* an event attach may log: no input report, and no bus write other
   than its commands *)
Definition attach_event (pd : cyttsp_platform_data) (e : event) : Prop :=
  is_input e = false /\ (is_bus_write e = true -> In e (attach_commands pd)).


(* the wake-up call of cyttsp_resume and the frame read that follows
   it, as far as each is reached *)
Definition resume_wakeup {B} (wakeup : option (B -> Z * B)) (ts : cyttsp B)
    : Z * cyttsp B :=
  match wakeup with
  | Some w => let '(r, h) := w (hw ts) in (r, set_hw ts h)
  | None => (- ENOSYS, ts)
  end.

Definition resume_read {B} (wakeup : option (B -> Z * B)) (ts : cyttsp B)
    : Z * list Z * cyttsp B :=
  ttsp_read_block_data (snd (resume_wakeup wakeup ts))
                       CY_REG_BASE SIZEOF_XYDATA frame_buf.

(* the device answered the wake-up: the call did not fail, the frame
   was read, and its host-mode nibble is the operational mode *)
Definition woke_up {B} (wakeup : option (B -> Z * B)) (ts : cyttsp B)
    : bool :=
  (0 <=? fst (resume_wakeup wakeup ts))
  && (0 <=? fst (fst (resume_read wakeup ts)))
  && (GET_HSTMODE (hst_mode (snd (fst (resume_read wakeup ts)))) =? 0).


(** ** The SPI bus interface (cyttsp_spi.c) *)

Definition CY_SPI_WR_OP : Z := 0x00.
Definition CY_SPI_RD_OP : Z := 0x01.
Definition CY_SPI_CMD_BYTES : Z := 4.
Definition CY_SPI_SYNC_BYTE : nat := 2.
Definition CY_SPI_SYNC_ACK1 : Z := 0x62.
Definition CY_SPI_SYNC_ACK2 : Z := 0x9D.
Definition CY_SPI_DATA_SIZE : Z := 128.
Definition CY_SPI_DATA_BUF_SIZE : Z := CY_SPI_CMD_BYTES + CY_SPI_DATA_SIZE.

Section Spi.

(* the state of the SPI master and of the device behind it *)
Context {S : Type}.

(* spi_sync on the message cyttsp_spi_xfer builds: a full-duplex
   transfer sending [tx], followed, for a read, by a transfer that
   only receives [rlen] bytes.  It answers its return code, the bytes
   received during the first transfer and those received during the
   second. *)
Variable spi_sync : S -> list Z -> Z -> Z * list Z * list Z * S.

(* returns the result, the bytes a read stored at the front of buf,
   and the new state; wr_buf and rd_buf of struct cyttsp_spi are
   cleared on entry and not read after the call *)
Definition cyttsp_spi_xfer (op : Z) (s : S) (reg : Z) (buf : list Z)
    (length : Z) : Z * list Z * S :=
  if length >? CY_SPI_DATA_SIZE then (- EINVAL, [], s)
  else
    let size := Z.to_nat CY_SPI_DATA_BUF_SIZE in
    let wr_buf := repeat 0 size in
    let rd_buf := repeat 0 size in
    let wr_buf := store_bytes wr_buf [0x00; 0xFF; reg; op] in
    let wr_buf :=
      if op =? CY_SPI_WR_OP
      then firstn (Z.to_nat CY_SPI_CMD_BYTES) wr_buf
           ++ store_bytes (skipn (Z.to_nat CY_SPI_CMD_BYTES) wr_buf)
                          (firstn (Z.to_nat length) buf)
      else wr_buf in
    let len0 :=
      if op =? CY_SPI_WR_OP then length + CY_SPI_CMD_BYTES
      else if op =? CY_SPI_RD_OP then CY_SPI_CMD_BYTES
      else 0 in
    let len1 := if op =? CY_SPI_RD_OP then length else 0 in
    let '(retval, rx0, rx1, s') :=
      spi_sync s (firstn (Z.to_nat len0) wr_buf) len1 in
    let rd_buf := store_bytes rd_buf (firstn (Z.to_nat len0) rx0) in
    let stored := map u8 (firstn (Z.to_nat len1) rx1) in
    if (byte_at rd_buf CY_SPI_SYNC_BYTE =? CY_SPI_SYNC_ACK1)
       && (byte_at rd_buf (CY_SPI_SYNC_BYTE + 1) =? CY_SPI_SYNC_ACK2)
    then (0, stored, s')
    else (1, stored, s').

Definition ttsp_spi_read_block_data (s : S) (addr length : Z)
    : Z * list Z * S :=
  let '(retval, stored, s') := cyttsp_spi_xfer CY_SPI_RD_OP s addr [] length in
  (if retval >? 0 then - EIO else retval, stored, s').

Definition ttsp_spi_write_block_data (s : S) (addr length : Z)
    (data : list Z) : Z * S :=
  let '(retval, _, s') := cyttsp_spi_xfer CY_SPI_WR_OP s addr data length in
  (if retval >? 0 then - EIO else retval, s').

(* ts->bus_ops as cyttsp_spi_probe fills it *)
Definition spi_bus_ops : cyttsp_bus_ops S :=
  {| write := ttsp_spi_write_block_data;
     read := ttsp_spi_read_block_data |}.

End Spi.

(* an SPI device for concrete runs: it acknowledges a transfer when
   the register addressed is below 0x20, and answers a read with the
   register numbers *)
Definition demo_spi_sync (s : nat) (tx : list Z) (rlen : Z)
    : Z * list Z * list Z * nat :=
  (0,
   if nth 2 tx 0 <? 0x20 then [0; 0; CY_SPI_SYNC_ACK1; CY_SPI_SYNC_ACK2]
   else [0; 0; 0; 0],
   map (fun i => nth 2 tx 0 + Z.of_nat i) (seq 0 (Z.to_nat rlen)),
   Datatypes.S s).


(* the device acknowledged: the sync bytes 0x62 0x9D came back in
   positions 2 and 3 of what the first transfer received *)
Definition spi_ack (rx : list Z) : bool :=
  (u8 (nth 2 rx 0) =? CY_SPI_SYNC_ACK1) && (u8 (nth 3 rx 0) =? CY_SPI_SYNC_ACK2).

(* the four command bytes that open every SPI transfer *)
Definition spi_header (reg op : Z) : list Z := [0x00; 0xFF; u8 reg; op].


(** ** Creating the session (cyttsp_core_init) and probing (cyttsp_spi_probe)

    Pointers are addresses, 0 being NULL.  What the kernel services
    answer is given beforehand in an environment; the calls made to
    them are listed in order. *)

(* include/linux/err.h, on the 32-bit OMAP3 *)
Definition MAX_ERRNO : Z := 4095.
Definition BITS_PER_LONG : Z := 32.
Definition IS_ERR (ptr : Z) : bool := 2 ^ BITS_PER_LONG - MAX_ERRNO <=? ptr.
Definition PTR_ERR (ptr : Z) : Z := ptr - 2 ^ BITS_PER_LONG.

(* struct device as far as the core reads it: its platform data, with
   the members [init] and [exit] of struct cyttsp_platform_data.
   [pd_init] is NULL or a callback, given by the value it returns *)
Record device : Type := {
  dev_platform_data : cyttsp_platform_data;
  pd_init : option Z;
  pd_exit : bool
}.

Record init_env : Type := {
  kzalloc_ts : Z;          (* kzalloc for the session: its address, 0 on failure *)
  input_allocate : Z;      (* input_allocate_device: address, 0 on failure *)
  input_register : Z       (* return value of input_register_device *)
}.

Inductive kcall : Type :=
| KFree (ptr : Z)
| PlatformInit
| PlatformExit
| InputAllocateDevice
| InputSetAbsParams (axis : abs_axis) (min max : Z)
| InputMtInitSlots (num_slots : Z)
| InputRegisterDevice
| InputFreeDevice (ptr : Z).

(* the session kzalloc hands out: every field zero, so PowerState is
   CY_IDLE_STATE, the first enumerator *)
Definition zeroed_session {B} (pd : cyttsp_platform_data)
    (ops : cyttsp_bus_ops B) (k : kernel_ops B) (h : B) : cyttsp B :=
  {| platform_data := pd; bus_ops := ops; kernel := k;
     bl_data := repeat 0 (Z.to_nat SIZEOF_BL_DATA);
     sysinfo_data := repeat 0 (Z.to_nat SIZEOF_SYSINFO_DATA);
     power_state := CY_IDLE_STATE; hw := h; log := [] |}.

(* returns the pointer handed back, the session it points to when
   that is still allocated, and the calls made *)
Definition cyttsp_core_init {B} (env : init_env)
    (bus_ops : option (cyttsp_bus_ops B)) (dev : option device)
    (k : kernel_ops B) (h : B) (irq : Z)
    : Z * option (cyttsp B) * list kcall :=
  let ts := kzalloc_ts env in
  if ts =? 0 then (ts, None, [])
  else
    match dev, bus_ops with
    | Some d, Some ops =>
        let error_init calls := (ts, None, calls ++ [KFree ts]) in
        let error_input_allocate_device calls :=
          error_init (if pd_exit d then calls ++ [PlatformExit] else calls) in
        let after_init calls :=
          if irq <=? 0 then error_init calls
          else
            let input_device := input_allocate env in
            let calls := calls ++ [InputAllocateDevice] in
            if input_device =? 0 then error_input_allocate_device calls
            else
              let pd := dev_platform_data d in
              let calls :=
                calls
                ++ [ InputSetAbsParams ABS_MT_POSITION_X 0 (maxx pd);
                     InputSetAbsParams ABS_MT_POSITION_Y 0 (maxy pd);
                     InputSetAbsParams ABS_MT_TOUCH_MAJOR 0 CY_MAXZ;
                     InputMtInitSlots CY_MAX_ID;
                     InputRegisterDevice ] in
              if negb (input_register env =? 0)
              then error_input_allocate_device
                     (calls ++ [InputFreeDevice input_device])
              else (ts, Some (zeroed_session pd ops k h), calls) in
        match pd_init d with
        | Some r =>
            if negb (r =? 0) then error_init [PlatformInit]
            else after_init [PlatformInit]
        | None => after_init []
        end
    | _, _ => (ts, None, [KFree ts])
    end.

(* cyttsp_spi_probe: [spi_setup] is the return value of spi_setup,
   [kzalloc_spi] the address of the struct cyttsp_spi allocated;
   returns the value of probe and the calls made *)
Definition cyttsp_spi_probe {B} (spi_setup kzalloc_spi : Z) (env : init_env)
    (ops : cyttsp_bus_ops B) (dev : device) (k : kernel_ops B) (h : B)
    (irq : Z) : Z * list kcall :=
  if spi_setup <? 0 then (spi_setup, [])
  else if kzalloc_spi =? 0 then (- ENOMEM, [])
  else
    let '(ttsp_client, _, calls) :=
      cyttsp_core_init env (Some ops) (Some dev) k h irq in
    if IS_ERR ttsp_client
    then (PTR_ERR ttsp_client, calls ++ [KFree kzalloc_spi])
    else (0, calls).

(* the conditions under which cyttsp_core_init goes through *)
Definition init_succeeds (env : init_env) (dev : device) (irq : Z) : bool :=
  negb (kzalloc_ts env =? 0)
  && match pd_init dev with Some r => r =? 0 | None => true end
  && (0 <? irq)
  && negb (input_allocate env =? 0)
  && (input_register env =? 0).

(* an address kzalloc can return: not NULL and not in the last page,
   where error pointers live *)
Definition allocated (ptr : Z) : Prop := 0 < ptr < 2 ^ BITS_PER_LONG - MAX_ERRNO.

(* the calls of a cyttsp_core_init that goes through *)
Definition init_calls (d : device) : list kcall :=
  (match pd_init d with Some _ => [PlatformInit] | None => [] end)
  ++ [ InputAllocateDevice;
       InputSetAbsParams ABS_MT_POSITION_X 0 (maxx (dev_platform_data d));
       InputSetAbsParams ABS_MT_POSITION_Y 0 (maxy (dev_platform_data d));
       InputSetAbsParams ABS_MT_TOUCH_MAJOR 0 CY_MAXZ;
       InputMtInitSlots CY_MAX_ID;
       InputRegisterDevice ].


(** ** Further concrete inputs *)



(* the sleep command accepted, then an operational frame read back *)
Definition suspend_resume_demo : cyttsp script :=
  script_session (board_platform_data false) CY_ACTIVE_STATE
    [(0, []); (0, two_touch_frame)].

(* a wakeup callback that succeeds *)
Definition demo_wakeup (s : script) : Z * script := (0, s).

(* a session on the SPI device of demo_spi_sync *)
Definition spi_demo : cyttsp nat :=
  {| platform_data := board_platform_data false;
     bus_ops := spi_bus_ops demo_spi_sync;
     kernel := {| request_threaded_irq := fun s => (0, s);
                  wait_for_completion_timeout := fun s _ => (1, s) |};
     bl_data := repeat 0 (Z.to_nat SIZEOF_BL_DATA);
     sysinfo_data := repeat 0 (Z.to_nat SIZEOF_SYSINFO_DATA);
     power_state := CY_ACTIVE_STATE; hw := 0%nat; log := [] |}.

(* the board's device: an init callback that succeeds, no exit *)
Definition board_device : device :=
  {| dev_platform_data := board_platform_data false;
     pd_init := Some 0; pd_exit := false |}.

(* both allocations succeed, the registration of the input device
   fails *)
Definition register_fails_env : init_env :=
  {| kzalloc_ts := 0xC0100000; input_allocate := 0xC0200000;
     input_register := - ENOMEM |}.

(** * Properties *)

Lemma powerstate_eqb_spec a b : reflect (a = b) (powerstate_eqb a b).
Proof. destruct a, b; constructor; congruence. Qed.

Section Transport.
Context {B : Type}.
Implicit Types (ts : cyttsp B) (h : B).

Lemma read_retry_done fuel tries retval ts command length buf :
  0 <= retval ->
  read_retry fuel tries retval ts command length buf = (retval, buf, ts).
Proof.
  intros Hr. destruct fuel as [|f]; simpl; [reflexivity|].
  replace (retval <? 0) with false by (symmetry; apply Z.ltb_ge; lia).
  now rewrite andb_false_r.
Qed.

Lemma write_retry_done fuel tries retval ts command length buf :
  0 <= retval ->
  write_retry fuel tries retval ts command length buf = (retval, ts).
Proof.
  intros Hr. destruct fuel as [|f]; simpl; [reflexivity|].
  replace (retval <? 0) with false by (symmetry; apply Z.ltb_ge; lia).
  now rewrite andb_false_r.
Qed.

Lemma read_retry_exhausted fuel tries retval ts command length buf :
  CY_NUM_RETRY <= tries ->
  read_retry fuel tries retval ts command length buf = (retval, buf, ts).
Proof.
  intros Ht. destruct fuel as [|f]; simpl; [reflexivity|].
  replace (tries <? CY_NUM_RETRY) with false
    by (symmetry; apply Z.ltb_ge; lia).
  reflexivity.
Qed.

Lemma write_retry_exhausted fuel tries retval ts command length buf :
  CY_NUM_RETRY <= tries ->
  write_retry fuel tries retval ts command length buf = (retval, ts).
Proof.
  intros Ht. destruct fuel as [|f]; simpl; [reflexivity|].
  replace (tries <? CY_NUM_RETRY) with false
    by (symmetry; apply Z.ltb_ge; lia).
  reflexivity.
Qed.

(* CY_NUM_RETRY passes are all the loops can make: more fuel changes
   nothing *)
Lemma read_retry_fuel fuel : forall fuel' tries retval ts command length buf,
  0 <= tries ->
  (Z.to_nat (CY_NUM_RETRY - tries) <= fuel)%nat ->
  (Z.to_nat (CY_NUM_RETRY - tries) <= fuel')%nat ->
  read_retry fuel tries retval ts command length buf =
  read_retry fuel' tries retval ts command length buf.
Proof.
  induction fuel as [|f IH]; intros fuel' tries retval ts command length buf
    Ht Hf Hf'.
  - rewrite !read_retry_exhausted by (unfold CY_NUM_RETRY in *; lia).
    reflexivity.
  - destruct fuel' as [|f'].
    + rewrite !read_retry_exhausted by (unfold CY_NUM_RETRY in *; lia).
      reflexivity.
    + simpl. destruct ((tries <? CY_NUM_RETRY) && (retval <? 0));
        [|reflexivity].
      destruct (read (bus_ops ts) (hw ts) command length) as [[r data] h'].
      apply IH; unfold CY_NUM_RETRY in *; lia.
Qed.

Lemma write_retry_fuel fuel : forall fuel' tries retval ts command length buf,
  0 <= tries ->
  (Z.to_nat (CY_NUM_RETRY - tries) <= fuel)%nat ->
  (Z.to_nat (CY_NUM_RETRY - tries) <= fuel')%nat ->
  write_retry fuel tries retval ts command length buf =
  write_retry fuel' tries retval ts command length buf.
Proof.
  induction fuel as [|f IH]; intros fuel' tries retval ts command length buf
    Ht Hf Hf'.
  - rewrite !write_retry_exhausted by (unfold CY_NUM_RETRY in *; lia).
    reflexivity.
  - destruct fuel' as [|f'].
    + rewrite !write_retry_exhausted by (unfold CY_NUM_RETRY in *; lia).
      reflexivity.
    + simpl. destruct ((tries <? CY_NUM_RETRY) && (retval <? 0));
        [|reflexivity].
      destruct (write (bus_ops ts) (hw ts) command length buf) as [r h'].
      apply IH; unfold CY_NUM_RETRY in *; lia.
Qed.

(* k failures and then a success, seen from inside the loop *)
Lemma read_retry_recovers k : forall fuel tries retval ts command length buf,
  retval < 0 -> tries + Z.of_nat k < CY_NUM_RETRY -> (k < fuel)%nat ->
  (forall i, (i < k)%nat ->
     nth_rc (bus_xfer XRead (bus_ops ts) command length buf) (hw ts) i < 0) ->
  nth_rc (bus_xfer XRead (bus_ops ts) command length buf) (hw ts) k = 0 ->
  let '(r, _, ts') := read_retry fuel tries retval ts command length buf in
  r = 0 /\
  log ts' = log ts ++ failed_attempts (EvBusRead command length) k
                   ++ [EvBusRead command length].
Proof.
  induction k as [|k IH]; intros fuel tries retval ts command length buf
    Hneg Htries Hfuel Hfail Hok;
    (destruct fuel as [|f]; [lia|]); simpl.
  - replace (tries <? CY_NUM_RETRY) with true by (symmetry; apply Z.ltb_lt; lia).
    replace (retval <? 0) with true by (symmetry; apply Z.ltb_lt; lia).
    simpl in Hok |- *.
    destruct (read (bus_ops ts) (hw ts) command length) as [[r data] h'].
    simpl in Hok. subst r. simpl.
    rewrite read_retry_done by lia. auto.
  - replace (tries <? CY_NUM_RETRY) with true by (symmetry; apply Z.ltb_lt; lia).
    replace (retval <? 0) with true by (symmetry; apply Z.ltb_lt; lia).
    simpl.
    pose proof (Hfail 0%nat ltac:(lia)) as H0.
    assert (Hfail' : forall i, (i < k)%nat ->
              nth_rc (bus_xfer XRead (bus_ops ts) command length buf)
                     (hw ts) (S i) < 0) by (intros i Hi; apply Hfail; lia).
    simpl in H0, Hfail', Hok.
    destruct (read (bus_ops ts) (hw ts) command length) as [[r data] h'].
    simpl in H0, Hfail', Hok.
    replace (r =? 0) with false by (symmetry; apply Z.eqb_neq; lia).
    specialize (IH f (tries + 1) r
      (msleep (set_hw (emit ts (EvBusRead command length)) h') CY_DELAY_DFLT)
      command length (store_bytes buf data)).
    simpl in IH.
    specialize (IH H0 ltac:(lia) ltac:(lia) Hfail' Hok).
    destruct (read_retry _ _ _ _ _ _ _) as [[r' b'] ts'].
    destruct IH as [-> ->]. split; [reflexivity|].
    unfold failed_attempts. simpl. now rewrite <- !app_assoc.
Qed.

Lemma write_retry_recovers k : forall fuel tries retval ts command length buf,
  retval < 0 -> tries + Z.of_nat k < CY_NUM_RETRY -> (k < fuel)%nat ->
  (forall i, (i < k)%nat ->
     nth_rc (bus_xfer XWrite (bus_ops ts) command length buf) (hw ts) i < 0) ->
  nth_rc (bus_xfer XWrite (bus_ops ts) command length buf) (hw ts) k = 0 ->
  let '(r, ts') := write_retry fuel tries retval ts command length buf in
  r = 0 /\
  log ts' = log ts ++ failed_attempts (EvBusWrite command length buf) k
                   ++ [EvBusWrite command length buf].
Proof.
  induction k as [|k IH]; intros fuel tries retval ts command length buf
    Hneg Htries Hfuel Hfail Hok;
    (destruct fuel as [|f]; [lia|]); simpl.
  - replace (tries <? CY_NUM_RETRY) with true by (symmetry; apply Z.ltb_lt; lia).
    replace (retval <? 0) with true by (symmetry; apply Z.ltb_lt; lia).
    simpl in Hok |- *.
    destruct (write (bus_ops ts) (hw ts) command length buf) as [r h'].
    simpl in Hok. subst r. simpl.
    rewrite write_retry_done by lia. auto.
  - replace (tries <? CY_NUM_RETRY) with true by (symmetry; apply Z.ltb_lt; lia).
    replace (retval <? 0) with true by (symmetry; apply Z.ltb_lt; lia).
    simpl.
    pose proof (Hfail 0%nat ltac:(lia)) as H0.
    assert (Hfail' : forall i, (i < k)%nat ->
              nth_rc (bus_xfer XWrite (bus_ops ts) command length buf)
                     (hw ts) (S i) < 0) by (intros i Hi; apply Hfail; lia).
    simpl in H0, Hfail', Hok.
    destruct (write (bus_ops ts) (hw ts) command length buf) as [r h'].
    simpl in H0, Hfail', Hok.
    replace (r =? 0) with false by (symmetry; apply Z.eqb_neq; lia).
    specialize (IH f (tries + 1) r
      (msleep (set_hw (emit ts (EvBusWrite command length buf)) h')
              CY_DELAY_DFLT)
      command length buf).
    simpl in IH.
    specialize (IH H0 ltac:(lia) ltac:(lia) Hfail' Hok).
    destruct (write_retry _ _ _ _ _ _ _) as [r' ts'].
    destruct IH as [-> ->]. split; [reflexivity|].
    unfold failed_attempts. simpl. now rewrite <- !app_assoc.
Qed.

(* n failures in a row use up what is left of the retry budget *)
Lemma read_retry_gives_up n : forall fuel tries retval ts command length buf,
  retval < 0 -> tries + Z.of_nat n = CY_NUM_RETRY -> (n <= fuel)%nat ->
  (forall i, (i < n)%nat ->
     nth_rc (bus_xfer XRead (bus_ops ts) command length buf) (hw ts) i < 0) ->
  let '(r, _, ts') := read_retry fuel tries retval ts command length buf in
  r < 0 /\
  (forall m, n = S m ->
     r = nth_rc (bus_xfer XRead (bus_ops ts) command length buf) (hw ts) m) /\
  log ts' = log ts ++ failed_attempts (EvBusRead command length) n.
Proof.
  induction n as [|n IH]; intros fuel tries retval ts command length buf
    Hneg Htries Hfuel Hfail.
  - rewrite read_retry_exhausted by lia. simpl.
    rewrite app_nil_r. repeat split; auto. intros m Hm; discriminate.
  - destruct fuel as [|f]; [lia|]. simpl.
    replace (tries <? CY_NUM_RETRY) with true by (symmetry; apply Z.ltb_lt; lia).
    replace (retval <? 0) with true by (symmetry; apply Z.ltb_lt; lia).
    simpl.
    pose proof (Hfail 0%nat ltac:(lia)) as H0.
    assert (Hfail' : forall i, (i < n)%nat ->
              nth_rc (bus_xfer XRead (bus_ops ts) command length buf)
                     (hw ts) (S i) < 0) by (intros i Hi; apply Hfail; lia).
    simpl in H0, Hfail'.
    destruct (read (bus_ops ts) (hw ts) command length)
      as [[r data] h'] eqn:E.
    simpl in H0, Hfail'.
    replace (r =? 0) with false by (symmetry; apply Z.eqb_neq; lia).
    specialize (IH f (tries + 1) r
      (msleep (set_hw (emit ts (EvBusRead command length)) h') CY_DELAY_DFLT)
      command length (store_bytes buf data)).
    simpl in IH.
    specialize (IH H0 ltac:(lia) ltac:(lia) Hfail').
    destruct n as [|n'].
    + rewrite read_retry_exhausted in * by lia. simpl in *.
      repeat split; auto.
      * intros m Hm. injection Hm as <-. simpl. now rewrite E.
      * now rewrite <- app_assoc.
    + destruct (read_retry _ _ _ _ _ _ _) as [[r' b'] ts'].
      destruct IH as (Hr' & Hlast & ->). repeat split; auto.
      * intros m Hm. injection Hm as <-. simpl. rewrite E. now apply Hlast.
      * unfold failed_attempts. simpl. now rewrite <- !app_assoc.
Qed.

Lemma write_retry_gives_up n : forall fuel tries retval ts command length buf,
  retval < 0 -> tries + Z.of_nat n = CY_NUM_RETRY -> (n <= fuel)%nat ->
  (forall i, (i < n)%nat ->
     nth_rc (bus_xfer XWrite (bus_ops ts) command length buf) (hw ts) i < 0) ->
  let '(r, ts') := write_retry fuel tries retval ts command length buf in
  r < 0 /\
  (forall m, n = S m ->
     r = nth_rc (bus_xfer XWrite (bus_ops ts) command length buf) (hw ts) m) /\
  log ts' = log ts ++ failed_attempts (EvBusWrite command length buf) n.
Proof.
  induction n as [|n IH]; intros fuel tries retval ts command length buf
    Hneg Htries Hfuel Hfail.
  - rewrite write_retry_exhausted by lia. simpl.
    rewrite app_nil_r. repeat split; auto. intros m Hm; discriminate.
  - destruct fuel as [|f]; [lia|]. simpl.
    replace (tries <? CY_NUM_RETRY) with true by (symmetry; apply Z.ltb_lt; lia).
    replace (retval <? 0) with true by (symmetry; apply Z.ltb_lt; lia).
    simpl.
    pose proof (Hfail 0%nat ltac:(lia)) as H0.
    assert (Hfail' : forall i, (i < n)%nat ->
              nth_rc (bus_xfer XWrite (bus_ops ts) command length buf)
                     (hw ts) (S i) < 0) by (intros i Hi; apply Hfail; lia).
    simpl in H0, Hfail'.
    destruct (write (bus_ops ts) (hw ts) command length buf)
      as [r h'] eqn:E.
    simpl in H0, Hfail'.
    replace (r =? 0) with false by (symmetry; apply Z.eqb_neq; lia).
    specialize (IH f (tries + 1) r
      (msleep (set_hw (emit ts (EvBusWrite command length buf)) h')
              CY_DELAY_DFLT)
      command length buf).
    simpl in IH.
    specialize (IH H0 ltac:(lia) ltac:(lia) Hfail').
    destruct n as [|n'].
    + rewrite write_retry_exhausted in * by lia. simpl in *.
      repeat split; auto.
      * intros m Hm. injection Hm as <-. simpl. now rewrite E.
      * now rewrite <- app_assoc.
    + destruct (write_retry _ _ _ _ _ _ _) as [r' ts'].
      destruct IH as (Hr' & Hlast & ->). repeat split; auto.
      * intros m Hm. injection Hm as <-. simpl. rewrite E. now apply Hlast.
      * unfold failed_attempts. simpl. now rewrite <- !app_assoc.
Qed.

Lemma count_app p (l1 l2 : list event) :
  count p (l1 ++ l2) = (count p l1 + count p l2)%nat.
Proof. unfold count. now rewrite filter_app, length_app. Qed.

Lemma count_failed_attempts kind command len buf k :
  count is_bus_call (failed_attempts (bus_event kind command len buf) k) = k /\
  count is_sleep (failed_attempts (bus_event kind command len buf) k) = k.
Proof.
  induction k as [|k [IH1 IH2]]; [split; reflexivity|].
  change (failed_attempts (bus_event kind command len buf) (S k))
    with ([bus_event kind command len buf; EvSleep CY_DELAY_DFLT]
          ++ failed_attempts (bus_event kind command len buf) k).
  rewrite !count_app, IH1, IH2. destruct kind; split; reflexivity.
Qed.

(** C5. A block read or write with a non-null buffer and a nonzero
    length, on a bus whose first k transfers fail (negative return)
    and whose next one succeeds (returns 0), k < 4, returns 0 after
    exactly k+1 bus calls separated by k delays of CY_DELAY_DFLT ms;
    on a bus whose first 4 transfers fail it returns the error of the
    fourth after exactly 4 bus calls. *)
Theorem ttsp_block_data_retry kind ts command len buf k :
  len <> 0 ->
  (forall i, (i < Nat.min k 4)%nat ->
     nth_rc (bus_xfer kind (bus_ops ts) command len buf) (hw ts) i < 0) ->
  ((k < 4)%nat ->
     nth_rc (bus_xfer kind (bus_ops ts) command len buf) (hw ts) k = 0) ->
  let e := bus_event kind command len buf in
  let '(r, ts') := ttsp_block_data kind ts command len buf in
  exists l, log ts' = log ts ++ l /\
    if (k <? 4)%nat then
      r = 0 /\ l = failed_attempts e k ++ [e] /\
      count is_bus_call l = S k /\ count is_sleep l = k
    else
      r < 0 /\
      r = nth_rc (bus_xfer kind (bus_ops ts) command len buf) (hw ts) 3 /\
      l = failed_attempts e 4 /\ count is_bus_call l = 4%nat.
Proof.
  intros Hlen Hfail Hok e. subst e.
  destruct (Nat.ltb_spec k 4) as [Hk|Hk].
  - specialize (Hok Hk). rewrite Nat.min_l in Hfail by lia.
    assert (Hcnt : forall l0, l0 = failed_attempts
                     (bus_event kind command len buf) k
                     ++ [bus_event kind command len buf] ->
              count is_bus_call l0 = S k /\ count is_sleep l0 = k).
    { intros l0 ->. rewrite !count_app.
      destruct (count_failed_attempts kind command len buf k) as [-> ->].
      destruct kind; simpl; split; unfold count; simpl; lia. }
    destruct kind; unfold ttsp_block_data, ttsp_read_block_data,
      ttsp_write_block_data.
    + replace (len =? 0) with false by (symmetry; apply Z.eqb_neq; lia).
      pose proof (read_retry_recovers k (Z.to_nat CY_NUM_RETRY) 0 (-1) ts
                    command len buf ltac:(lia)) as R.
      unfold CY_NUM_RETRY in R at 1 2.
      specialize (R ltac:(lia) ltac:(simpl; lia) Hfail Hok).
      destruct (read_retry _ _ _ _ _ _ _) as [[r b'] ts'].
      destruct R as [-> ->]. eexists; split; [reflexivity|].
      split; [reflexivity|]. split; [reflexivity|]. now apply Hcnt.
    + replace (len =? 0) with false by (symmetry; apply Z.eqb_neq; lia).
      pose proof (write_retry_recovers k (Z.to_nat CY_NUM_RETRY) 0 (-1) ts
                    command len buf ltac:(lia)) as R.
      unfold CY_NUM_RETRY in R at 1 2.
      specialize (R ltac:(lia) ltac:(simpl; lia) Hfail Hok).
      destruct (write_retry _ _ _ _ _ _ _) as [r ts'].
      destruct R as [-> ->]. eexists; split; [reflexivity|].
      split; [reflexivity|]. split; [reflexivity|]. now apply Hcnt.
  - rewrite Nat.min_r in Hfail by lia.
    destruct kind; unfold ttsp_block_data, ttsp_read_block_data,
      ttsp_write_block_data.
    + replace (len =? 0) with false by (symmetry; apply Z.eqb_neq; lia).
      pose proof (read_retry_gives_up 4 (Z.to_nat CY_NUM_RETRY) 0 (-1) ts
                    command len buf ltac:(lia) eq_refl ltac:(simpl; lia)
                    Hfail) as R.
      destruct (read_retry _ _ _ _ _ _ _) as [[r b'] ts'].
      destruct R as (Hr & Hlast & ->). eexists; split; [reflexivity|].
      repeat split; auto.
    + replace (len =? 0) with false by (symmetry; apply Z.eqb_neq; lia).
      pose proof (write_retry_gives_up 4 (Z.to_nat CY_NUM_RETRY) 0 (-1) ts
                    command len buf ltac:(lia) eq_refl ltac:(simpl; lia)
                    Hfail) as R.
      destruct (write_retry _ _ _ _ _ _ _) as [r ts'].
      destruct R as (Hr & Hlast & ->). eexists; split; [reflexivity|].
      repeat split; auto.
Qed.

End Transport.

Section Effects.
Context {B : Type}.
Implicit Types (ts : cyttsp B) (h : B).

Lemma read_only_step_refl ts : read_only_step ts ts.
Proof.
  unfold read_only_step. repeat split; auto.
  exists []. now rewrite app_nil_r.
Qed.

Lemma read_retry_effects fuel : forall tries retval ts command length buf,
  read_only_step ts (snd (read_retry fuel tries retval ts command length buf)).
Proof.
  induction fuel as [|f IH]; intros; simpl; [apply read_only_step_refl|].
  destruct ((tries <? CY_NUM_RETRY) && (retval <? 0));
    [|apply read_only_step_refl].
  destruct (read (bus_ops ts) (hw ts) command length) as [[r data] h'].
  match goal with |- read_only_step _ (snd (read_retry f ?t ?r0 ?s ?c ?l ?b)) =>
    specialize (IH t r0 s c l b);
    destruct (read_retry f t r0 s c l b) as [[r' b'] ts'] end.
  simpl in *. unfold read_only_step in *.
  destruct IH as (H1 & H2 & H3 & H4 & H5 & H6 & l & Hl & Hall).
  destruct (r =? 0); simpl in *; repeat split; try congruence.
  - exists (EvBusRead command length :: l). split.
    + rewrite Hl. now rewrite <- app_assoc.
    + assumption.
  - exists (EvBusRead command length :: EvSleep CY_DELAY_DFLT :: l). split.
    + rewrite Hl. now rewrite <- !app_assoc.
    + assumption.
Qed.

Lemma ttsp_read_block_data_effects ts command length buf :
  read_only_step ts (snd (ttsp_read_block_data ts command length buf)).
Proof.
  unfold ttsp_read_block_data. destruct buf as [b|];
    [|apply read_only_step_refl].
  destruct (length =? 0); [apply read_only_step_refl|].
  apply read_retry_effects.
Qed.

Lemma write_step_refl ts command length buf hi :
  write_step 0 hi ts ts command length buf.
Proof.
  unfold write_step. repeat split; auto.
  exists [], 0%nat. rewrite app_nil_r. repeat split; auto; lia.
Qed.

Lemma write_retry_effects fuel : forall tries retval ts command length buf,
  write_step 0 fuel ts
             (snd (write_retry fuel tries retval ts command length buf))
             command length buf.
Proof.
  induction fuel as [|f IH]; intros tries retval ts command length buf;
    simpl; [apply write_step_refl|].
  destruct ((tries <? CY_NUM_RETRY) && (retval <? 0));
    [|apply write_step_refl].
  destruct (write (bus_ops ts) (hw ts) command length buf) as [r h'].
  match goal with
  | |- write_step _ _ _ (snd (write_retry f ?t ?r0 ?s ?c ?l ?b)) _ _ _ =>
    specialize (IH t r0 s c l b);
    destruct (write_retry f t r0 s c l b) as [r' ts'] end.
  simpl in *. unfold write_step in *.
  destruct IH as (H1 & H2 & H3 & H4 & H5 & H6 & l & n & Hl & Hn & Hw & Hin).
  destruct (r =? 0); simpl in *; repeat split; try congruence.
  - exists (EvBusWrite command length buf :: l), (S n). repeat split.
    + rewrite Hl. now rewrite <- app_assoc.
    + lia.
    + lia.
    + simpl. now rewrite Hw.
    + assumption.
  - exists (EvBusWrite command length buf :: EvSleep CY_DELAY_DFLT :: l), (S n).
    repeat split.
    + rewrite Hl. now rewrite <- !app_assoc.
    + lia.
    + lia.
    + simpl. now rewrite Hw.
    + assumption.
Qed.

Lemma write_retry_S f tries retval ts command length buf :
  write_retry (S f) tries retval ts command length buf =
  if (tries <? CY_NUM_RETRY) && (retval <? 0) then
    let '(r, h) := write (bus_ops ts) (hw ts) command length buf in
    let ts1 := set_hw (emit ts (EvBusWrite command length buf)) h in
    let ts2 := if r =? 0 then ts1 else msleep ts1 CY_DELAY_DFLT in
    write_retry f (tries + 1) r ts2 command length buf
  else (retval, ts).
Proof. reflexivity. Qed.

(* a write with a buffer and a nonzero length reaches the bus at least
   once and at most CY_NUM_RETRY times *)
Lemma ttsp_write_block_data_effects ts command length buf :
  length <> 0 ->
  write_step 1 4 ts (snd (ttsp_write_block_data ts command length (Some buf)))
             command length buf.
Proof.
  intros Hlen. unfold ttsp_write_block_data.
  replace (length =? 0) with false by (symmetry; apply Z.eqb_neq; lia).
  change (Z.to_nat CY_NUM_RETRY) with 4%nat.
  rewrite write_retry_S.
  change ((0 <? CY_NUM_RETRY) && (-1 <? 0)) with true. cbv iota.
  destruct (write (bus_ops ts) (hw ts) command length buf) as [r h'].
  cbv zeta.
  match goal with
  | |- write_step _ _ _ (snd (write_retry ?f ?t ?r0 ?s ?c ?l ?b)) _ _ _ =>
    pose proof (write_retry_effects f t r0 s c l b) as IH;
    destruct (write_retry f t r0 s c l b) as [r' ts'] end.
  simpl in *. unfold write_step in *.
  destruct IH as (H1 & H2 & H3 & H4 & H5 & H6 & l & n & Hl & Hn & Hw & Hin).
  destruct (r =? 0); simpl in *; repeat split; try congruence.
  - exists (EvBusWrite command length buf :: l), (S n). repeat split.
    + rewrite Hl. now rewrite <- app_assoc.
    + lia.
    + lia.
    + simpl. now rewrite Hw.
    + assumption.
  - exists (EvBusWrite command length buf :: EvSleep CY_DELAY_DFLT :: l), (S n).
    repeat split.
    + rewrite Hl. now rewrite <- !app_assoc.
    + lia.
    + lia.
    + simpl. now rewrite Hw.
    + assumption.
Qed.

Lemma write_step_io lo hi ts ts' command length buf :
  write_step lo hi ts ts' command length buf -> io_step ts ts'.
Proof.
  intros (H1 & H2 & H3 & H4 & H5 & H6 & l & n & Hl & Hn & Hw & Hin).
  unfold io_step. repeat split; auto. now exists l.
Qed.

Lemma forallb_read_or_sleep_no_input l :
  forallb is_read_or_sleep l = true -> filter is_input l = [].
Proof.
  induction l as [|e l IH]; simpl; [reflexivity|].
  intros H. apply andb_true_iff in H as [He Hl].
  destruct e; simpl in *; try discriminate; auto.
Qed.

Lemma read_only_step_io ts ts' : read_only_step ts ts' -> io_step ts ts'.
Proof.
  intros (H1 & H2 & H3 & H4 & H5 & H6 & l & Hl & Hall).
  unfold io_step. repeat split; auto. exists l. split; auto.
  now apply forallb_read_or_sleep_no_input.
Qed.

Lemma io_step_refl ts : io_step ts ts.
Proof.
  unfold io_step. repeat split; auto. exists []. now rewrite app_nil_r.
Qed.

Lemma io_step_trans ts1 ts2 ts3 :
  io_step ts1 ts2 -> io_step ts2 ts3 -> io_step ts1 ts3.
Proof.
  intros (A1 & A2 & A3 & A4 & l & Hl & Hi) (B1 & B2 & B3 & B4 & l' & Hl' & Hi').
  unfold io_step. repeat split; try congruence.
  exists (l ++ l'). split.
  - rewrite Hl', Hl. now rewrite app_assoc.
  - now rewrite filter_app, Hi, Hi'.
Qed.

Lemma io_step_set_bl_data ts b : io_step ts (set_bl_data ts b).
Proof.
  unfold io_step. simpl. repeat split; auto. exists []. now rewrite app_nil_r.
Qed.

Lemma io_step_set_sysinfo_data ts b : io_step ts (set_sysinfo_data ts b).
Proof.
  unfold io_step. simpl. repeat split; auto. exists []. now rewrite app_nil_r.
Qed.

Lemma io_step_set_hw ts h : io_step ts (set_hw ts h).
Proof.
  unfold io_step. simpl. repeat split; auto. exists []. now rewrite app_nil_r.
Qed.

Lemma io_step_msleep ts ms : io_step ts (msleep ts ms).
Proof.
  unfold io_step. simpl. repeat split; auto. now exists [EvSleep ms].
Qed.

End Effects.

Section Bits.

Lemma land_pow2 x n :
  0 <= n -> Z.land x (2 ^ n) = if Z.testbit x n then 2 ^ n else 0.
Proof.
  intros Hn. apply Z.bits_inj'. intros m Hm.
  rewrite Z.land_spec, Z.pow2_bits_eqb by assumption.
  destruct (Z.eqb_spec n m) as [->|Hne].
  - rewrite andb_true_r. destruct (Z.testbit x m) eqn:E.
    + rewrite Z.pow2_bits_eqb by assumption. now rewrite Z.eqb_refl.
    + now rewrite Z.bits_0.
  - rewrite andb_false_r. destruct (Z.testbit x n).
    + rewrite Z.pow2_bits_eqb by assumption.
      symmetry. now apply Z.eqb_neq.
    + now rewrite Z.bits_0.
Qed.

Lemma GET_BOOTLOADERMODE_bit x :
  GET_BOOTLOADERMODE x = Z.b2z (Z.testbit x 4).
Proof.
  unfold GET_BOOTLOADERMODE. change 0x10 with (2 ^ 4).
  rewrite land_pow2 by lia. now destruct (Z.testbit x 4).
Qed.

Lemma IS_LARGE_AREA_bit x : IS_LARGE_AREA x = Z.b2z (Z.testbit x 4).
Proof. apply GET_BOOTLOADERMODE_bit. Qed.

Lemma IS_VALID_APP_bit x : IS_VALID_APP x = Z.b2z (Z.testbit x 0).
Proof.
  unfold IS_VALID_APP. change 0x01 with (2 ^ 0).
  rewrite land_pow2 by lia. now destruct (Z.testbit x 0).
Qed.

Lemma IS_BAD_PKT_bit x : IS_BAD_PKT x = if Z.testbit x 5 then 0x20 else 0.
Proof.
  unfold IS_BAD_PKT. change 0x20 with (2 ^ 5). now rewrite land_pow2 by lia.
Qed.

End Bits.

Section ModeController.
Context {B : Type}.
Implicit Types (ts : cyttsp B) (h : B).

Lemma io_step_read ts command length buf :
  io_step ts (snd (ttsp_read_block_data ts command length buf)).
Proof. apply read_only_step_io, ttsp_read_block_data_effects. Qed.

Lemma io_step_write ts command length buf :
  length <> 0 ->
  io_step ts (snd (ttsp_write_block_data ts command length (Some buf))).
Proof.
  intros H. eapply write_step_io. now apply ttsp_write_block_data_effects.
Qed.

Lemma io_step_load_bl_regs ts : io_step ts (snd (cyttsp_load_bl_regs ts)).
Proof.
  unfold cyttsp_load_bl_regs.
  match goal with |- context [ttsp_read_block_data ?s ?c ?l ?b] =>
    pose proof (io_step_read s c l b) as H;
    destruct (ttsp_read_block_data s c l b) as [[r b'] ts3] end.
  simpl in *.
  eapply io_step_trans; [|apply io_step_set_bl_data].
  eapply io_step_trans; [|exact H].
  eapply io_step_trans; apply io_step_set_bl_data.
Qed.

(* [session] picks the session out of the state a loop works on *)
Lemma io_step_poll_loop {St : Type} (session : St -> cyttsp B)
    (body : St -> bool * Z * St) :
  (forall st, io_step (session st) (session (snd (body st)))) ->
  forall fuel tries st,
    io_step (session st) (session (snd (poll_loop fuel body tries st))).
Proof.
  intros Hbody. induction fuel as [|f IH]; intros tries st; simpl;
    [apply io_step_refl|].
  specialize (Hbody st). destruct (body st) as [[again retval] st1].
  simpl in Hbody. destruct again; [|exact Hbody].
  destruct (tries <? CY_DELAY_MAX); [|exact Hbody].
  eapply io_step_trans; [exact Hbody|apply IH].
Qed.

(* the loop never runs out of fuel: POLL_FUEL passes are enough for
   every starting value of tries within the budget *)
Lemma poll_loop_budget {St : Type} (body : St -> bool * Z * St) n :
  forall fuel tries st,
  tries + Z.of_nat n = CY_DELAY_MAX -> (n < fuel)%nat ->
  let '(retval, tries', st') := poll_loop fuel body tries st in
  match settles n body st with
  | Some (rv, stf) => retval = rv /\ st' = stf /\ tries' < CY_DELAY_MAX
  | None => CY_DELAY_MAX <= tries'
  end.
Proof.
  induction n as [|n IH]; intros fuel tries st Ht Hf;
    (destruct fuel as [|f]; [lia|]); simpl.
  - destruct (body st) as [[again retval] st1].
    replace (tries <? CY_DELAY_MAX) with false
      by (symmetry; apply Z.ltb_ge; lia).
    destruct again; lia.
  - destruct (body st) as [[again retval] st1].
    replace (tries <? CY_DELAY_MAX) with true
      by (symmetry; apply Z.ltb_lt; lia).
    destruct again.
    + apply IH; lia.
    + repeat split; lia.
Qed.

Lemma poll_loop_fuel_irrelevant {St : Type} (body : St -> bool * Z * St) :
  forall fuel fuel' tries st,
  0 <= tries ->
  (Z.to_nat (CY_DELAY_MAX - tries) < fuel)%nat ->
  (Z.to_nat (CY_DELAY_MAX - tries) < fuel')%nat ->
  poll_loop fuel body tries st = poll_loop fuel' body tries st.
Proof.
  induction fuel as [|f IH]; intros fuel' tries st Ht Hf Hf'; [lia|].
  destruct fuel' as [|f']; [lia|]. simpl.
  destruct (body st) as [[again retval] st1].
  destruct again; [|reflexivity].
  destruct (Z.ltb_spec tries CY_DELAY_MAX) as [Hlt|Hge]; [|reflexivity].
  apply IH; lia.
Qed.

Lemma exit_bl_poll_reread ts :
  exit_bl_poll ts =
  (negb (shows_bl_cleared ts), fst (bl_reread ts), snd (bl_reread ts)).
Proof.
  unfold exit_bl_poll, shows_bl_cleared, bl_reread.
  destruct (cyttsp_load_bl_regs (msleep ts CY_DELAY_DFLT)) as [r ts2].
  cbn [fst snd]. rewrite GET_BOOTLOADERMODE_bit.
  destruct (r =? 0), (Z.testbit (bl_status (bl_data ts2)) 4); reflexivity.
Qed.

Lemma settles_exit_bl_poll n : forall ts,
  match settles n exit_bl_poll ts with
  | Some (rv, _) => rv = 0 /\ bl_cleared_within n ts = true
  | None => bl_cleared_within n ts = false
  end.
Proof.
  induction n as [|n IH]; intros ts; cbn [settles bl_cleared_within];
    [reflexivity|].
  rewrite exit_bl_poll_reread.
  destruct (shows_bl_cleared ts) eqn:E; cbn [negb orb].
  - split; [|reflexivity].
    unfold shows_bl_cleared in E. apply andb_true_iff in E as [E _].
    now apply Z.eqb_eq.
  - apply IH.
Qed.

(** C7. Once the exit-bootloader command has been written, the call
    returns 0 exactly when one of the first 25 polls (each a 20 ms
    delay followed by a re-read of the bootloader status block) reads
    the block and finds the bootloader-mode bit clear; otherwise the
    budget is exhausted and it returns -ENODEV. *)
Theorem cyttsp_exit_bl_mode_poll_budget ts :
  let '(w, ts1) :=
    ttsp_write_block_data ts CY_REG_BASE (Z.of_nat SIZEOF_BL_COMMAND)
      (Some (buf_bytes (build_bl_cmd (platform_data ts)))) in
  0 <= w ->
  (fst (cyttsp_exit_bl_mode ts) = 0 <->
   bl_cleared_within (Z.to_nat CY_DELAY_MAX) ts1 = true) /\
  (bl_cleared_within (Z.to_nat CY_DELAY_MAX) ts1 = false ->
   fst (cyttsp_exit_bl_mode ts) = - ENODEV).
Proof.
  unfold cyttsp_exit_bl_mode.
  destruct (ttsp_write_block_data _ _ _ _) as [w ts1].
  intros Hw.
  replace (w <? 0) with false by (symmetry; apply Z.ltb_ge; lia).
  pose proof (poll_loop_budget exit_bl_poll (Z.to_nat CY_DELAY_MAX)
                POLL_FUEL 0 ts1 eq_refl ltac:(unfold POLL_FUEL; lia)) as P.
  pose proof (settles_exit_bl_poll (Z.to_nat CY_DELAY_MAX) ts1) as S.
  destruct (poll_loop POLL_FUEL exit_bl_poll 0 ts1) as [[retval tries] ts2].
  destruct (settles (Z.to_nat CY_DELAY_MAX) exit_bl_poll ts1)
    as [[rv tsf]|].
  - destruct P as (-> & -> & Ht). destruct S as [-> S].
    replace (tries >=? CY_DELAY_MAX) with false
      by (rewrite Z.geb_leb; symmetry; apply Z.leb_gt; lia).
    cbn [fst]. rewrite S. split; [tauto|discriminate].
  - replace (tries >=? CY_DELAY_MAX) with true
      by (rewrite Z.geb_leb; symmetry; apply Z.leb_le; lia).
    cbn [fst]. rewrite S. split; [|reflexivity].
    unfold ENODEV. split; intros; discriminate.
Qed.

(** C2. After a status read that did not fail, the validity check
    takes the branch fixed by the status bytes: bootloader-mode bit
    (bit 4 of bl_status) and app-valid bit (bit 0) both set: result 0,
    attach goes on to exit-bootloader; bootloader-mode bit set and
    app-valid bit clear: -ENODEV; bootloader-mode bit clear, host-mode
    nibble of bl_file operational and no operational-error bits:
    result 1, attach skips exit-bootloader and goes straight to the
    system-information configuration; anything else: -ENODEV. *)
Theorem cyttsp_bl_app_valid_decision ts :
  let '(r, ts1) := cyttsp_load_bl_regs ts in
  0 <= r ->
  let status := bl_status (bl_data ts1) in
  let file := bl_file (bl_data ts1) in
  if Z.testbit status 4 then
    if Z.testbit status 0 then
      cyttsp_bl_app_valid ts = (0, ts1) /\
      power_on_bl_app_valid ts = power_on_exit_bl ts1
    else
      cyttsp_bl_app_valid ts = (- ENODEV, ts1) /\
      power_on_bl_app_valid ts = (- ENODEV, cyttsp_pr_state ts1)
  else if (GET_HSTMODE file =? CY_OPERATE_MODE)
          && (IS_OPERATIONAL_ERR status =? 0) then
    cyttsp_bl_app_valid ts = (1, ts1) /\
    power_on_bl_app_valid ts = power_on_no_bl_bypass ts1
  else
    cyttsp_bl_app_valid ts = (- ENODEV, ts1) /\
    power_on_bl_app_valid ts = (- ENODEV, cyttsp_pr_state ts1).
Proof.
  unfold power_on_bl_app_valid, cyttsp_bl_app_valid.
  destruct (cyttsp_load_bl_regs ts) as [r ts1]. intros Hr.
  replace (r <? 0) with false by (symmetry; apply Z.ltb_ge; lia).
  cbv zeta. rewrite GET_BOOTLOADERMODE_bit, IS_VALID_APP_bit.
  destruct (Z.testbit (bl_status (bl_data ts1)) 4); cbn [Z.b2z Z.eqb negb].
  - destruct (Z.testbit (bl_status (bl_data ts1)) 0); cbn [Z.b2z Z.eqb negb];
      split; reflexivity.
  - destruct (GET_HSTMODE (bl_file (bl_data ts1)) =? CY_OPERATE_MODE);
      cbn [andb]; [|split; reflexivity].
    destruct (IS_OPERATIONAL_ERR (bl_status (bl_data ts1)) =? 0);
      split; reflexivity.
Qed.

End ModeController.

Section Steps.
Context {B : Type}.
Implicit Types (ts : cyttsp B) (h : B).

Lemma io_step_exit_bl_poll ts : io_step ts (snd (exit_bl_poll ts)).
Proof.
  unfold exit_bl_poll.
  pose proof (io_step_load_bl_regs (msleep ts CY_DELAY_DFLT)) as H.
  destruct (cyttsp_load_bl_regs (msleep ts CY_DELAY_DFLT)) as [r ts2].
  cbn [snd] in *. eapply io_step_trans; [apply io_step_msleep|exact H].
Qed.

Lemma io_step_operational_poll (st : list Z * cyttsp B) :
  io_step (snd st) (snd (snd (operational_poll st))).
Proof.
  unfold operational_poll. destruct st as [xy ts]. cbn [snd].
  match goal with |- context [ttsp_read_block_data ?s ?c ?l ?b] =>
    pose proof (io_step_read s c l b) as H;
    destruct (ttsp_read_block_data s c l b) as [[r b'] ts1] end.
  exact H.
Qed.

Lemma io_step_sysinfo_poll ts : io_step ts (snd (sysinfo_poll ts)).
Proof.
  unfold sysinfo_poll.
  match goal with |- context [ttsp_read_block_data ?s ?c ?l ?b] =>
    pose proof (io_step_read s c l b) as H;
    destruct (ttsp_read_block_data s c l b) as [[r b'] ts2] end.
  cbn [snd] in *.
  eapply io_step_trans; [apply io_step_msleep|].
  eapply io_step_trans; [exact H|apply io_step_set_sysinfo_data].
Qed.

(* a command write followed by one of the wait loops *)
Lemma io_step_write_then_poll ts command len buf
    (body : cyttsp B -> bool * Z * cyttsp B) (err : Z) :
  len <> 0 -> (forall s, io_step s (snd (body s))) ->
  io_step ts
    (snd (let '(retval, ts1) :=
            ttsp_write_block_data ts command len (Some buf) in
          if retval <? 0 then (retval, ts1)
          else
            let '(retval, tries, ts2) := poll_loop POLL_FUEL body 0 ts1 in
            if tries >=? CY_DELAY_MAX then (err, ts2) else (retval, ts2))).
Proof.
  intros Hlen Hbody.
  pose proof (io_step_write ts command len buf Hlen) as Hw.
  destruct (ttsp_write_block_data ts command len (Some buf)) as [w ts1].
  cbn [snd] in Hw. destruct (w <? 0); [exact Hw|].
  pose proof (io_step_poll_loop (fun s => s) body Hbody POLL_FUEL 0 ts1)
    as Hp.
  destruct (poll_loop POLL_FUEL body 0 ts1) as [[retval tries] ts2].
  cbn [snd] in Hp.
  destruct (tries >=? CY_DELAY_MAX); cbn [snd];
    eapply io_step_trans; eauto.
Qed.

Lemma io_step_exit_bl_mode ts : io_step ts (snd (cyttsp_exit_bl_mode ts)).
Proof.
  unfold cyttsp_exit_bl_mode.
  apply io_step_write_then_poll;
    [discriminate | apply io_step_exit_bl_poll].
Qed.

Lemma io_step_set_operational_mode ts :
  io_step ts (snd (cyttsp_set_operational_mode ts)).
Proof.
  unfold cyttsp_set_operational_mode. cbv zeta.
  pose proof (io_step_write ts CY_REG_BASE 1 [CY_OPERATE_MODE]
                ltac:(discriminate)) as Hw.
  destruct (ttsp_write_block_data ts CY_REG_BASE 1 _) as [w ts1].
  cbn [snd] in Hw. destruct (w <? 0); [exact Hw|].
  pose proof (io_step_poll_loop snd operational_poll
                io_step_operational_poll POLL_FUEL 0
                (repeat 0 (Z.to_nat SIZEOF_XYDATA), ts1)) as Hp.
  destruct (poll_loop POLL_FUEL operational_poll 0 _)
    as [[retval tries] [xy ts2]].
  cbn [snd] in Hp.
  destruct (tries >=? CY_DELAY_MAX); cbn [snd];
    eapply io_step_trans; eauto.
Qed.

Lemma io_step_set_sysinfo_mode ts :
  io_step ts (snd (cyttsp_set_sysinfo_mode ts)).
Proof.
  unfold cyttsp_set_sysinfo_mode.
  eapply io_step_trans; [apply io_step_set_sysinfo_data|].
  apply io_step_write_then_poll;
    [discriminate | apply io_step_sysinfo_poll].
Qed.

Lemma io_step_set_sysinfo_regs ts :
  io_step ts (snd (cyttsp_set_sysinfo_regs ts)).
Proof.
  unfold cyttsp_set_sysinfo_regs.
  destruct (_ || _); [|apply io_step_refl].
  match goal with |- context [ttsp_write_block_data ?s ?c ?l (Some ?b)] =>
    pose proof (io_step_write s c l b ltac:(discriminate)) as H;
    destruct (ttsp_write_block_data s c l (Some b)) as [r ts1] end.
  cbn [snd] in *. eapply io_step_trans; [exact H|apply io_step_msleep].
Qed.

Lemma io_step_act_dist_setup ts :
  io_step ts (snd (cyttsp_act_dist_setup ts)).
Proof.
  unfold cyttsp_act_dist_setup. apply io_step_write. discriminate.
Qed.

Lemma io_step_bl_app_valid ts : io_step ts (snd (cyttsp_bl_app_valid ts)).
Proof.
  unfold cyttsp_bl_app_valid.
  pose proof (io_step_load_bl_regs ts) as H.
  destruct (cyttsp_load_bl_regs ts) as [r ts1]. cbn [snd] in H.
  repeat match goal with
         | |- context [if ?c then _ else _] => destruct c
         end; exact H.
Qed.

Lemma io_step_hndshk ts hst : io_step ts (snd (cyttsp_hndshk ts hst)).
Proof. unfold cyttsp_hndshk. apply io_step_write. discriminate. Qed.

Lemma io_step_power ts ts' : io_step ts ts' -> power_state ts' = power_state ts.
Proof. now intros (_ & _ & _ & H & _). Qed.

Lemma io_step_input ts ts' :
  io_step ts ts' -> filter is_input (log ts') = filter is_input (log ts).
Proof.
  intros (_ & _ & _ & _ & l & -> & Hl).
  now rewrite filter_app, Hl, app_nil_r.
Qed.

End Steps.

Section Frames.
Context {B : Type}.
Implicit Types (ts : cyttsp B) (h : B).

(** C9. When the read of the touch frame comes back nonzero, the
    handler returns 0; the session differs from the one it was given
    only by the bus state and by bus reads and delays in the log: no
    handshake (no bus write), no input event, same PowerState and
    register snapshots; and the interrupt handler, outside the
    bootloader wait, leaves it at that: no recovery is started. *)
Theorem cyttsp_handle_tchdata_read_failure ts :
  fst (fst (ttsp_read_block_data ts CY_REG_BASE SIZEOF_XYDATA frame_buf))
    <> 0 ->
  let '(r, ts') := cyttsp_handle_tchdata ts in
  r = 0 /\ read_only_step ts ts' /\
  (power_state ts <> CY_BL_STATE -> cyttsp_irq ts = ts').
Proof.
  intros Hfail. unfold cyttsp_irq, cyttsp_handle_tchdata.
  pose proof (ttsp_read_block_data_effects ts CY_REG_BASE SIZEOF_XYDATA
                frame_buf) as Hro.
  unfold frame_buf in *.
  destruct (ttsp_read_block_data ts CY_REG_BASE SIZEOF_XYDATA _)
    as [[r xy] ts1].
  cbn [fst snd] in *.
  replace (r =? 0) with false by (symmetry; now apply Z.eqb_neq).
  cbn [negb]. split; [reflexivity|]. split; [exact Hro|].
  intros Hbl.
  destruct (powerstate_eqb_spec (power_state ts) CY_BL_STATE); [contradiction|].
  reflexivity.
Qed.

(** C4 (amended). A touch frame that was read successfully and, where
    the handshake is configured, acknowledged successfully, whose mode
    byte has the bootloader-mode bit set while PowerState is Active,
    reports nothing to the input core, and the interrupt handler runs
    cyttsp_exit_bl_mode alone on the session; PowerState is then Active
    if that returned 0 and Idle otherwise. *)
Theorem cyttsp_irq_bl_reentry ts xy ts1 ts2 :
  power_state ts = CY_ACTIVE_STATE ->
  ttsp_read_block_data ts CY_REG_BASE SIZEOF_XYDATA frame_buf = (0, xy, ts1) ->
  (if use_hndshk (platform_data ts1)
   then cyttsp_hndshk ts1 (hst_mode xy) else (0, ts1)) = (0, ts2) ->
  Z.testbit (tt_mode xy) 4 = true ->
  let '(rv, ts3) := cyttsp_exit_bl_mode ts2 in
  cyttsp_handle_tchdata ts = (-1, ts2) /\
  cyttsp_irq ts =
    cyttsp_pr_state
      (set_power_state ts3
         (if rv =? 0 then CY_ACTIVE_STATE else CY_IDLE_STATE)) /\
  power_state (cyttsp_irq ts) =
    (if rv =? 0 then CY_ACTIVE_STATE else CY_IDLE_STATE) /\
  filter is_input (log (cyttsp_irq ts)) = filter is_input (log ts).
Proof.
  intros Hact Hread Hhs Hbit.
  assert (H1 : io_step ts ts1).
  { pose proof (io_step_read ts CY_REG_BASE SIZEOF_XYDATA frame_buf) as H.
    now rewrite Hread in H. }
  assert (H2 : io_step ts1 ts2).
  { destruct (use_hndshk (platform_data ts1)).
    - pose proof (io_step_hndshk ts1 (hst_mode xy)) as H.
      now rewrite Hhs in H.
    - injection Hhs as <-. apply io_step_refl. }
  assert (Hp2 : power_state ts2 = CY_ACTIVE_STATE).
  { rewrite (io_step_power _ _ H2), (io_step_power _ _ H1). exact Hact. }
  assert (Hh : cyttsp_handle_tchdata ts = (-1, ts2)).
  { unfold cyttsp_handle_tchdata. unfold frame_buf in *.
    cbv zeta in Hread. rewrite Hread. cbn [Z.eqb negb]. rewrite Hhs.
    cbn [Z.eqb negb]. rewrite Hp2. cbn [powerstate_eqb].
    rewrite GET_BOOTLOADERMODE_bit, Hbit. reflexivity. }
  pose proof (io_step_exit_bl_mode ts2) as H3.
  assert (Hirq : cyttsp_irq ts =
            cyttsp_pr_state
              (set_power_state (snd (cyttsp_exit_bl_mode ts2))
                 (if fst (cyttsp_exit_bl_mode ts2) =? 0
                  then CY_ACTIVE_STATE else CY_IDLE_STATE))).
  { unfold cyttsp_irq. rewrite Hact, Hh. cbn [powerstate_eqb].
    change (-1 <? 0) with true. cbv iota.
    destruct (cyttsp_exit_bl_mode ts2) as [rv ts3]. cbn [fst snd].
    now destruct (rv =? 0). }
  destruct (cyttsp_exit_bl_mode ts2) as [rv ts3]. cbn [fst snd] in *.
  split; [exact Hh|]. split; [exact Hirq|]. rewrite Hirq. split.
  - reflexivity.
  - cbn [cyttsp_pr_state emit log set_power_state].
    rewrite filter_app. cbn [filter is_input]. rewrite app_nil_r.
    rewrite (io_step_input _ _ H3), (io_step_input _ _ H2).
    apply (io_step_input _ _ H1).
Qed.

Lemma report_touch_step xy ids used ts i id tch :
  nth i ids 0 = id -> cyttsp_get_tch xy i = Some tch ->
  report_touch xy ids (used, ts) i =
  (Z.lor used (Z.shiftl 1 id),
   cyttsp_report_slot ts id (tch_x tch) (tch_y tch) (tch_z tch)).
Proof. intros Hid Ht. unfold report_touch. now rewrite Hid, Ht. Qed.

(** C3. A valid operational-mode frame whose status byte reports 2
    touches, whose touch12_id byte is 0x39 (track IDs 3 and 9) and
    whose first two contact records hold, big-endian, (100,200) with
    z=50 and (400,10) with z=5, makes the handler report exactly: slot
    3 occupied at (100,200,50), slot 9 occupied at (400,10,5), each of
    the other 14 slots empty, and one sync. *)
Theorem cyttsp_handle_tchdata_two_touches
    ts hst mode stat gest_cnt gest_id t3 id34 t4 rest ts1 ts2 :
  let xy :=
    encode_xydata hst mode stat
      {| tch_x := 100; tch_y := 200; tch_z := 50 |} 0x39
      {| tch_x := 400; tch_y := 10; tch_z := 5 |}
      gest_cnt gest_id t3 id34 t4 rest in
  power_state ts <> CY_IDLE_STATE ->
  ttsp_read_block_data ts CY_REG_BASE SIZEOF_XYDATA frame_buf = (0, xy, ts1) ->
  (if use_hndshk (platform_data ts1)
   then cyttsp_hndshk ts1 (hst_mode xy) else (0, ts1)) = (0, ts2) ->
  GET_NUM_TOUCHES stat = 2 -> Z.testbit stat 4 = false ->
  Z.testbit mode 4 = false -> Z.testbit mode 5 = false ->
  let '(r, ts') := cyttsp_handle_tchdata ts in
  let l :=
    [ EvMtSlot 3; EvMtSlotState true; EvAbs ABS_MT_POSITION_X 100;
      EvAbs ABS_MT_POSITION_Y 200; EvAbs ABS_MT_TOUCH_MAJOR 50;
      EvMtSlot 9; EvMtSlotState true; EvAbs ABS_MT_POSITION_X 400;
      EvAbs ABS_MT_POSITION_Y 10; EvAbs ABS_MT_TOUCH_MAJOR 5 ]
    ++ flat_map (fun s => [EvMtSlot s; EvMtSlotState false])
                [0; 1; 2; 4; 5; 6; 7; 8; 10; 11; 12; 13; 14; 15]
    ++ [EvSync] in
  r = 0 /\
  log ts' = log ts2 ++ l /\
  filter is_input (log ts') = filter is_input (log ts) ++ l /\
  updates_of l =
    [Occupied 3 100 200 50; Occupied 9 400 10 5]
    ++ map Empty [0; 1; 2; 4; 5; 6; 7; 8; 10; 11; 12; 13; 14; 15]
    ++ [FrameComplete].
Proof.
  intros xy Hidle Hread Hhs Hnum Hlarge Hbl Hbad.
  assert (H1 : io_step ts ts1).
  { pose proof (io_step_read ts CY_REG_BASE SIZEOF_XYDATA frame_buf) as H.
    now rewrite Hread in H. }
  assert (H2 : io_step ts1 ts2).
  { destruct (use_hndshk (platform_data ts1)).
    - pose proof (io_step_hndshk ts1 (hst_mode xy)) as H.
      now rewrite Hhs in H.
    - injection Hhs as <-. apply io_step_refl. }
  assert (Hp2 : powerstate_eqb (power_state ts2) CY_IDLE_STATE = false).
  { rewrite (io_step_power _ _ H2), (io_step_power _ _ H1).
    now destruct (powerstate_eqb_spec (power_state ts) CY_IDLE_STATE). }
  assert (Hstat : tt_stat xy = stat) by reflexivity.
  assert (Hmode : tt_mode xy = mode) by reflexivity.
  assert (Hid0 : nth 0 (cyttsp_extract_track_ids xy) 0 = 3) by reflexivity.
  assert (Hid1 : nth 1 (cyttsp_extract_track_ids xy) 0 = 9) by reflexivity.
  assert (Ht0 : cyttsp_get_tch xy 0 =
                Some {| tch_x := 100; tch_y := 200; tch_z := 50 |})
    by reflexivity.
  assert (Ht1 : cyttsp_get_tch xy 1 =
                Some {| tch_x := 400; tch_y := 10; tch_z := 5 |})
    by reflexivity.
  unfold cyttsp_handle_tchdata. unfold frame_buf in *. cbv zeta in Hread.
  rewrite Hread. cbn [Z.eqb negb]. rewrite Hhs. cbn [Z.eqb negb].
  rewrite Hp2, Hstat, Hmode.
  rewrite GET_BOOTLOADERMODE_bit, Hbl, IS_LARGE_AREA_bit, Hlarge,
    IS_BAD_PKT_bit, Hbad, Hnum.
  cbn [Z.b2z Z.eqb negb]. change (2 >? CY_MAX_FINGER) with false. cbv iota.
  change (Z.to_nat 2) with 2%nat. cbn [seq fold_left].
  rewrite (report_touch_step _ _ _ _ _ _ _ Hid0 Ht0).
  rewrite (report_touch_step _ _ _ _ _ _ _ Hid1 Ht1).
  cbv zeta.
  change (Z.lor (Z.lor 0 (Z.shiftl 1 3)) (Z.shiftl 1 9)) with 520.
  change (Z.to_nat CY_MAX_ID) with 16%nat.
  cbn [seq fold_left tch_x tch_y tch_z].
  split; [reflexivity|]. split; [|split].
  - unfold report_unused. cbn. rewrite <- !app_assoc. reflexivity.
  - match goal with
    | |- filter is_input ?L = filter is_input (log ts) ++ ?l0 =>
      assert (E : L = log ts2 ++ l0)
        by (unfold report_unused; cbn; rewrite <- !app_assoc; reflexivity);
      rewrite E
    end.
    rewrite filter_app, (io_step_input _ _ H2), (io_step_input _ _ H1).
    reflexivity.
  - reflexivity.
Qed.

End Frames.

Section Power.
Context {B : Type}.
Implicit Types (ts : cyttsp B) (h : B).

Lemma cyttsp_suspend_active ts :
  use_sleep (platform_data ts) = true ->
  power_state ts = CY_ACTIVE_STATE ->
  cyttsp_suspend ts =
  (fst (sleep_write ts),
   if fst (sleep_write ts) >=? 0
   then set_power_state (snd (sleep_write ts)) CY_SLEEP_STATE
   else snd (sleep_write ts)).
Proof.
  intros Hs Ha. unfold cyttsp_suspend, sleep_write. rewrite Hs, Ha.
  cbn [andb powerstate_eqb Z.b2z].
  destruct (ttsp_write_block_data ts CY_REG_BASE 1 (Some [1])) as [r ts1].
  cbn [fst snd]. now destruct (r >=? 0).
Qed.

Lemma cyttsp_suspend_idle ts :
  use_sleep (platform_data ts)
  && powerstate_eqb (power_state ts) CY_ACTIVE_STATE = false ->
  cyttsp_suspend ts = (0, ts).
Proof. intros H. unfold cyttsp_suspend. now rewrite H. Qed.

(** C8. cyttsp_suspend writes to the bus only when sleep is configured
    and PowerState is Active: it then returns the result of that write
    (between one and four bus writes, nothing else on the bus), with
    PowerState Sleep when the write did not fail and still Active when
    it failed; in every other case it returns 0 and the session,
    PowerState and log included, is untouched. *)
Theorem cyttsp_suspend_power_state ts :
  let '(r, ts') := cyttsp_suspend ts in
  if use_sleep (platform_data ts)
     && powerstate_eqb (power_state ts) CY_ACTIVE_STATE
  then
    r = fst (sleep_write ts) /\
    (exists l n, log ts' = log ts ++ l /\ (1 <= n <= 4)%nat /\
       count is_bus_call l = n /\ count is_bus_write l = n) /\
    power_state ts' =
      (if r <? 0 then CY_ACTIVE_STATE else CY_SLEEP_STATE)
  else r = 0 /\ ts' = ts.
Proof.
  destruct (use_sleep (platform_data ts)
            && powerstate_eqb (power_state ts) CY_ACTIVE_STATE) eqn:E.
  - apply andb_true_iff in E as [Hs Ha].
    destruct (powerstate_eqb_spec (power_state ts) CY_ACTIVE_STATE)
      as [Hact|]; [|discriminate].
    rewrite (cyttsp_suspend_active ts Hs Hact).
    pose proof (ttsp_write_block_data_effects ts CY_REG_BASE 1
                  [Z.b2z (use_sleep (platform_data ts))]
                  ltac:(discriminate)) as W.
    fold (sleep_write ts) in W.
    destruct (sleep_write ts) as [r ts1]. cbn [fst snd] in *.
    destruct W as (_ & _ & _ & _ & _ & Hp & l & n & Hl & Hn & Hw & _).
    split; [reflexivity|]. split.
    + exists l, n.
      assert (Hlog : log (if r >=? 0
                          then set_power_state ts1 CY_SLEEP_STATE
                          else ts1) = log ts ++ l)
        by (now destruct (r >=? 0)).
      split; [exact Hlog|]. split; [exact Hn|].
      unfold count. split.
      * now rewrite Hw, repeat_length.
      * assert (F : forall m, filter is_bus_write m
                      = filter is_bus_write (filter is_bus_call m)).
        { induction m as [|e m IHm]; [reflexivity|].
          destruct e; cbn [filter is_bus_write is_bus_call];
            now rewrite ?IHm. }
        rewrite F, Hw. clear.
        induction n as [|n IHn]; [reflexivity|].
        cbn [repeat filter is_bus_write length]. now rewrite IHn.
    + rewrite Z.geb_leb.
      destruct (Z.leb_spec 0 r), (Z.ltb_spec r 0); try lia;
        cbn [power_state set_power_state]; congruence.
  - now rewrite (cyttsp_suspend_idle ts E).
Qed.

(** C10. Whenever cyttsp_suspend writes (sleep configured, PowerState
    Active), every transfer it makes is a write of one byte to
    register 0x00 whose value is the use_sleep flag itself, that is
    0x01: neither CY_DEEP_SLEEP_MODE (0x02) nor CY_LOW_POWER_MODE
    (0x04). *)
Theorem cyttsp_suspend_writes_use_sleep ts :
  use_sleep (platform_data ts) = true ->
  power_state ts = CY_ACTIVE_STATE ->
  let sleep_mode := Z.b2z (use_sleep (platform_data ts)) in
  exists l n,
    log (snd (cyttsp_suspend ts)) = log ts ++ l /\ (1 <= n <= 4)%nat /\
    filter is_bus_call l = repeat (EvBusWrite 0x00 1 [sleep_mode]) n /\
    sleep_mode = 0x01 /\
    sleep_mode <> CY_DEEP_SLEEP_MODE /\ sleep_mode <> CY_LOW_POWER_MODE.
Proof.
  intros Hs Hact sleep_mode. subst sleep_mode.
  rewrite (cyttsp_suspend_active ts Hs Hact).
  pose proof (ttsp_write_block_data_effects ts CY_REG_BASE 1
                [Z.b2z (use_sleep (platform_data ts))]
                ltac:(discriminate)) as W.
  fold (sleep_write ts) in W.
  destruct (sleep_write ts) as [r ts1]. cbn [fst snd] in *.
  destruct W as (_ & _ & _ & _ & _ & _ & l & n & Hl & Hn & Hw & _).
  exists l, n. split; [now destruct (r >=? 0)|].
  split; [exact Hn|]. split; [exact Hw|].
  rewrite Hs. repeat split; discriminate.
Qed.

End Power.

Section Attach.
Context {B : Type}.
Implicit Types (ts : cyttsp B) (h : B).

Lemma run_step_io step ts : io_step ts (snd (run_step step ts)).
Proof.
  destruct step; cbn [run_step].
  - apply io_step_bl_app_valid.
  - apply io_step_exit_bl_mode.
  - apply io_step_set_sysinfo_mode.
  - apply io_step_set_sysinfo_regs.
  - apply io_step_set_operational_mode.
  - apply io_step_act_dist_setup.
Qed.

Lemma run_step_power step ts r ts' :
  run_step step ts = (r, ts') -> power_state ts' = power_state ts.
Proof.
  intros H. pose proof (run_step_io step ts) as Hio. rewrite H in Hio.
  now apply io_step_power.
Qed.

Lemma reaches_power ts1 step exited ts :
  power_state ts1 = CY_BL_STATE ->
  reaches ts1 step exited ts ->
  power_state ts = if exited then CY_IDLE_STATE else CY_BL_STATE.
Proof.
  intros Hbl R. induction R; try assumption; try reflexivity.
  - now rewrite (run_step_power BlAppValid _ _ _ H).
  - now rewrite (run_step_power BlAppValid _ _ _ H).
  - now rewrite (run_step_power SysinfoMode _ _ _ H).
  - now rewrite (run_step_power SysinfoRegs _ _ _ H).
  - now rewrite (run_step_power OperationalMode _ _ _ H).
Qed.

Ltac not_neg r :=
  replace (r <? 0) with false by (symmetry; apply Z.ltb_ge; lia).

Lemma reaches_from ts1 step exited ts :
  reaches ts1 step exited ts ->
  power_on_bl_app_valid ts1 = power_on_from step ts.
Proof.
  intros R. induction R; cbn [power_on_from] in *; [reflexivity|..];
    rewrite IHR.
  - unfold power_on_bl_app_valid. rewrite H. reflexivity.
  - unfold power_on_bl_app_valid. rewrite H. not_neg v.
    now replace (v >? 0) with true by (symmetry; apply Z.gtb_lt; lia).
  - unfold power_on_exit_bl. rewrite H. now not_neg r.
  - unfold power_on_no_bl_bypass. rewrite H. now not_neg r.
  - unfold power_on_sysinfo_regs. rewrite H. now not_neg r.
  - unfold power_on_operational. rewrite H. now not_neg r.
Qed.

Lemma power_on_from_failure step ts e ts' :
  run_step step ts = (e, ts') -> e < 0 ->
  power_on_from step ts = (e, cyttsp_pr_state ts').
Proof.
  intros H He.
  assert (Hlt : (e <? 0) = true) by (apply Z.ltb_lt; lia).
  destruct step; cbn [run_step power_on_from] in *;
    [unfold power_on_bl_app_valid | unfold power_on_exit_bl
    | unfold power_on_no_bl_bypass | unfold power_on_sysinfo_regs
    | unfold power_on_operational | unfold power_on_act_dist];
    now rewrite H, Hlt.
Qed.

Lemma failure_outcome ts1 step exited ts e ts' :
  power_state ts1 = CY_BL_STATE ->
  reaches ts1 step exited ts ->
  run_step step ts = (e, ts') -> e < 0 ->
  attach_outcome ts1 e (cyttsp_pr_state ts').
Proof.
  intros Hbl R H He. left. split; [assumption|].
  cbn [cyttsp_pr_state emit power_state].
  rewrite (run_step_power _ _ _ _ H), (reaches_power _ _ _ _ Hbl R).
  destruct exited; discriminate.
Qed.

Lemma power_on_from_outcome ts1 step exited ts :
  power_state ts1 = CY_BL_STATE ->
  reaches ts1 step exited ts ->
  attach_outcome ts1 (fst (power_on_from step ts))
                 (snd (power_on_from step ts)).
Proof.
  intros Hbl R.
  assert (Act : forall ex s, reaches ts1 ActDist ex s ->
            attach_outcome ts1 (fst (power_on_act_dist s))
                           (snd (power_on_act_dist s))).
  { intros ex s Rs. destruct (cyttsp_act_dist_setup s) as [e s'] eqn:E.
    destruct (Z.ltb_spec e 0) as [He|He].
    - pose proof (power_on_from_failure ActDist s e s' E He) as F.
      cbn [power_on_from] in F. rewrite F.
      exact (failure_outcome _ ActDist _ _ _ _ Hbl Rs E He).
    - unfold power_on_act_dist. rewrite E. not_neg e. cbn [fst snd].
      right. split; [reflexivity|]. exists ex, s, e, s'. auto. }
  assert (Op : forall ex s, reaches ts1 OperationalMode ex s ->
            attach_outcome ts1 (fst (power_on_operational s))
                           (snd (power_on_operational s))).
  { intros ex s Rs. destruct (cyttsp_set_operational_mode s) as [e s'] eqn:E.
    destruct (Z.ltb_spec e 0) as [He|He].
    - pose proof (power_on_from_failure OperationalMode s e s' E He) as F.
      cbn [power_on_from] in F. rewrite F.
      exact (failure_outcome _ OperationalMode _ _ _ _ Hbl Rs E He).
    - unfold power_on_operational. rewrite E. not_neg e.
      apply (Act ex). exact (reach_act_dist _ _ _ _ _ Rs E He). }
  assert (Regs : forall ex s, reaches ts1 SysinfoRegs ex s ->
            attach_outcome ts1 (fst (power_on_sysinfo_regs s))
                           (snd (power_on_sysinfo_regs s))).
  { intros ex s Rs. destruct (cyttsp_set_sysinfo_regs s) as [e s'] eqn:E.
    destruct (Z.ltb_spec e 0) as [He|He].
    - pose proof (power_on_from_failure SysinfoRegs s e s' E He) as F.
      cbn [power_on_from] in F. rewrite F.
      exact (failure_outcome _ SysinfoRegs _ _ _ _ Hbl Rs E He).
    - unfold power_on_sysinfo_regs. rewrite E. not_neg e.
      apply (Op ex). exact (reach_operational _ _ _ _ _ Rs E He). }
  assert (Mode : forall ex s, reaches ts1 SysinfoMode ex s ->
            attach_outcome ts1 (fst (power_on_no_bl_bypass s))
                           (snd (power_on_no_bl_bypass s))).
  { intros ex s Rs. destruct (cyttsp_set_sysinfo_mode s) as [e s'] eqn:E.
    destruct (Z.ltb_spec e 0) as [He|He].
    - pose proof (power_on_from_failure SysinfoMode s e s' E He) as F.
      cbn [power_on_from] in F. rewrite F.
      exact (failure_outcome _ SysinfoMode _ _ _ _ Hbl Rs E He).
    - unfold power_on_no_bl_bypass. rewrite E. not_neg e.
      apply (Regs ex). exact (reach_sysinfo_regs _ _ _ _ _ Rs E He). }
  assert (Exit : forall s, reaches ts1 ExitBl false s ->
            attach_outcome ts1 (fst (power_on_exit_bl s))
                           (snd (power_on_exit_bl s))).
  { intros s Rs. destruct (cyttsp_exit_bl_mode s) as [e s'] eqn:E.
    destruct (Z.ltb_spec e 0) as [He|He].
    - pose proof (power_on_from_failure ExitBl s e s' E He) as F.
      cbn [power_on_from] in F. rewrite F.
      exact (failure_outcome _ ExitBl _ _ _ _ Hbl Rs E He).
    - unfold power_on_exit_bl. rewrite E. not_neg e.
      apply (Mode true). exact (reach_sysinfo_after_exit _ _ _ _ Rs E He). }
  destruct step; cbn [power_on_from].
  - assert (exited = false) as -> by (now inversion R).
    destruct (cyttsp_bl_app_valid ts) as [e s'] eqn:E.
    destruct (Z.ltb_spec e 0) as [He|He].
    + pose proof (power_on_from_failure BlAppValid ts e s' E He) as F.
      cbn [power_on_from] in F. rewrite F.
      exact (failure_outcome _ BlAppValid _ _ _ _ Hbl R E He).
    + unfold power_on_bl_app_valid. rewrite E. not_neg e.
      destruct (Z.gtb_spec e 0) as [Hpos|Hz].
      * apply (Mode false). exact (reach_sysinfo_directly _ _ _ _ R E Hpos).
      * assert (e = 0) by lia. subst e.
        apply Exit. exact (reach_exit_bl _ _ _ R E).
  - assert (exited = false) as -> by (now inversion R).
    exact (Exit ts R).
  - exact (Mode exited ts R).
  - exact (Regs exited ts R).
  - exact (Op exited ts R).
  - exact (Act exited ts R).
Qed.

Lemma cyttsp_soft_reset_power ts :
  power_state (snd (cyttsp_soft_reset ts)) = power_state ts.
Proof.
  unfold cyttsp_soft_reset.
  pose proof (io_step_write ts CY_REG_BASE 1 [CY_SOFT_RESET_MODE]
                ltac:(discriminate)) as H.
  destruct (ttsp_write_block_data ts CY_REG_BASE 1 _) as [r ts1].
  cbn [snd] in H. apply io_step_power in H.
  destruct (r <? 0); [exact H|].
  destruct (wait_for_completion_timeout _ _ _) as [w h']. exact H.
Qed.

(** C1 (amended). In an attach whose interrupt was registered and
    whose soft reset got the bootloader-ready signal, a failure
    (negative result) of any later step - bootloader validity check,
    exit-bootloader, system-info mode entry, interval configuration,
    operational-mode entry, active-distance write - ends the call:
    that step's error is returned and PowerState on return is
    Bootloader, or Idle when exit-bootloader had been run and had
    succeeded.  PowerState is Active on return exactly when every one
    of these steps succeeded, and exactly when the call returns 0. *)
Theorem cyttsp_power_on_step_failure ts :
  let '(irq, h) := request_threaded_irq (kernel ts) (hw ts) in
  let '(ready, ts1) :=
    cyttsp_soft_reset (set_hw (set_power_state ts CY_BL_STATE) h) in
  0 <= irq -> 0 < ready ->
  exists r ts',
    cyttsp_power_on (Some ts) = (r, Some ts') /\
    (forall step exited s e s',
       reaches ts1 step exited s -> run_step step s = (e, s') -> e < 0 ->
       r = e /\ ts' = cyttsp_pr_state s' /\
       power_state ts' = if exited then CY_IDLE_STATE else CY_BL_STATE) /\
    (power_state ts' = CY_ACTIVE_STATE <-> attach_ok ts1 r ts') /\
    (power_state ts' = CY_ACTIVE_STATE <-> r = 0) /\
    r <= 0.
Proof.
  unfold cyttsp_power_on.
  cbn [kernel hw set_power_state].
  destruct (request_threaded_irq (kernel ts) (hw ts)) as [irq h].
  pose proof (cyttsp_soft_reset_power
                (set_hw (set_power_state ts CY_BL_STATE) h)) as Hbl.
  cbn [set_hw set_power_state power_state] in Hbl.
  match goal with
  | |- context [cyttsp_soft_reset ?x] =>
      match type of Hbl with
      | context [cyttsp_soft_reset ?y] => change y with x in Hbl
      end;
      destruct (cyttsp_soft_reset x) as [ready ts1]
  end.
  cbn [snd] in Hbl. intros Hirq Hready.
  not_neg irq.
  replace (ready =? 0) with false by (symmetry; apply Z.eqb_neq; lia).
  destruct (power_on_bl_app_valid ts1) as [r ts'] eqn:E.
  exists r, ts'. split; [reflexivity|].
  pose proof (power_on_from_outcome ts1 BlAppValid false ts1 Hbl
                (reach_bl_app_valid ts1)) as O.
  cbn [power_on_from] in O. rewrite E in O. cbn [fst snd] in O.
  split; [|split; [|split]].
  - intros step exited s e s' R Hrun He.
    pose proof (reaches_from _ _ _ _ R) as F.
    rewrite (power_on_from_failure _ _ _ _ Hrun He), E in F.
    injection F as -> ->. split; [reflexivity|]. split; [reflexivity|].
    cbn [cyttsp_pr_state emit power_state].
    rewrite (run_step_power _ _ _ _ Hrun).
    exact (reaches_power _ _ _ _ Hbl R).
  - split.
    + intros Hact. destruct O as [[_ Hn]|Hok]; [contradiction|exact Hok].
    + intros (_ & ex & s & e & s' & _ & _ & _ & ->). reflexivity.
  - split.
    + intros Hact. destruct O as [[_ Hn]|[Hr _]]; [contradiction|exact Hr].
    + intros Hr. destruct O as [[Hneg _]|Hok]; [lia|].
      destruct Hok as (_ & ex & s & e & s' & _ & _ & _ & ->). reflexivity.
  - destruct O as [[Hneg _]|[Hr _]]; lia.
Qed.

End Attach.

(** * Concrete runs on the scripted platform *)

Lemma ttsp_block_data_retry_witness :
  3 <> 0 /\
  let '(r, ts') := ttsp_block_data XRead retry_demo CY_REG_BASE 3 [0; 0; 0] in
  r = 0 /\
  log ts' = [ EvBusRead 0 3; EvSleep 20; EvBusRead 0 3; EvSleep 20;
              EvBusRead 0 3 ].
Proof.
  split; [discriminate|].
  generalize (ttsp_block_data_retry XRead retry_demo CY_REG_BASE 3
                [0; 0; 0] 2).
  vm_compute. intros H.
  destruct H as (l & Hl & Hr & -> & _).
  - discriminate.
  - intros [|[|i]] Hi; [reflexivity|reflexivity|].
    exfalso. clear - Hi. do 2 apply le_S_n in Hi. inversion Hi.
  - reflexivity.
  - split; [exact Hr|exact Hl].
Defined.

Lemma cyttsp_bl_app_valid_decision_witness :
  0 <= fst (cyttsp_load_bl_regs bl_valid_demo) /\
  cyttsp_bl_app_valid bl_valid_demo
    = (0, snd (cyttsp_load_bl_regs bl_valid_demo)) /\
  power_on_bl_app_valid bl_valid_demo
    = power_on_exit_bl (snd (cyttsp_load_bl_regs bl_valid_demo)).
Proof.
  generalize (cyttsp_bl_app_valid_decision bl_valid_demo).
  vm_compute. intros H. split; [discriminate|]. apply H. discriminate.
Defined.

Lemma cyttsp_exit_bl_mode_poll_budget_witness :
  0 <= fst (ttsp_write_block_data exit_bl_demo CY_REG_BASE
              (Z.of_nat SIZEOF_BL_COMMAND)
              (Some (buf_bytes (build_bl_cmd (platform_data exit_bl_demo)))))
  /\ fst (cyttsp_exit_bl_mode exit_bl_demo) = 0.
Proof.
  generalize (cyttsp_exit_bl_mode_poll_budget exit_bl_demo).
  vm_compute. intros H. split; [discriminate|].
  apply H; [discriminate|reflexivity].
Defined.

Lemma cyttsp_handle_tchdata_two_touches_witness :
  power_state two_touch_demo <> CY_IDLE_STATE /\
  updates_of (log (snd (cyttsp_handle_tchdata two_touch_demo))) =
    [Occupied 3 100 200 50; Occupied 9 400 10 5]
    ++ map Empty [0; 1; 2; 4; 5; 6; 7; 8; 10; 11; 12; 13; 14; 15]
    ++ [FrameComplete].
Proof.
  split; [discriminate|].
  pose proof (cyttsp_handle_tchdata_two_touches two_touch_demo
                0x00 0x00 0x02 0 0
                {| tch_x := 0; tch_y := 0; tch_z := 0 |} 0x00
                {| tch_x := 0; tch_y := 0; tch_z := 0 |}
                [0; 0; 0; CY_ACT_DIST_DFLT; 0]
                (snd (ttsp_read_block_data two_touch_demo CY_REG_BASE
                        SIZEOF_XYDATA frame_buf))
                (snd (ttsp_read_block_data two_touch_demo CY_REG_BASE
                        SIZEOF_XYDATA frame_buf))
                ltac:(discriminate) eq_refl eq_refl eq_refl eq_refl
                eq_refl eq_refl) as H.
  destruct (cyttsp_handle_tchdata two_touch_demo) as [r ts'].
  destruct H as (_ & Hlog & _ & _). cbn [snd]. rewrite Hlog.
  reflexivity.
Defined.

Lemma cyttsp_irq_bl_reentry_witness :
  power_state reentry_demo = CY_ACTIVE_STATE /\
  power_state (cyttsp_irq reentry_demo) = CY_ACTIVE_STATE /\
  filter is_input (log (cyttsp_irq reentry_demo)) = [].
Proof.
  split; [reflexivity|].
  pose proof (cyttsp_irq_bl_reentry reentry_demo bl_frame
                (snd (ttsp_read_block_data reentry_demo CY_REG_BASE
                        SIZEOF_XYDATA frame_buf))
                (snd (ttsp_read_block_data reentry_demo CY_REG_BASE
                        SIZEOF_XYDATA frame_buf))
                eq_refl eq_refl eq_refl eq_refl) as H.
  destruct (cyttsp_exit_bl_mode _) as [rv ts3] eqn:E.
  destruct H as (_ & _ & Hp & Hin).
  assert (Hrv : rv = 0).
  { change rv with (fst (rv, ts3)). rewrite <- E. reflexivity. }
  rewrite Hrv in Hp. split; [exact Hp|exact Hin].
Defined.

(* counterexample to C4 as stated: with the handshake configured and
   its write failing, a frame with the bootloader-mode bit set, taken
   in PowerState Active, starts no recovery: no exit-bootloader command
   reaches the bus, and PowerState stays Active although on this bus
   the recovery could only have failed *)
Lemma cyttsp_irq_bl_reentry_unacknowledged :
  power_state reentry_unacknowledged = CY_ACTIVE_STATE /\
  (exists xy ts1,
     ttsp_read_block_data reentry_unacknowledged CY_REG_BASE SIZEOF_XYDATA
       frame_buf = (0, xy, ts1) /\
     Z.testbit (tt_mode xy) 4 = true) /\
  filter is_exit_bl_write (log (cyttsp_irq reentry_unacknowledged)) = [] /\
  fst (cyttsp_exit_bl_mode (snd (cyttsp_handle_tchdata reentry_unacknowledged)))
    <> 0 /\
  power_state (cyttsp_irq reentry_unacknowledged) <> CY_IDLE_STATE.
Proof.
  split; [reflexivity|]. split.
  - eexists. eexists. split; [vm_compute; reflexivity|reflexivity].
  - split; [vm_compute; reflexivity|]. split; vm_compute; discriminate.
Qed.

Lemma cyttsp_handle_tchdata_read_failure_witness :
  fst (fst (ttsp_read_block_data dead_bus_demo CY_REG_BASE SIZEOF_XYDATA
              frame_buf)) <> 0 /\
  fst (cyttsp_handle_tchdata dead_bus_demo) = 0 /\
  power_state (snd (cyttsp_handle_tchdata dead_bus_demo)) = CY_ACTIVE_STATE /\
  cyttsp_irq dead_bus_demo = snd (cyttsp_handle_tchdata dead_bus_demo).
Proof.
  assert (Hf : fst (fst (ttsp_read_block_data dead_bus_demo CY_REG_BASE
                           SIZEOF_XYDATA frame_buf)) <> 0)
    by (vm_compute; discriminate).
  split; [exact Hf|].
  pose proof (cyttsp_handle_tchdata_read_failure dead_bus_demo Hf) as H.
  destruct (cyttsp_handle_tchdata dead_bus_demo) as [r ts'].
  destruct H as (-> & Hro & Hirq). cbn [fst snd].
  split; [reflexivity|]. split.
  - destruct Hro as (_ & _ & _ & _ & _ & Hp & _). rewrite Hp. reflexivity.
  - apply Hirq. discriminate.
Defined.

Lemma cyttsp_suspend_writes_use_sleep_witness :
  use_sleep (platform_data suspend_demo) = true /\
  power_state suspend_demo = CY_ACTIVE_STATE /\
  log (snd (cyttsp_suspend suspend_demo)) = [EvBusWrite 0x00 1 [0x01]].
Proof.
  split; [reflexivity|]. split; [reflexivity|].
  destruct (cyttsp_suspend_writes_use_sleep suspend_demo eq_refl eq_refl)
    as (l & n & Hl & _).
  rewrite Hl. vm_compute in Hl. vm_compute. symmetry. exact Hl.
Defined.

Lemma cyttsp_power_on_step_failure_witness :
  exists ts',
    cyttsp_power_on (Some attach_no_app_demo) = (- ENODEV, Some ts') /\
    power_state ts' = CY_BL_STATE.
Proof.
  pose proof (cyttsp_power_on_step_failure attach_no_app_demo) as H.
  destruct (request_threaded_irq (kernel attach_no_app_demo)
              (hw attach_no_app_demo)) as [irq h] eqn:E1.
  destruct (cyttsp_soft_reset
              (set_hw (set_power_state attach_no_app_demo CY_BL_STATE) h))
    as [ready ts1] eqn:E2.
  vm_compute in E1. injection E1 as <- <-.
  vm_compute in E2. injection E2 as <- <-.
  destruct (H ltac:(discriminate) eq_refl) as (r & ts' & Hrun & Hfail & _).
  exists ts'.
  match type of Hfail with
  | forall _ _ _ _ _, reaches ?t1 _ _ _ -> _ =>
      destruct (Hfail BlAppValid false t1 (- ENODEV)
                  (snd (cyttsp_bl_app_valid t1)) (reach_bl_app_valid t1)
                  ltac:(vm_compute; reflexivity) eq_refl)
        as (Hr & _ & Hp)
  end.
  rewrite Hrun, Hr. split; [reflexivity|exact Hp].
Defined.

(* counterexample to C1 as stated: the validity check fails, attach
   returns its error, and PowerState on return is Bootloader, not Idle *)
Lemma cyttsp_power_on_failure_not_idle :
  exists ts',
    cyttsp_power_on (Some attach_no_app_demo) = (- ENODEV, Some ts') /\
    power_state ts' = CY_BL_STATE /\ power_state ts' <> CY_IDLE_STATE.
Proof.
  eexists. split; [vm_compute; reflexivity|].
  split; [reflexivity|discriminate].
Qed.

(* the soft reset is not covered by the amended C1: when its wait
   times out attach returns 0 with PowerState Bootloader *)
Remark cyttsp_power_on_reset_timeout :
  exists ts',
    cyttsp_power_on (Some attach_timeout_demo) = (0, Some ts') /\
    power_state ts' = CY_BL_STATE.
Proof. eexists. split; [vm_compute; reflexivity|reflexivity]. Qed.

(* nor is a failed reset write: its error is not returned, attach
   carries on and can end in PowerState Active *)
Remark cyttsp_power_on_reset_write_unchecked :
  fst (cyttsp_soft_reset
         (set_power_state attach_reset_rejected_demo CY_BL_STATE)) = - EIO /\
  exists ts',
    cyttsp_power_on (Some attach_reset_rejected_demo) = (0, Some ts') /\
    power_state ts' = CY_ACTIVE_STATE.
Proof.
  split; [vm_compute; reflexivity|].
  eexists. split; [vm_compute; reflexivity|reflexivity].
Qed.

(** C6 (the code departs from it). With the board's bl_keys the
    command sent is the 3 fixed bytes followed by the 8 key bytes, but
    building it copies sizeof(bl_command) = 11 bytes to offset 3 of the
    11-byte bl_cmd: indices 11, 12 and 13, past its end, are written. *)
Theorem build_bl_cmd_overruns :
  let pd := board_platform_data false in
  buf_bytes (build_bl_cmd pd)
    = [0x00; 0xFF; 0xA5] ++ dflt_bl_keys /\
  hd_error (log (snd (cyttsp_exit_bl_mode exit_bl_demo)))
    = Some (EvBusWrite CY_REG_BASE 11 ([0x00; 0xFF; 0xA5] ++ dflt_bl_keys)) /\
  buf_spill (build_bl_cmd pd) = [11; 12; 13]%nat.
Proof. repeat split; vm_compute; reflexivity. Qed.

(* beyond its budget of 25 polls cyttsp_exit_bl_mode makes a 26th,
   whose outcome it does not use: a bootloader-mode bit found clear
   only then still gives -ENODEV *)
Remark cyttsp_exit_bl_mode_late_clear :
  let '(r, ts') := cyttsp_exit_bl_mode exit_bl_late_demo in
  r = - ENODEV /\
  count is_bus_read (log ts') = 26%nat /\
  Z.testbit (bl_status (bl_data ts')) 4 = false.
Proof. vm_compute. repeat split. Qed.

(** * Further properties *)

Section TransportOutcome.
Context {B : Type}.
Implicit Types (ts : cyttsp B) (h : B).

Lemma read_retry_outcome fuel : forall tries retval ts command length buf,
  retval < 0 -> (1 <= fuel)%nat -> tries + Z.of_nat fuel = CY_NUM_RETRY ->
  let xfer := bus_xfer XRead (bus_ops ts) command length buf in
  let '(r, _, ts') := read_retry fuel tries retval ts command length buf in
  exists m, (m < fuel)%nat /\
    r = nth_rc xfer (hw ts) m /\
    (forall i, (i < m)%nat -> nth_rc xfer (hw ts) i < 0) /\
    ((S m < fuel)%nat -> 0 <= r) /\
    log ts' = log ts ++ attempts_log (EvBusRead command length) m r.
Proof.
  induction fuel as [|f IH]; intros tries retval ts command length buf
    Hneg Hf Ht; [lia|].
  simpl.
  replace (tries <? CY_NUM_RETRY) with true by (symmetry; apply Z.ltb_lt; lia).
  replace (retval <? 0) with true by (symmetry; apply Z.ltb_lt; lia).
  cbn [andb].
  destruct (read (bus_ops ts) (hw ts) command length)
    as [[r0 data] h'] eqn:E.
  destruct (Z.ltb_spec r0 0) as [Hr0|Hr0].
  - replace (r0 =? 0) with false by (symmetry; apply Z.eqb_neq; lia).
    destruct f as [|f'].
    + cbn [read_retry]. exists 0%nat. cbn [nth_rc bus_xfer]. rewrite E.
      cbn [fst]. repeat split; try lia.
      unfold attempts_log.
      replace (r0 =? 0) with false by (symmetry; apply Z.eqb_neq; lia).
      cbn. now rewrite <- app_assoc.
    + specialize (IH (tries + 1) r0
        (msleep (set_hw (emit ts (EvBusRead command length)) h')
                CY_DELAY_DFLT)
        command length (store_bytes buf data) Hr0 ltac:(lia) ltac:(lia)).
      cbv zeta in IH. cbn [hw bus_ops msleep set_hw emit log] in IH.
      destruct (read_retry (S f') _ _ _ _ _ _) as [[r b'] ts'].
      destruct IH as (m & Hm & Hr & Hall & Hpos & Hlog).
      exists (S m). cbn [nth_rc bus_xfer]. rewrite E. cbn [fst snd].
      split; [lia|]. split; [exact Hr|]. split; [|split].
      * intros [|i] Hi; cbn [nth_rc bus_xfer]; rewrite E; cbn [fst snd];
          [exact Hr0|apply Hall; lia].
      * intros Hlt. apply Hpos. lia.
      * rewrite Hlog. unfold attempts_log, failed_attempts. cbn.
        now rewrite <- !app_assoc.
  - rewrite read_retry_done by (destruct (r0 =? 0); lia).
    exists 0%nat. cbn [nth_rc bus_xfer]. rewrite E. cbn [fst].
    repeat split; try lia.
    unfold attempts_log. cbn [failed_attempts repeat concat app].
    destruct (r0 =? 0); cbn; now rewrite <- ?app_assoc.
Qed.

Lemma write_retry_outcome fuel : forall tries retval ts command length buf,
  retval < 0 -> (1 <= fuel)%nat -> tries + Z.of_nat fuel = CY_NUM_RETRY ->
  let xfer := bus_xfer XWrite (bus_ops ts) command length buf in
  let '(r, ts') := write_retry fuel tries retval ts command length buf in
  exists m, (m < fuel)%nat /\
    r = nth_rc xfer (hw ts) m /\
    (forall i, (i < m)%nat -> nth_rc xfer (hw ts) i < 0) /\
    ((S m < fuel)%nat -> 0 <= r) /\
    log ts' = log ts ++ attempts_log (EvBusWrite command length buf) m r.
Proof.
  induction fuel as [|f IH]; intros tries retval ts command length buf
    Hneg Hf Ht; [lia|].
  simpl.
  replace (tries <? CY_NUM_RETRY) with true by (symmetry; apply Z.ltb_lt; lia).
  replace (retval <? 0) with true by (symmetry; apply Z.ltb_lt; lia).
  cbn [andb].
  destruct (write (bus_ops ts) (hw ts) command length buf)
    as [r0 h'] eqn:E.
  destruct (Z.ltb_spec r0 0) as [Hr0|Hr0].
  - replace (r0 =? 0) with false by (symmetry; apply Z.eqb_neq; lia).
    destruct f as [|f'].
    + cbn [write_retry]. exists 0%nat. cbn [nth_rc bus_xfer]. rewrite E.
      cbn [fst]. repeat split; try lia.
      unfold attempts_log.
      replace (r0 =? 0) with false by (symmetry; apply Z.eqb_neq; lia).
      cbn. now rewrite <- app_assoc.
    + specialize (IH (tries + 1) r0
        (msleep (set_hw (emit ts (EvBusWrite command length buf)) h')
                CY_DELAY_DFLT)
        command length buf Hr0 ltac:(lia) ltac:(lia)).
      cbv zeta in IH. cbn [hw bus_ops msleep set_hw emit log] in IH.
      destruct (write_retry (S f') _ _ _ _ _ _) as [r ts'].
      destruct IH as (m & Hm & Hr & Hall & Hpos & Hlog).
      exists (S m). cbn [nth_rc bus_xfer]. rewrite E. cbn [fst snd].
      split; [lia|]. split; [exact Hr|]. split; [|split].
      * intros [|i] Hi; cbn [nth_rc bus_xfer]; rewrite E; cbn [fst snd];
          [exact Hr0|apply Hall; lia].
      * intros Hlt. apply Hpos. lia.
      * rewrite Hlog. unfold attempts_log, failed_attempts. cbn.
        now rewrite <- !app_assoc.
  - rewrite write_retry_done by (destruct (r0 =? 0); lia).
    exists 0%nat. cbn [nth_rc bus_xfer]. rewrite E. cbn [fst].
    repeat split; try lia.
    unfold attempts_log. cbn [failed_attempts repeat concat app].
    destruct (r0 =? 0); cbn; now rewrite <- ?app_assoc.
Qed.

(** X1. On any bus, a block read or write with a buffer and a nonzero
    length makes between 1 and 4 transfers: it stops at the first one
    that does not return a negative value, or at the fourth, and
    returns that transfer's result - zero, an error, or a positive
    value, which is not retried.  Every transfer but a last one that
    returned 0 is followed by the 20 ms delay. *)
Theorem ttsp_block_data_outcome kind ts command len buf :
  len <> 0 ->
  let xfer := bus_xfer kind (bus_ops ts) command len buf in
  let '(r, ts') := ttsp_block_data kind ts command len buf in
  exists m, (m < 4)%nat /\
    r = nth_rc xfer (hw ts) m /\
    (forall i, (i < m)%nat -> nth_rc xfer (hw ts) i < 0) /\
    ((m < 3)%nat -> 0 <= r) /\
    log ts' = log ts ++ attempts_log (bus_event kind command len buf) m r.
Proof.
  intros Hlen.
  destruct kind; unfold ttsp_block_data, ttsp_read_block_data,
    ttsp_write_block_data;
    replace (len =? 0) with false by (symmetry; apply Z.eqb_neq; lia).
  - pose proof (read_retry_outcome (Z.to_nat CY_NUM_RETRY) 0 (-1) ts command
                  len buf ltac:(lia) ltac:(simpl; lia) eq_refl) as R.
    cbv zeta in R |- *.
    destruct (read_retry _ _ _ _ _ _ _) as [[r b'] ts'].
    destruct R as (m & Hm & Hr & Hall & Hpos & Hlog).
    exists m. change (Z.to_nat CY_NUM_RETRY) with 4%nat in *.
    repeat split; auto. intros; apply Hpos; lia.
  - pose proof (write_retry_outcome (Z.to_nat CY_NUM_RETRY) 0 (-1) ts command
                  len buf ltac:(lia) ltac:(simpl; lia) eq_refl) as R.
    cbv zeta in R |- *.
    destruct (write_retry _ _ _ _ _ _ _) as [r ts'].
    destruct R as (m & Hm & Hr & Hall & Hpos & Hlog).
    exists m. change (Z.to_nat CY_NUM_RETRY) with 4%nat in *.
    repeat split; auto. intros; apply Hpos; lia.
Qed.

End TransportOutcome.

Section FrameDecoding.
Context {B : Type}.
Implicit Types (ts : cyttsp B) (h : B).

Lemma log_emit_list ts l : log (emit_list ts l) = log ts ++ l.
Proof.
  revert ts. induction l as [|e l IH]; intros ts; cbn [emit_list fold_left].
  - now rewrite app_nil_r.
  - fold (emit_list (emit ts e) l). rewrite IH. cbn [emit log].
    now rewrite <- app_assoc.
Qed.

Lemma emit_list_app ts l1 l2 :
  emit_list ts (l1 ++ l2) = emit_list (emit_list ts l1) l2.
Proof. unfold emit_list. apply fold_left_app. Qed.

(* bytes *)
Lemma is_byte_u8 x : is_byte (u8 x).
Proof. unfold is_byte, u8. apply Z.mod_pos_bound. lia. Qed.

Lemma Forall_firstn {A} (P : A -> Prop) n (l : list A) :
  Forall P l -> Forall P (firstn n l).
Proof.
  intros H. revert n. induction H; intros [|n]; cbn; constructor; auto.
Qed.

Lemma Forall_skipn {A} (P : A -> Prop) n (l : list A) :
  Forall P l -> Forall P (skipn n l).
Proof.
  intros H. revert n. induction H; intros [|n]; cbn; auto.
Qed.

Lemma store_bytes_bytes buf data :
  Forall is_byte buf -> Forall is_byte (store_bytes buf data).
Proof.
  intros H. unfold store_bytes. apply Forall_firstn, Forall_app. split.
  - apply Forall_map, Forall_forall. intros; apply is_byte_u8.
  - now apply Forall_skipn.
Qed.

Lemma read_retry_bytes fuel : forall tries retval ts command length buf,
  Forall is_byte buf ->
  Forall is_byte
    (snd (fst (read_retry fuel tries retval ts command length buf))).
Proof.
  induction fuel as [|f IH]; intros; simpl; [assumption|].
  destruct ((tries <? CY_NUM_RETRY) && (retval <? 0)); [|assumption].
  destruct (read (bus_ops ts) (hw ts) command length) as [[r data] h'].
  apply IH. now apply store_bytes_bytes.
Qed.

Lemma ttsp_read_block_data_bytes ts command length buf :
  Forall is_byte buf ->
  Forall is_byte
    (snd (fst (ttsp_read_block_data ts command length (Some buf)))).
Proof.
  intros H. unfold ttsp_read_block_data.
  destruct (length =? 0); [assumption|]. now apply read_retry_bytes.
Qed.

Lemma byte_at_byte buf off : Forall is_byte buf -> is_byte (byte_at buf off).
Proof.
  intros H. unfold byte_at. destruct (nth_in_or_default off buf 0) as [Hin | ->].
  - rewrite Forall_forall in H. now apply H.
  - unfold is_byte. lia.
Qed.

Lemma frame_read_bytes ts r xy ts1 :
  ttsp_read_block_data ts CY_REG_BASE SIZEOF_XYDATA frame_buf = (r, xy, ts1) ->
  Forall is_byte xy.
Proof.
  intros H.
  pose proof (ttsp_read_block_data_bytes ts CY_REG_BASE SIZEOF_XYDATA
                (repeat 0 (Z.to_nat SIZEOF_XYDATA))) as Hb.
  unfold frame_buf in H. rewrite H in Hb. apply Hb.
  apply Forall_forall. intros x Hx. apply repeat_spec in Hx. subst.
  unfold is_byte. lia.
Qed.

(* track ids *)
Lemma high_nibble x : is_byte x -> 0 <= Z.shiftr x 4 < 16.
Proof.
  unfold is_byte. intros H. rewrite Z.shiftr_div_pow2 by lia.
  change (2 ^ 4) with 16. split.
  - apply Z.div_pos; lia.
  - apply Z.div_lt_upper_bound; lia.
Qed.

Lemma low_nibble x : 0 <= Z.land x 0xF < 16.
Proof.
  change 0xF with (Z.ones 4). rewrite Z.land_ones by lia.
  apply Z.mod_pos_bound. reflexivity.
Qed.

Lemma track_ids_in_range xy :
  Forall is_byte xy ->
  Forall (fun id => 0 <= id < CY_MAX_ID) (cyttsp_extract_track_ids xy).
Proof.
  intros H. unfold cyttsp_extract_track_ids, touch12_id, touch34_id.
  repeat constructor;
    try (apply high_nibble, byte_at_byte, H); try apply low_nibble;
    try (apply (proj1 (high_nibble _ (byte_at_byte _ _ H))));
    try (apply (proj2 (high_nibble _ (byte_at_byte _ _ H)))).
Qed.

(* the mask of used slots *)
Lemma testbit_fold_used ids : forall u i,
  0 <= i -> Forall (fun id => 0 <= id) ids ->
  Z.testbit (fold_left (fun used id => Z.lor used (Z.shiftl 1 id)) ids u) i
  = Z.testbit u i || existsb (Z.eqb i) ids.
Proof.
  induction ids as [|id ids IH]; intros u i Hi Hall; cbn [fold_left existsb].
  - now rewrite orb_false_r.
  - inversion Hall as [|? ? Hid Hrest]; subst.
    rewrite IH by assumption.
    rewrite Z.lor_spec, Z.shiftl_1_l, Z.pow2_bits_eqb by assumption.
    rewrite (Z.eqb_sym id i). now rewrite orb_assoc.
Qed.

Lemma used_mask_test ids i :
  0 <= i -> Forall (fun id => 0 <= id) ids ->
  (Z.land (used_mask ids) (Z.shiftl 1 i) =? 0) = negb (existsb (Z.eqb i) ids).
Proof.
  intros Hi Hall. rewrite Z.shiftl_1_l, land_pow2 by assumption.
  unfold used_mask. rewrite testbit_fold_used by assumption.
  rewrite Z.bits_0. cbn [orb].
  destruct (existsb (Z.eqb i) ids); cbn [negb].
  - apply Z.eqb_neq. apply Z.pow_nonzero; lia.
  - reflexivity.
Qed.

(* the second loop *)
Lemma report_unused_loop ids : Forall (fun id => 0 <= id) ids ->
  forall k a ts,
  fold_left (report_unused (used_mask ids)) (seq a k) ts =
  emit_list ts
    (flat_map empty_events
       (filter (fun s => negb (existsb (Z.eqb s) ids))
               (map Z.of_nat (seq a k)))).
Proof.
  intros Hall. induction k as [|k IH]; intros a ts; [reflexivity|].
  cbn [seq fold_left map filter]. rewrite IH. unfold report_unused.
  rewrite used_mask_test by (auto; lia).
  destruct (negb (existsb (Z.eqb (Z.of_nat a)) ids)); [|reflexivity].
  cbn [flat_map]. rewrite emit_list_app. reflexivity.
Qed.

(* the first loop, for each of the counts it can run to *)
Lemma report_touch_loop xy ts n :
  (n <= 4)%nat ->
  fold_left (report_touch xy (cyttsp_extract_track_ids xy)) (seq 0 n) (0, ts)
  = (used_mask (map fst (firstn n (frame_records xy))),
     emit_list ts (flat_map touch_events (firstn n (frame_records xy)))).
Proof.
  intros Hn.
  destruct n as [|[|[|[|[|n]]]]]; [..|lia];
    unfold frame_records, cyttsp_extract_track_ids, used_mask, emit_list,
      report_touch, cyttsp_report_slot;
    cbn [seq fold_left nth cyttsp_get_tch combine firstn map fst snd
         flat_map touch_events app];
    reflexivity.
Qed.

Lemma contact_count_le xy : (contact_count xy <= 4)%nat.
Proof.
  unfold contact_count.
  destruct (Z.testbit (tt_stat xy) 4); [lia|].
  destruct (Z.ltb_spec CY_MAX_FINGER (GET_NUM_TOUCHES (tt_stat xy)));
    [lia|].
  destruct (Z.testbit (tt_mode xy) 5); [lia|].
  unfold CY_MAX_FINGER in *. lia.
Qed.

Lemma updates_of_frame_events cs slots :
  updates_of (flat_map touch_events cs ++ flat_map empty_events slots
              ++ [EvSync])
  = map occupied cs ++ map Empty slots ++ [FrameComplete].
Proof.
  induction cs as [|c cs IHc].
  - cbn [flat_map map app]. induction slots as [|s slots IHs];
      [reflexivity|].
    cbn [flat_map map app empty_events updates_of]. now rewrite IHs.
  - cbn [flat_map map app touch_events updates_of]. now rewrite IHc.
Qed.

(* what the handler does with a frame it goes through with *)
Lemma cyttsp_handle_tchdata_processed ts xy ts1 ts2 :
  power_state ts <> CY_IDLE_STATE ->
  ttsp_read_block_data ts CY_REG_BASE SIZEOF_XYDATA frame_buf = (0, xy, ts1) ->
  (if use_hndshk (platform_data ts1)
   then cyttsp_hndshk ts1 (hst_mode xy) else (0, ts1)) = (0, ts2) ->
  Z.testbit (tt_mode xy) 4 = false ->
  cyttsp_handle_tchdata ts = (0, emit_list ts2 (frame_events xy)) /\
  io_step ts ts2.
Proof.
  intros Hidle Hread Hhs Hbl.
  assert (H1 : io_step ts ts1).
  { pose proof (io_step_read ts CY_REG_BASE SIZEOF_XYDATA frame_buf) as H.
    now rewrite Hread in H. }
  assert (H2 : io_step ts1 ts2).
  { destruct (use_hndshk (platform_data ts1)).
    - pose proof (io_step_hndshk ts1 (hst_mode xy)) as H.
      now rewrite Hhs in H.
    - injection Hhs as <-. apply io_step_refl. }
  split; [|eapply io_step_trans; eauto].
  assert (Hp2 : powerstate_eqb (power_state ts2) CY_IDLE_STATE = false).
  { rewrite (io_step_power _ _ H2), (io_step_power _ _ H1).
    now destruct (powerstate_eqb_spec (power_state ts) CY_IDLE_STATE). }
  pose proof (track_ids_in_range xy (frame_read_bytes _ _ _ _ Hread)) as Hids.
  unfold cyttsp_handle_tchdata. unfold frame_buf in Hread. rewrite Hread.
  cbn [Z.eqb negb]. rewrite Hhs. cbn [Z.eqb negb]. rewrite Hp2.
  rewrite GET_BOOTLOADERMODE_bit, Hbl. cbn [Z.b2z Z.eqb negb].
  assert (Hcount :
    Z.to_nat
      (if IS_LARGE_AREA (tt_stat xy) =? 1 then 0
       else if GET_NUM_TOUCHES (tt_stat xy) >? CY_MAX_FINGER then 0
       else if negb (IS_BAD_PKT (tt_mode xy) =? 0) then 0
       else GET_NUM_TOUCHES (tt_stat xy)) = contact_count xy).
  { unfold contact_count. rewrite IS_LARGE_AREA_bit, IS_BAD_PKT_bit.
    rewrite Z.gtb_ltb.
    destruct (Z.testbit (tt_stat xy) 4); [reflexivity|].
    cbn [Z.b2z Z.eqb].
    destruct (CY_MAX_FINGER <? GET_NUM_TOUCHES (tt_stat xy)); [reflexivity|].
    now destruct (Z.testbit (tt_mode xy) 5). }
  cbv zeta. rewrite Hcount.
  rewrite (report_touch_loop xy ts2 _ (contact_count_le xy)).
  fold (contacts xy).
  assert (Hpos : Forall (fun id => 0 <= id) (map fst (contacts xy))).
  { unfold contacts, frame_records. rewrite <- firstn_map.
    apply Forall_firstn.
    rewrite Forall_forall in Hids |- *. intros id Hin.
    assert (In id (cyttsp_extract_track_ids xy)) by exact Hin.
    now apply Hids. }
  rewrite (report_unused_loop _ Hpos).
  unfold frame_events, free_slots. rewrite !emit_list_app. reflexivity.
Qed.

Lemma frame_events_input xy :
  filter is_input (frame_events xy) = frame_events xy.
Proof.
  unfold frame_events. rewrite !filter_app.
  assert (Ht : forall cs, filter is_input (flat_map touch_events cs)
                          = flat_map touch_events cs).
  { induction cs as [|c cs IH]; [reflexivity|].
    cbn [flat_map touch_events app filter is_input]. now rewrite IH. }
  assert (He : forall ss, filter is_input (flat_map empty_events ss)
                          = flat_map empty_events ss).
  { induction ss as [|c ss IH]; [reflexivity|].
    cbn [flat_map empty_events app filter is_input]. now rewrite IH. }
  now rewrite Ht, He.
Qed.

(** X2. A frame that was read and acknowledged, outside PowerState
    Idle and without the bootloader-mode bit, is reported as follows,
    whatever its contents: one occupied update per contact, in record
    order and only for the contacts counted (none if the frame is
    flagged large-area or invalid or counts more than 4), at the slot
    given by the contact's track id; then one empty update for every
    slot 0..15 that no counted contact occupies, in ascending order;
    then one sync. *)
Theorem cyttsp_handle_tchdata_updates ts xy ts1 ts2 :
  power_state ts <> CY_IDLE_STATE ->
  ttsp_read_block_data ts CY_REG_BASE SIZEOF_XYDATA frame_buf = (0, xy, ts1) ->
  (if use_hndshk (platform_data ts1)
   then cyttsp_hndshk ts1 (hst_mode xy) else (0, ts1)) = (0, ts2) ->
  Z.testbit (tt_mode xy) 4 = false ->
  let '(r, ts') := cyttsp_handle_tchdata ts in
  r = 0 /\
  log ts' = log ts2 ++ frame_events xy /\
  filter is_input (log ts') = filter is_input (log ts) ++ frame_events xy /\
  updates_of (frame_events xy) =
    map occupied (contacts xy)
    ++ map Empty (free_slots (map fst (contacts xy)))
    ++ [FrameComplete].
Proof.
  intros Hidle Hread Hhs Hbl.
  destruct (cyttsp_handle_tchdata_processed ts xy ts1 ts2 Hidle Hread Hhs Hbl)
    as [-> Hio].
  split; [reflexivity|]. rewrite log_emit_list. split; [reflexivity|].
  split; [|apply updates_of_frame_events].
  now rewrite filter_app, (io_step_input _ _ Hio), frame_events_input.
Qed.

End FrameDecoding.

Section FrameHandling.
Context {B : Type}.
Implicit Types (ts : cyttsp B) (h : B).

Lemma contacts_nil_free_slots :
  free_slots [] = map Z.of_nat (seq 0 (Z.to_nat CY_MAX_ID)).
Proof. reflexivity. Qed.






(* every way through the handler: either the frame is dropped, with
   result 0, or -1 for a frame in bootloader mode, and only bus
   traffic behind it, or it is reported *)
Lemma cyttsp_handle_tchdata_cases ts :
  let '(r, ts') := cyttsp_handle_tchdata ts in
  ((r = 0 \/ (r = -1 /\ power_state ts <> CY_IDLE_STATE)) /\ io_step ts ts') \/
  (r = 0 /\ power_state ts <> CY_IDLE_STATE /\
   exists xy ts2, Forall is_byte xy /\ io_step ts ts2 /\
                  ts' = emit_list ts2 (frame_events xy)).
Proof.
  destruct (ttsp_read_block_data ts CY_REG_BASE SIZEOF_XYDATA frame_buf)
    as [[r0 xy] ts1] eqn:Hread.
  assert (H1 : io_step ts ts1).
  { pose proof (io_step_read ts CY_REG_BASE SIZEOF_XYDATA frame_buf) as H.
    now rewrite Hread in H. }
  destruct (if use_hndshk (platform_data ts1)
            then cyttsp_hndshk ts1 (hst_mode xy) else (0, ts1))
    as [hs ts2] eqn:Hhs.
  assert (H2 : io_step ts1 ts2).
  { destruct (use_hndshk (platform_data ts1)).
    - pose proof (io_step_hndshk ts1 (hst_mode xy)) as H.
      now rewrite Hhs in H.
    - injection Hhs as <- <-. apply io_step_refl. }
  assert (H12 : io_step ts ts2) by (eapply io_step_trans; eauto).
  destruct (Z.eqb_spec r0 0) as [->|Hr0].
  - destruct (Z.eqb_spec hs 0) as [->|Hhs0].
    + destruct (powerstate_eqb_spec (power_state ts) CY_IDLE_STATE)
        as [Hidle|Hidle].
      * unfold cyttsp_handle_tchdata. unfold frame_buf in Hread.
        rewrite Hread. cbn [Z.eqb negb]. rewrite Hhs. cbn [Z.eqb negb].
        rewrite (io_step_power _ _ H12), Hidle. cbn [powerstate_eqb].
        left. auto.
      * destruct (Z.testbit (tt_mode xy) 4) eqn:Hbl.
        -- unfold cyttsp_handle_tchdata. unfold frame_buf in Hread.
           rewrite Hread. cbn [Z.eqb negb]. rewrite Hhs. cbn [Z.eqb negb].
           rewrite (io_step_power _ _ H12).
           destruct (powerstate_eqb_spec (power_state ts) CY_IDLE_STATE);
             [contradiction|].
           rewrite GET_BOOTLOADERMODE_bit, Hbl. cbn [Z.b2z Z.eqb negb].
           left. auto.
        -- destruct (cyttsp_handle_tchdata_processed ts xy ts1 ts2 Hidle
                       Hread Hhs Hbl) as [-> _].
           right. split; [reflexivity|]. split; [exact Hidle|].
           exists xy, ts2. split; [|split; [exact H12|reflexivity]].
           exact (frame_read_bytes _ _ _ _ Hread).
    + unfold cyttsp_handle_tchdata. unfold frame_buf in Hread.
      rewrite Hread. cbn [Z.eqb negb]. rewrite Hhs.
      replace (hs =? 0) with false by (symmetry; now apply Z.eqb_neq).
      cbn [negb]. left. auto.
  - unfold cyttsp_handle_tchdata. unfold frame_buf in Hread.
    rewrite Hread.
    replace (r0 =? 0) with false by (symmetry; now apply Z.eqb_neq).
    cbn [negb]. left. auto.
Qed.


(** X5. From PowerState Idle an interrupt changes nothing but the bus:
    the frame is read (and acknowledged where configured) and then
    dropped; nothing is reported, exit-bootloader is not run even for
    a frame in bootloader mode, and PowerState is still Idle.  In
    PowerState Bootloader an interrupt only completes the attach-time
    wait. *)
Theorem cyttsp_irq_idle_or_bootloader ts :
  (power_state ts = CY_IDLE_STATE ->
   cyttsp_irq ts = snd (cyttsp_handle_tchdata ts) /\
   fst (cyttsp_handle_tchdata ts) = 0 /\
   io_step ts (cyttsp_irq ts) /\
   power_state (cyttsp_irq ts) = CY_IDLE_STATE) /\
  (power_state ts = CY_BL_STATE -> cyttsp_irq ts = emit ts EvComplete).
Proof.
  split.
  - intros Hidle. pose proof (cyttsp_handle_tchdata_cases ts) as H.
    unfold cyttsp_irq. rewrite Hidle. cbn [powerstate_eqb].
    destruct (cyttsp_handle_tchdata ts) as [r ts']. cbn [fst snd].
    destruct H as [[[-> | [_ Hn]] Hio] | (_ & Hn & _)];
      try contradiction.
    change (0 <? 0) with false. cbv iota.
    repeat split; auto; try apply Hio.
    rewrite (io_step_power _ _ Hio). exact Hidle.
  - intros Hbl. unfold cyttsp_irq. now rewrite Hbl.
Qed.

(** X6. An interrupt moves PowerState only by the recovery from a
    spontaneous reset: after cyttsp_irq it is what it was, or Active
    or Idle, and the latter two only if the session was neither in
    Bootloader nor in Idle before. *)
Theorem cyttsp_irq_power_state ts :
  power_state (cyttsp_irq ts) = power_state ts \/
  ((power_state (cyttsp_irq ts) = CY_ACTIVE_STATE \/
    power_state (cyttsp_irq ts) = CY_IDLE_STATE) /\
   power_state ts <> CY_BL_STATE /\ power_state ts <> CY_IDLE_STATE).
Proof.
  pose proof (cyttsp_handle_tchdata_cases ts) as H.
  unfold cyttsp_irq.
  destruct (powerstate_eqb_spec (power_state ts) CY_BL_STATE) as [Hbl|Hbl];
    [left; reflexivity|].
  destruct (cyttsp_handle_tchdata ts) as [r ts'].
  destruct H as [[[-> | [-> Hn]] Hio] | (-> & Hn & xy & ts2 & _ & Hio & ->)].
  - left. change (0 <? 0) with false. cbv iota. now apply io_step_power.
  - right. change (-1 <? 0) with true. cbv iota.
    destruct (cyttsp_exit_bl_mode ts') as [rv ts3].
    split; [|split; assumption].
    destruct (rv =? 0); cbn; auto.
  - left. change (0 <? 0) with false. cbv iota.
    unfold emit_list.
    assert (P : forall l (s : cyttsp B),
              power_state (fold_left emit l s) = power_state s).
    { induction l as [|e l IH]; intros s; [reflexivity|].
      cbn [fold_left]. now rewrite IH. }
    rewrite P. now apply io_step_power.
Qed.

(* the handler, path by path *)
Lemma cyttsp_handle_tchdata_eq ts :
  let '(r0, xy, ts1) :=
    ttsp_read_block_data ts CY_REG_BASE SIZEOF_XYDATA frame_buf in
  let '(hs, ts2) :=
    if use_hndshk (platform_data ts1)
    then cyttsp_hndshk ts1 (hst_mode xy) else (0, ts1) in
  cyttsp_handle_tchdata ts =
  if negb (r0 =? 0) then (0, ts1)
  else if negb (hs =? 0) then (0, ts2)
  else if powerstate_eqb (power_state ts) CY_IDLE_STATE then (0, ts2)
  else if Z.testbit (tt_mode xy) 4 then (-1, ts2)
  else (0, emit_list ts2 (frame_events xy)).
Proof.
  destruct (ttsp_read_block_data ts CY_REG_BASE SIZEOF_XYDATA frame_buf)
    as [[r0 xy] ts1] eqn:Hread.
  destruct (if use_hndshk (platform_data ts1)
            then cyttsp_hndshk ts1 (hst_mode xy) else (0, ts1))
    as [hs ts2] eqn:Hhs.
  assert (H1 : io_step ts ts1).
  { pose proof (io_step_read ts CY_REG_BASE SIZEOF_XYDATA frame_buf) as H.
    now rewrite Hread in H. }
  assert (H2 : io_step ts1 ts2).
  { destruct (use_hndshk (platform_data ts1)).
    - pose proof (io_step_hndshk ts1 (hst_mode xy)) as H.
      now rewrite Hhs in H.
    - injection Hhs as <- <-. apply io_step_refl. }
  assert (Hp : power_state ts2 = power_state ts)
    by (rewrite (io_step_power _ _ H2); now apply io_step_power).
  destruct (Z.eqb_spec r0 0) as [->|Hr0]; cbn [negb].
  - destruct (Z.eqb_spec hs 0) as [->|Hhs0]; cbn [negb].
    + destruct (powerstate_eqb_spec (power_state ts) CY_IDLE_STATE)
        as [Hidle|Hidle].
      * unfold cyttsp_handle_tchdata. unfold frame_buf in Hread.
        rewrite Hread. cbn [Z.eqb negb]. rewrite Hhs. cbn [Z.eqb negb].
        rewrite Hp, Hidle. reflexivity.
      * destruct (Z.testbit (tt_mode xy) 4) eqn:Hbl.
        -- unfold cyttsp_handle_tchdata. unfold frame_buf in Hread.
           rewrite Hread. cbn [Z.eqb negb]. rewrite Hhs. cbn [Z.eqb negb].
           rewrite Hp.
           destruct (powerstate_eqb_spec (power_state ts) CY_IDLE_STATE);
             [contradiction|].
           rewrite GET_BOOTLOADERMODE_bit, Hbl. reflexivity.
        -- apply (cyttsp_handle_tchdata_processed ts xy ts1 ts2 Hidle
                    Hread Hhs Hbl).
    + unfold cyttsp_handle_tchdata. unfold frame_buf in Hread.
      rewrite Hread. cbn [Z.eqb negb]. rewrite Hhs.
      replace (hs =? 0) with false by (symmetry; now apply Z.eqb_neq).
      reflexivity.
  - unfold cyttsp_handle_tchdata. unfold frame_buf in Hread.
    rewrite Hread.
    replace (r0 =? 0) with false by (symmetry; now apply Z.eqb_neq).
    reflexivity.
Qed.

Lemma testbit7_byte x : is_byte x -> Z.testbit x 7 = (128 <=? x).
Proof.
  unfold is_byte. intros H.
  assert (Hq : x / 2 ^ 7 = if 128 <=? x then 1 else 0).
  { change (2 ^ 7) with 128. destruct (Z.leb_spec 128 x).
    - symmetry. apply Z.div_unique with (r := x - 128); lia.
    - apply Z.div_small. lia. }
  destruct (128 <=? x) eqn:E.
  - apply Z.testbit_true; [lia|]. now rewrite Hq.
  - apply Z.testbit_false; [lia|]. now rewrite Hq.
Qed.

Lemma hndshk_byte x :
  is_byte x ->
  u8 (Z.lxor x CY_HNDSHK_BIT) = toggle_bit7 x /\ is_byte (toggle_bit7 x) /\
  Z.testbit (toggle_bit7 x) 7 = negb (Z.testbit x 7).
Proof.
  intros Hx. pose proof (testbit7_byte x Hx) as H7.
  assert (Hl : Z.lxor x CY_HNDSHK_BIT = toggle_bit7 x).
  { unfold toggle_bit7, CY_HNDSHK_BIT. change 0x80 with (2 ^ 7).
    destruct (Z.testbit x 7) eqn:E.
    - assert (Hy : Z.land (Z.lxor x (2 ^ 7)) (2 ^ 7) = 0).
      { rewrite land_pow2 by lia.
        rewrite Z.lxor_spec, E, Z.pow2_bits_eqb by lia. reflexivity. }
      apply Z.add_nocarry_lxor in Hy.
      rewrite Z.lxor_assoc, Z.lxor_nilpotent, Z.lxor_0_r in Hy.
      change (2 ^ 7) with 128 in *. lia.
    - assert (Hy : Z.land x (2 ^ 7) = 0) by (rewrite land_pow2 by lia;
                                              now rewrite E).
      apply Z.add_nocarry_lxor in Hy. change (2 ^ 7) with 128 in *. lia. }
  assert (Hb : is_byte (toggle_bit7 x)).
  { unfold toggle_bit7, is_byte in *. rewrite H7.
    destruct (Z.leb_spec 128 x); lia. }
  split; [|split; [exact Hb|]].
  - rewrite Hl. unfold u8. apply Z.mod_small. exact Hb.
  - rewrite (testbit7_byte _ Hb), H7. unfold toggle_bit7, is_byte in *.
    rewrite H7. destruct (Z.leb_spec 128 x);
      [apply Z.leb_gt|apply Z.leb_le]; cbn [negb]; lia.
Qed.

Lemma filter_bus_write_of_calls l :
  filter is_bus_write l = filter is_bus_write (filter is_bus_call l).
Proof.
  induction l as [|e l IH]; [reflexivity|].
  destruct e; cbn [filter is_bus_write is_bus_call]; now rewrite ?IH.
Qed.

Lemma filter_bus_write_repeat e n :
  is_bus_write e = true -> filter is_bus_write (repeat e n) = repeat e n.
Proof.
  intros He. induction n as [|n IH]; [reflexivity|].
  cbn [repeat filter]. now rewrite He, IH.
Qed.

Lemma filter_bus_write_reads l :
  forallb is_read_or_sleep l = true -> filter is_bus_write l = [].
Proof.
  induction l as [|e l IH]; [reflexivity|]. cbn [forallb filter].
  intros H. apply andb_true_iff in H as [He Hl].
  destruct e; cbn in He |- *; try discriminate; auto.
Qed.

Lemma filter_bus_write_frame_events xy :
  filter is_bus_write (frame_events xy) = [].
Proof.
  unfold frame_events. rewrite !filter_app.
  assert (Ht : forall cs, filter is_bus_write (flat_map touch_events cs) = []).
  { induction cs as [|c cs IH]; [reflexivity|].
    cbn [flat_map touch_events app filter is_bus_write]. exact IH. }
  assert (He : forall ss, filter is_bus_write (flat_map empty_events ss) = []).
  { induction ss as [|c ss IH]; [reflexivity|].
    cbn [flat_map empty_events app filter is_bus_write]. exact IH. }
  now rewrite Ht, He.
Qed.

(** X7. The only bus writes of the frame handler are those of the
    handshake: when the handshake is configured and the frame was
    read, between one and four writes of one byte to register 0x00,
    the frame's host-mode byte with bit 7 toggled; otherwise none. *)
Theorem cyttsp_handle_tchdata_bus_writes ts :
  let '(r0, xy, _) :=
    ttsp_read_block_data ts CY_REG_BASE SIZEOF_XYDATA frame_buf in
  exists l n,
    log (snd (cyttsp_handle_tchdata ts)) = log ts ++ l /\
    filter is_bus_write l
      = repeat (EvBusWrite CY_REG_BASE 1 [toggle_bit7 (hst_mode xy)]) n /\
    Z.testbit (toggle_bit7 (hst_mode xy)) 7
      = negb (Z.testbit (hst_mode xy) 7) /\
    if use_hndshk (platform_data ts) && (r0 =? 0)
    then (1 <= n <= 4)%nat else n = 0%nat.
Proof.
  pose proof (cyttsp_handle_tchdata_eq ts) as Heq.
  pose proof (ttsp_read_block_data_effects ts CY_REG_BASE SIZEOF_XYDATA
                frame_buf) as Hro.
  destruct (ttsp_read_block_data ts CY_REG_BASE SIZEOF_XYDATA frame_buf)
    as [[r0 xy] ts1] eqn:Hread.
  cbn [snd] in Hro.
  destruct Hro as (Hpd & _ & _ & _ & _ & _ & l1 & Hl1 & Hall1).
  pose proof (byte_at_byte xy 0 (frame_read_bytes _ _ _ _ Hread)) as Hb.
  fold (hst_mode xy) in Hb.
  destruct (hndshk_byte _ Hb) as (Hcmd & _ & Hbit).
  rewrite Hpd in Heq.
  destruct (use_hndshk (platform_data ts)) eqn:Hcfg.
  - pose proof (ttsp_write_block_data_effects ts1 CY_REG_BASE 1
                  [u8 (Z.lxor (hst_mode xy) CY_HNDSHK_BIT)]
                  ltac:(discriminate)) as W.
    fold (cyttsp_hndshk ts1 (hst_mode xy)) in W.
    destruct (cyttsp_hndshk ts1 (hst_mode xy)) as [hs ts2].
    cbn [snd] in W. rewrite Hcmd in W.
    destruct W as (_ & _ & _ & _ & _ & _ & l2 & n & Hl2 & Hn & Hw & _).
    rewrite Heq. cbn [andb].
    destruct (r0 =? 0); cbn [negb].
    + assert (Hw2 : filter is_bus_write (l1 ++ l2) =
                    repeat (EvBusWrite CY_REG_BASE 1
                              [toggle_bit7 (hst_mode xy)]) n).
      { rewrite filter_app, (filter_bus_write_reads _ Hall1).
        cbn [app]. rewrite filter_bus_write_of_calls, Hw.
        now apply filter_bus_write_repeat. }
      destruct (negb (hs =? 0));
        [|destruct (powerstate_eqb (power_state ts) CY_IDLE_STATE);
          [|destruct (Z.testbit (tt_mode xy) 4)]]; cbn [snd];
        try (exists (l1 ++ l2), n; rewrite Hl2, Hl1, <- app_assoc; auto).
      exists ((l1 ++ l2) ++ frame_events xy), n.
      rewrite log_emit_list, Hl2, Hl1, <- !app_assoc.
      split; [reflexivity|]. split; [|auto].
      rewrite !app_assoc, filter_app, filter_bus_write_frame_events,
        app_nil_r. exact Hw2.
    + exists l1, 0%nat. cbn [snd].
      split; [exact Hl1|]. split; [now apply filter_bus_write_reads|auto].
  - rewrite Heq. cbn [andb Z.eqb negb].
    destruct (negb (r0 =? 0));
      [|destruct (powerstate_eqb (power_state ts) CY_IDLE_STATE);
        [|destruct (Z.testbit (tt_mode xy) 4)]]; cbn [snd];
      try (exists l1, 0%nat; split; [exact Hl1|];
           split; [now apply filter_bus_write_reads|auto]).
    exists (l1 ++ frame_events xy), 0%nat.
    rewrite log_emit_list, Hl1, <- app_assoc.
    split; [reflexivity|]. split; [|auto].
    now rewrite filter_app, filter_bus_write_frame_events,
      (filter_bus_write_reads _ Hall1).
Qed.

End FrameHandling.

Section PollOutcomes.
Context {B : Type}.
Implicit Types (ts : cyttsp B) (h : B).

Lemma settles_some {St : Type} (body : St -> bool * Z * St) n :
  forall st rv st',
  settles n body st = Some (rv, st') ->
  exists st0, body st0 = (false, rv, st').
Proof.
  induction n as [|n IH]; intros st rv st' H; [discriminate|].
  cbn [settles] in H. destruct (body st) as [[again r] st1] eqn:E.
  destruct again.
  - now apply IH in H.
  - injection H as <- <-. now exists st.
Qed.

(* a command write followed by a wait loop returns the error of the
   write, or [err] when the budget of the loop is used up, or what the
   loop body returned on a pass that left its condition false *)
Lemma write_then_poll_outcome {St : Type} ts command len buf
    (body : St -> bool * Z * St) (start : cyttsp B -> St) (err : Z) :
  let '(w, ts1) := ttsp_write_block_data ts command len (Some buf) in
  let '(retval, tries, st2) := poll_loop POLL_FUEL body 0 (start ts1) in
  let r := if w <? 0 then w
           else if tries >=? CY_DELAY_MAX then err else retval in
  (w < 0 /\ r = w) \/
  (0 <= w /\ r = err /\
   settles (Z.to_nat CY_DELAY_MAX) body (start ts1) = None) \/
  (0 <= w /\ tries < CY_DELAY_MAX /\
   settles (Z.to_nat CY_DELAY_MAX) body (start ts1) = Some (r, st2) /\
   exists st0, body st0 = (false, r, st2)).
Proof.
  destruct (ttsp_write_block_data ts command len (Some buf)) as [w ts1].
  pose proof (poll_loop_budget body (Z.to_nat CY_DELAY_MAX) POLL_FUEL 0
                (start ts1) eq_refl ltac:(unfold POLL_FUEL; lia)) as P.
  destruct (poll_loop POLL_FUEL body 0 (start ts1)) as [[retval tries] st2].
  cbv zeta. destruct (Z.ltb_spec w 0) as [Hw|Hw]; [left; auto|right].
  destruct (settles (Z.to_nat CY_DELAY_MAX) body (start ts1))
    as [[rv stf]|] eqn:E.
  - destruct P as (-> & -> & Ht). right.
    replace (tries >=? CY_DELAY_MAX) with false
      by (rewrite Z.geb_leb; symmetry; apply Z.leb_gt; lia).
    split; [exact Hw|]. split; [exact Ht|]. split; [reflexivity|].
    exact (settles_some body _ _ _ _ E).
  - left.
    replace (tries >=? CY_DELAY_MAX) with true
      by (rewrite Z.geb_leb; symmetry; apply Z.leb_le; lia).
    auto.
Qed.

(** X8. cyttsp_set_sysinfo_mode returns 0, -EAGAIN or the negative
    error of its command write, never a positive value; and when it
    returns 0 the system information it has stored carries a TTS
    version other than 0.0. *)
Theorem cyttsp_set_sysinfo_mode_outcome ts :
  let '(r, ts') := cyttsp_set_sysinfo_mode ts in
  (r = 0 /\
   (tts_verh (sysinfo_data ts') <> 0 \/ tts_verl (sysinfo_data ts') <> 0)) \/
  r = - EAGAIN \/
  (r < 0 /\
   r = fst (ttsp_write_block_data
              (set_sysinfo_data ts (repeat 0 (Z.to_nat SIZEOF_SYSINFO_DATA)))
              CY_REG_BASE 1 (Some [CY_SYSINFO_MODE]))).
Proof.
  unfold cyttsp_set_sysinfo_mode. cbv zeta.
  pose proof (write_then_poll_outcome
                (set_sysinfo_data ts (repeat 0 (Z.to_nat SIZEOF_SYSINFO_DATA)))
                CY_REG_BASE 1 [CY_SYSINFO_MODE] sysinfo_poll (fun s => s)
                (- EAGAIN)) as H.
  destruct (ttsp_write_block_data _ CY_REG_BASE 1 (Some [CY_SYSINFO_MODE]))
    as [w ts1].
  destruct (poll_loop POLL_FUEL sysinfo_poll 0 ts1) as [[retval tries] ts2].
  cbv zeta in H. cbn [fst].
  destruct H as [[Hw Hr] | [(Hw & Hr & _) | (Hw & Ht & _ & st0 & Hb)]].
  - replace (w <? 0) with true in * by (symmetry; apply Z.ltb_lt; lia).
    right. right. auto.
  - replace (w <? 0) with false in * by (symmetry; apply Z.ltb_ge; lia).
    destruct (tries >=? CY_DELAY_MAX); right; left; auto.
  - replace (w <? 0) with false in * by (symmetry; apply Z.ltb_ge; lia).
    replace (tries >=? CY_DELAY_MAX) with false in *
      by (rewrite Z.geb_leb; symmetry; apply Z.leb_gt; lia).
    left. unfold sysinfo_poll in Hb.
    destruct (ttsp_read_block_data _ _ _ _) as [[r1 b1] t1].
    injection Hb as Hagain <- <-. cbn [sysinfo_data set_sysinfo_data] in *.
    apply orb_false_iff in Hagain as [Hr0 Hv].
    apply negb_false_iff, Z.eqb_eq in Hr0. split; [exact Hr0|].
    apply andb_false_iff in Hv as [Hv|Hv]; apply Z.eqb_neq in Hv; auto.
Qed.

(** X9. cyttsp_set_operational_mode returns 0, -EAGAIN or the negative
    error of its command write, never a positive value. *)
Theorem cyttsp_set_operational_mode_outcome ts :
  let r := fst (cyttsp_set_operational_mode ts) in
  r = 0 \/ r = - EAGAIN \/
  (r < 0 /\
   r = fst (ttsp_write_block_data ts CY_REG_BASE 1 (Some [CY_OPERATE_MODE]))).
Proof.
  unfold cyttsp_set_operational_mode. cbv zeta.
  pose proof (write_then_poll_outcome ts CY_REG_BASE 1 [CY_OPERATE_MODE]
                operational_poll
                (fun s => (repeat 0 (Z.to_nat SIZEOF_XYDATA), s))
                (- EAGAIN)) as H.
  destruct (ttsp_write_block_data ts CY_REG_BASE 1 (Some [CY_OPERATE_MODE]))
    as [w ts1].
  cbv beta in H.
  destruct (poll_loop POLL_FUEL operational_poll 0 _)
    as [[retval tries] [xy ts2]].
  cbv zeta in H. cbn [fst].
  destruct H as [[Hw Hr] | [(Hw & Hr & _) | (Hw & Ht & _ & st0 & Hb)]].
  - replace (w <? 0) with true in * by (symmetry; apply Z.ltb_lt; lia).
    right. right. auto.
  - replace (w <? 0) with false in * by (symmetry; apply Z.ltb_ge; lia).
    destruct (tries >=? CY_DELAY_MAX); right; left; auto.
  - replace (w <? 0) with false in * by (symmetry; apply Z.ltb_ge; lia).
    replace (tries >=? CY_DELAY_MAX) with false in *
      by (rewrite Z.geb_leb; symmetry; apply Z.leb_gt; lia).
    left. unfold operational_poll in Hb. destruct st0 as [xy0 t0].
    destruct (ttsp_read_block_data _ _ _ _) as [[r1 b1] t1].
    injection Hb as Hagain <- _ _.
    apply orb_false_iff in Hagain as [Hr0 _].
    now apply negb_false_iff, Z.eqb_eq in Hr0.
Qed.

(** X10. cyttsp_exit_bl_mode returns 0, -ENODEV or the negative error
    of its command write, never a positive value; and when it returns
    0 the bootloader status it has stored has the bootloader-mode bit
    clear. *)
Theorem cyttsp_exit_bl_mode_outcome ts :
  let '(r, ts') := cyttsp_exit_bl_mode ts in
  (r = 0 /\ Z.testbit (bl_status (bl_data ts')) 4 = false) \/
  r = - ENODEV \/
  (r < 0 /\
   r = fst (ttsp_write_block_data ts CY_REG_BASE (Z.of_nat SIZEOF_BL_COMMAND)
              (Some (buf_bytes (build_bl_cmd (platform_data ts)))))).
Proof.
  unfold cyttsp_exit_bl_mode. cbv zeta.
  pose proof (write_then_poll_outcome ts CY_REG_BASE
                (Z.of_nat SIZEOF_BL_COMMAND)
                (buf_bytes (build_bl_cmd (platform_data ts)))
                exit_bl_poll (fun s => s) (- ENODEV)) as H.
  destruct (ttsp_write_block_data ts CY_REG_BASE _ _) as [w ts1].
  destruct (poll_loop POLL_FUEL exit_bl_poll 0 ts1) as [[retval tries] ts2].
  cbv zeta in H. cbn [fst].
  destruct H as [[Hw Hr] | [(Hw & Hr & _) | (Hw & Ht & _ & st0 & Hb)]].
  - replace (w <? 0) with true in * by (symmetry; apply Z.ltb_lt; lia).
    right. right. auto.
  - replace (w <? 0) with false in * by (symmetry; apply Z.ltb_ge; lia).
    destruct (tries >=? CY_DELAY_MAX); right; left; auto.
  - replace (w <? 0) with false in * by (symmetry; apply Z.ltb_ge; lia).
    replace (tries >=? CY_DELAY_MAX) with false in *
      by (rewrite Z.geb_leb; symmetry; apply Z.leb_gt; lia).
    left. rewrite exit_bl_poll_reread in Hb.
    injection Hb as Hagain <- <-.
    apply negb_false_iff in Hagain. unfold shows_bl_cleared in Hagain.
    apply andb_true_iff in Hagain as [Hr0 Hbit].
    apply Z.eqb_eq in Hr0. apply negb_true_iff in Hbit. auto.
Qed.

(** X11. cyttsp_bl_app_valid returns 0, 1 or -ENODEV and nothing else;
    a status read that fails is reported as -ENODEV whatever the bus
    error was. *)
Theorem cyttsp_bl_app_valid_results ts :
  let r := fst (cyttsp_bl_app_valid ts) in
  (r = 0 \/ r = 1 \/ r = - ENODEV) /\
  (fst (cyttsp_load_bl_regs ts) < 0 -> r = - ENODEV).
Proof.
  unfold cyttsp_bl_app_valid.
  destruct (cyttsp_load_bl_regs ts) as [r0 ts1]. cbn [fst].
  split.
  - repeat match goal with
           | |- context [if ?c then _ else _] => destruct c
           end; cbn [fst]; auto.
  - intros H.
    now replace (r0 <? 0) with true by (symmetry; apply Z.ltb_lt; lia).
Qed.

End PollOutcomes.

Section LogSteps.
Context {B : Type}.
Implicit Types (ts : cyttsp B) (h : B).

(* a property of events that holds of everything but input reports and
   bus writes *)
Variable Q : event -> Prop.
Hypothesis Q_passive :
  forall e, is_input e = false -> is_bus_write e = false -> Q e.

Lemma log_step_refl ts : log_step Q ts ts.
Proof. exists []. now rewrite app_nil_r. Qed.

Lemma log_step_trans ts1 ts2 ts3 :
  log_step Q ts1 ts2 -> log_step Q ts2 ts3 -> log_step Q ts1 ts3.
Proof.
  intros (l & Hl & Ha) (l' & Hl' & Ha'). exists (l ++ l'). split.
  - rewrite Hl', Hl. now rewrite app_assoc.
  - apply Forall_app. now split.
Qed.

Lemma log_step_same_log ts ts' : log ts' = log ts -> log_step Q ts ts'.
Proof. intros H. exists []. now rewrite app_nil_r. Qed.

Lemma log_step_emit ts e : Q e -> log_step Q ts (emit ts e).
Proof. intros H. exists [e]. split; [reflexivity|]. now constructor. Qed.

Lemma log_step_read ts command length buf :
  log_step Q ts (snd (ttsp_read_block_data ts command length buf)).
Proof.
  destruct (ttsp_read_block_data_effects ts command length buf)
    as (_ & _ & _ & _ & _ & _ & l & Hl & Hall).
  exists l. split; [exact Hl|].
  apply Forall_forall. intros e He.
  rewrite forallb_forall in Hall. specialize (Hall e He).
  apply Q_passive; destruct e; cbn in *; auto; discriminate.
Qed.

Lemma calls_and_inputs l w n :
  filter is_bus_call l = repeat w n -> filter is_input l = [] -> Q w ->
  Forall Q l.
Proof.
  intros Hc Hi Hw. revert n Hc Hi.
  induction l as [|e l IH]; intros n Hc Hi; constructor.
  - cbn [filter] in Hc, Hi.
    destruct (is_input e) eqn:Ein; [discriminate|].
    destruct (is_bus_call e) eqn:Ec.
    + destruct n as [|n]; [discriminate|]. cbn [repeat] in Hc.
      injection Hc as -> _. exact Hw.
    + apply Q_passive; [exact Ein|]. destruct e; cbn in *; auto; discriminate.
  - cbn [filter] in Hc, Hi.
    destruct (is_input e); [discriminate|].
    destruct (is_bus_call e).
    + destruct n as [|n]; [discriminate|]. cbn [repeat] in Hc.
      injection Hc as _ Hc. now apply (IH n).
    + now apply (IH n).
Qed.

Lemma log_step_write ts command length buf :
  length <> 0 -> Q (EvBusWrite command length buf) ->
  log_step Q ts (snd (ttsp_write_block_data ts command length (Some buf))).
Proof.
  intros Hlen Hw.
  destruct (ttsp_write_block_data_effects ts command length buf Hlen)
    as (_ & _ & _ & _ & _ & _ & l & n & Hl & _ & Hc & Hi).
  exists l. split; [exact Hl|]. exact (calls_and_inputs l _ n Hc Hi Hw).
Qed.

Lemma log_step_msleep ts ms : log_step Q ts (msleep ts ms).
Proof. apply log_step_emit. now apply Q_passive. Qed.

Lemma log_step_pr_state ts : log_step Q ts (cyttsp_pr_state ts).
Proof. apply log_step_emit. now apply Q_passive. Qed.

Lemma log_step_load_bl_regs ts : log_step Q ts (snd (cyttsp_load_bl_regs ts)).
Proof.
  unfold cyttsp_load_bl_regs.
  match goal with |- context [ttsp_read_block_data ?s ?c ?l ?b] =>
    pose proof (log_step_read s c l b) as H;
    destruct (ttsp_read_block_data s c l b) as [[r b'] ts3] end.
  cbn [snd] in *.
  eapply log_step_trans; [|apply log_step_same_log; reflexivity].
  eapply log_step_trans; [|exact H]. now apply log_step_same_log.
Qed.

Lemma log_step_bl_app_valid ts : log_step Q ts (snd (cyttsp_bl_app_valid ts)).
Proof.
  unfold cyttsp_bl_app_valid.
  pose proof (log_step_load_bl_regs ts) as H.
  destruct (cyttsp_load_bl_regs ts) as [r ts1]. cbn [snd] in H.
  repeat match goal with
         | |- context [if ?c then _ else _] => destruct c
         end; exact H.
Qed.

Lemma log_step_poll_loop {St : Type} (session : St -> cyttsp B)
    (body : St -> bool * Z * St) :
  (forall st, log_step Q (session st) (session (snd (body st)))) ->
  forall fuel tries st,
    log_step Q (session st) (session (snd (poll_loop fuel body tries st))).
Proof.
  intros Hbody. induction fuel as [|f IH]; intros tries st; simpl;
    [apply log_step_refl|].
  specialize (Hbody st). destruct (body st) as [[again retval] st1].
  simpl in Hbody. destruct again; [|exact Hbody].
  destruct (tries <? CY_DELAY_MAX); [|exact Hbody].
  eapply log_step_trans; [exact Hbody|apply IH].
Qed.

Lemma log_step_exit_bl_poll ts : log_step Q ts (snd (exit_bl_poll ts)).
Proof.
  unfold exit_bl_poll.
  pose proof (log_step_load_bl_regs (msleep ts CY_DELAY_DFLT)) as H.
  destruct (cyttsp_load_bl_regs (msleep ts CY_DELAY_DFLT)) as [r ts2].
  cbn [snd] in *. eapply log_step_trans; [apply log_step_msleep|exact H].
Qed.

Lemma log_step_sysinfo_poll ts : log_step Q ts (snd (sysinfo_poll ts)).
Proof.
  unfold sysinfo_poll.
  match goal with |- context [ttsp_read_block_data ?s ?c ?l ?b] =>
    pose proof (log_step_read s c l b) as H;
    destruct (ttsp_read_block_data s c l b) as [[r b'] ts2] end.
  cbn [snd] in *.
  eapply log_step_trans; [apply log_step_msleep|].
  eapply log_step_trans; [exact H|now apply log_step_same_log].
Qed.

Lemma log_step_operational_poll (st : list Z * cyttsp B) :
  log_step Q (snd st) (snd (snd (operational_poll st))).
Proof.
  unfold operational_poll. destruct st as [xy ts]. cbn [snd].
  match goal with |- context [ttsp_read_block_data ?s ?c ?l ?b] =>
    pose proof (log_step_read s c l b) as H;
    destruct (ttsp_read_block_data s c l b) as [[r b'] ts1] end.
  exact H.
Qed.

Lemma log_step_exit_bl_mode ts :
  Q (EvBusWrite CY_REG_BASE (Z.of_nat SIZEOF_BL_COMMAND)
       (buf_bytes (build_bl_cmd (platform_data ts)))) ->
  log_step Q ts (snd (cyttsp_exit_bl_mode ts)).
Proof.
  intros Hq. unfold cyttsp_exit_bl_mode. cbv zeta.
  pose proof (log_step_write ts CY_REG_BASE (Z.of_nat SIZEOF_BL_COMMAND) _
                ltac:(discriminate) Hq) as Hw.
  destruct (ttsp_write_block_data ts CY_REG_BASE _ _) as [w ts1].
  cbn [snd] in Hw. destruct (w <? 0); [exact Hw|].
  pose proof (log_step_poll_loop (fun s => s) exit_bl_poll
                log_step_exit_bl_poll POLL_FUEL 0 ts1) as Hp.
  destruct (poll_loop POLL_FUEL exit_bl_poll 0 ts1) as [[retval tries] ts2].
  cbn [snd] in Hp.
  destruct (tries >=? CY_DELAY_MAX); cbn [snd];
    eapply log_step_trans; eauto.
Qed.

Lemma log_step_set_sysinfo_mode ts :
  Q (EvBusWrite CY_REG_BASE 1 [CY_SYSINFO_MODE]) ->
  log_step Q ts (snd (cyttsp_set_sysinfo_mode ts)).
Proof.
  intros Hq. unfold cyttsp_set_sysinfo_mode. cbv zeta.
  match goal with |- context [ttsp_write_block_data ?s ?c ?l (Some ?b)] =>
    pose proof (log_step_write s c l b ltac:(discriminate) Hq) as Hw;
    destruct (ttsp_write_block_data s c l (Some b)) as [w ts1] end.
  cbn [snd] in Hw.
  assert (Hw' : log_step Q ts ts1).
  { eapply log_step_trans; [|exact Hw]. now apply log_step_same_log. }
  destruct (w <? 0); [exact Hw'|].
  pose proof (log_step_poll_loop (fun s => s) sysinfo_poll
                log_step_sysinfo_poll POLL_FUEL 0 ts1) as Hp.
  destruct (poll_loop POLL_FUEL sysinfo_poll 0 ts1) as [[retval tries] ts2].
  cbn [snd] in Hp.
  destruct (tries >=? CY_DELAY_MAX); cbn [snd];
    eapply log_step_trans; eauto.
Qed.

Lemma log_step_set_sysinfo_regs ts :
  Q (EvBusWrite CY_REG_ACT_INTRVL 3
       [act_intrvl (platform_data ts); tch_tmout (platform_data ts);
        lp_intrvl (platform_data ts)]) ->
  log_step Q ts (snd (cyttsp_set_sysinfo_regs ts)).
Proof.
  intros Hq. unfold cyttsp_set_sysinfo_regs. cbv zeta.
  destruct (_ || _); [|apply log_step_refl].
  match goal with |- context [ttsp_write_block_data ?s ?c ?l (Some ?b)] =>
    pose proof (log_step_write s c l b ltac:(discriminate) Hq) as H;
    destruct (ttsp_write_block_data s c l (Some b)) as [r ts1] end.
  cbn [snd] in *. eapply log_step_trans; [exact H|apply log_step_msleep].
Qed.

Lemma log_step_set_operational_mode ts :
  Q (EvBusWrite CY_REG_BASE 1 [CY_OPERATE_MODE]) ->
  log_step Q ts (snd (cyttsp_set_operational_mode ts)).
Proof.
  intros Hq. unfold cyttsp_set_operational_mode. cbv zeta.
  pose proof (log_step_write ts CY_REG_BASE 1 [CY_OPERATE_MODE]
                ltac:(discriminate) Hq) as Hw.
  destruct (ttsp_write_block_data ts CY_REG_BASE 1 _) as [w ts1].
  cbn [snd] in Hw. destruct (w <? 0); [exact Hw|].
  pose proof (log_step_poll_loop snd operational_poll
                log_step_operational_poll POLL_FUEL 0
                (repeat 0 (Z.to_nat SIZEOF_XYDATA), ts1)) as Hp.
  destruct (poll_loop POLL_FUEL operational_poll 0 _)
    as [[retval tries] [xy ts2]].
  cbn [snd] in Hp.
  destruct (tries >=? CY_DELAY_MAX); cbn [snd];
    eapply log_step_trans; eauto.
Qed.

Lemma log_step_act_dist_setup ts :
  Q (EvBusWrite CY_REG_ACT_DIST 1 [act_dist (platform_data ts)]) ->
  log_step Q ts (snd (cyttsp_act_dist_setup ts)).
Proof.
  intros Hq. unfold cyttsp_act_dist_setup.
  now apply log_step_write.
Qed.

Lemma log_step_soft_reset ts :
  Q (EvBusWrite CY_REG_BASE 1 [CY_SOFT_RESET_MODE]) ->
  log_step Q ts (snd (cyttsp_soft_reset ts)).
Proof.
  intros Hq. unfold cyttsp_soft_reset. cbv zeta.
  pose proof (log_step_write ts CY_REG_BASE 1 [CY_SOFT_RESET_MODE]
                ltac:(discriminate) Hq) as Hw.
  destruct (ttsp_write_block_data ts CY_REG_BASE 1 _) as [w ts1].
  cbn [snd] in Hw. destruct (w <? 0); [exact Hw|].
  destruct (wait_for_completion_timeout _ _ _) as [r h'].
  eapply log_step_trans; [exact Hw|now apply log_step_same_log].
Qed.

(* the configuration steps: everything from no_bl_bypass on *)
Lemma log_step_no_bl_bypass ts :
  let pd := platform_data ts in
  Q (EvBusWrite CY_REG_BASE 1 [CY_SYSINFO_MODE]) ->
  Q (EvBusWrite CY_REG_ACT_INTRVL 3
       [act_intrvl pd; tch_tmout pd; lp_intrvl pd]) ->
  Q (EvBusWrite CY_REG_BASE 1 [CY_OPERATE_MODE]) ->
  Q (EvBusWrite CY_REG_ACT_DIST 1 [act_dist pd]) ->
  log_step Q ts (snd (power_on_no_bl_bypass ts)).
Proof.
  intros pd Q1 Q2 Q3 Q4. subst pd.
  unfold power_on_no_bl_bypass.
  pose proof (log_step_set_sysinfo_mode ts Q1) as L1.
  pose proof (io_step_set_sysinfo_mode ts) as I1.
  destruct (cyttsp_set_sysinfo_mode ts) as [r1 t1]. cbn [snd] in *.
  destruct (r1 <? 0);
    [eapply log_step_trans; [exact L1|apply log_step_pr_state]|].
  destruct I1 as (P1 & _). unfold power_on_sysinfo_regs.
  rewrite <- P1 in Q2, Q4.
  pose proof (log_step_set_sysinfo_regs t1 Q2) as L2.
  pose proof (io_step_set_sysinfo_regs t1) as I2.
  destruct (cyttsp_set_sysinfo_regs t1) as [r2 t2]. cbn [snd] in *.
  destruct (r2 <? 0);
    [eapply log_step_trans; [exact L1|];
     eapply log_step_trans; [exact L2|apply log_step_pr_state]|].
  destruct I2 as (P2 & _). unfold power_on_operational.
  rewrite <- P2 in Q4.
  pose proof (log_step_set_operational_mode t2 Q3) as L3.
  pose proof (io_step_set_operational_mode t2) as I3.
  destruct (cyttsp_set_operational_mode t2) as [r3 t3]. cbn [snd] in *.
  destruct (r3 <? 0);
    [eapply log_step_trans; [exact L1|];
     eapply log_step_trans; [exact L2|];
     eapply log_step_trans; [exact L3|apply log_step_pr_state]|].
  destruct I3 as (P3 & _). unfold power_on_act_dist.
  rewrite <- P3 in Q4.
  pose proof (log_step_act_dist_setup t3 Q4) as L4.
  destruct (cyttsp_act_dist_setup t3) as [r4 t4]. cbn [snd] in *.
  eapply log_step_trans; [exact L1|].
  eapply log_step_trans; [exact L2|].
  eapply log_step_trans; [exact L3|].
  eapply log_step_trans; [exact L4|].
  destruct (r4 <? 0); cbn [snd].
  - apply log_step_pr_state.
  - eapply log_step_trans; [|apply log_step_pr_state].
    now apply log_step_same_log.
Qed.

End LogSteps.

Section AttachTraffic.
Context {B : Type}.
Implicit Types (ts : cyttsp B) (h : B).

Lemma attach_event_passive pd e :
  is_input e = false -> is_bus_write e = false -> attach_event pd e.
Proof. intros Hi Hw. split; [exact Hi|]. rewrite Hw. discriminate. Qed.

Lemma attach_event_command pd e :
  In e (attach_commands pd) -> attach_event pd e.
Proof.
  intros H. split; [|auto].
  cbn [attach_commands In] in H.
  repeat (destruct H as [<- | H]; [reflexivity|]). destruct H.
Qed.

Lemma not_exit_passive e :
  is_input e = false -> is_bus_write e = false -> is_exit_bl_write e = false.
Proof. intros _ H. destruct e; cbn in *; auto; discriminate. Qed.

(* from the validity check to the end of attach *)
Lemma log_step_power_on_bl_app_valid (Q : event -> Prop) ts :
  (forall e, is_input e = false -> is_bus_write e = false -> Q e) ->
  (forall e, In e (tl (tl (attach_commands (platform_data ts)))) -> Q e) ->
  (fst (cyttsp_bl_app_valid ts) = 0 ->
   Q (EvBusWrite CY_REG_BASE (Z.of_nat SIZEOF_BL_COMMAND)
        (buf_bytes (build_bl_cmd (platform_data ts))))) ->
  log_step Q ts (snd (power_on_bl_app_valid ts)).
Proof.
  intros Qp Qc Qx. unfold power_on_bl_app_valid.
  pose proof (log_step_bl_app_valid Q Qp ts) as L0.
  pose proof (io_step_bl_app_valid ts) as I0.
  destruct (cyttsp_bl_app_valid ts) as [v t0]. cbn [fst snd] in *.
  destruct I0 as (P0 & _).
  assert (Hcfg : log_step Q t0 (snd (power_on_no_bl_bypass t0))).
  { apply log_step_no_bl_bypass; [exact Qp|..]; rewrite ?P0;
      apply Qc; cbn; auto 6. }
  destruct (Z.ltb_spec v 0) as [Hneg|Hneg];
    [eapply log_step_trans; [exact L0|now apply log_step_pr_state]|].
  destruct (Z.gtb_spec v 0) as [Hv|Hv];
    [eapply log_step_trans; [exact L0|exact Hcfg]|].
  destruct (Z.eqb_spec v 0) as [->|Hne]; [|lia].
  - unfold power_on_exit_bl. rewrite <- P0 in Qx.
    pose proof (log_step_exit_bl_mode Q Qp t0 (Qx eq_refl)) as L1.
    pose proof (io_step_exit_bl_mode t0) as I1.
    destruct (cyttsp_exit_bl_mode t0) as [r1 t1]. cbn [snd] in *.
    destruct I1 as (P1 & _).
    eapply log_step_trans; [exact L0|].
    eapply log_step_trans; [exact L1|].
    destruct (r1 <? 0); [now apply log_step_pr_state|].
    apply log_step_trans with (set_power_state t1 CY_IDLE_STATE);
      [now apply log_step_same_log|].
    apply log_step_no_bl_bypass; [exact Qp|..];
      cbn [platform_data set_power_state]; rewrite ?P1, ?P0;
      apply Qc; cbn; auto 6.
Qed.

Lemma log_step_power_on (Q : event -> Prop) ts :
  (forall e, is_input e = false -> is_bus_write e = false -> Q e) ->
  (forall e, In e (attach_commands (platform_data ts)) -> e <>
     EvBusWrite CY_REG_BASE (Z.of_nat SIZEOF_BL_COMMAND)
       (buf_bytes (build_bl_cmd (platform_data ts))) -> Q e) ->
  (forall irq h ready ts1,
     request_threaded_irq (kernel ts) (hw ts) = (irq, h) ->
     cyttsp_soft_reset (set_hw (set_power_state ts CY_BL_STATE) h)
       = (ready, ts1) ->
     0 <= irq -> ready <> 0 -> fst (cyttsp_bl_app_valid ts1) = 0 ->
     Q (EvBusWrite CY_REG_BASE (Z.of_nat SIZEOF_BL_COMMAND)
          (buf_bytes (build_bl_cmd (platform_data ts))))) ->
  exists ts', snd (cyttsp_power_on (Some ts)) = Some ts' /\ log_step Q ts ts'.
Proof.
  intros Qp Qc Qx. unfold cyttsp_power_on.
  cbn [kernel hw set_power_state].
  destruct (request_threaded_irq (kernel ts) (hw ts)) as [irq h] eqn:Eirq.
  specialize (Qx irq h).
  assert (Hs0 : log_step Q ts (set_hw (set_power_state ts CY_BL_STATE) h))
    by now apply log_step_same_log.
  destruct (Z.ltb_spec irq 0) as [Hirq|Hirq].
  - eexists. split; [reflexivity|].
    eapply log_step_trans; [exact Hs0|now apply log_step_pr_state].
  - pose proof (log_step_soft_reset Q Qp
                  (set_hw (set_power_state ts CY_BL_STATE) h)) as L1.
    pose proof (cyttsp_soft_reset_power
                  (set_hw (set_power_state ts CY_BL_STATE) h)) as Hbl.
    assert (Hpd : platform_data
                    (snd (cyttsp_soft_reset
                            (set_hw (set_power_state ts CY_BL_STATE) h)))
                  = platform_data ts).
    { unfold cyttsp_soft_reset. cbv zeta.
      pose proof (io_step_write (set_hw (set_power_state ts CY_BL_STATE) h)
                    CY_REG_BASE 1 [CY_SOFT_RESET_MODE] ltac:(discriminate))
        as H.
      destruct (ttsp_write_block_data _ CY_REG_BASE 1 _) as [r t1].
      cbn [snd] in H. destruct H as (H & _).
      destruct (r <? 0); [exact H|].
      destruct (wait_for_completion_timeout _ _ _) as [w h']. exact H. }
    match goal with
    | |- context [cyttsp_soft_reset ?x] =>
        change (set_hw (set_power_state ts CY_BL_STATE) h) with x in *;
        destruct (cyttsp_soft_reset x) as [ready ts1] eqn:Ereset
    end.
    cbn [snd] in *. specialize (Qx ready ts1 eq_refl eq_refl Hirq).
    assert (L01 : log_step Q ts ts1).
    { eapply log_step_trans; [exact Hs0|]. apply L1. apply Qc.
      - cbn. auto.
      - discriminate. }
    destruct (Z.eqb_spec ready 0) as [Hr|Hr].
    + eexists. split; [reflexivity|].
      eapply log_step_trans; [exact L01|now apply log_step_pr_state].
    + pose proof (log_step_power_on_bl_app_valid Q ts1 Qp) as L2.
      destruct (power_on_bl_app_valid ts1) as [r ts'].
      eexists. split; [reflexivity|].
      eapply log_step_trans; [exact L01|]. apply L2.
      * rewrite Hpd. intros e He. apply Qc.
        -- cbn [attach_commands tl In] in He |- *. tauto.
        -- cbn [attach_commands tl In] in He.
           repeat (destruct He as [<- | He]; [discriminate|]). destruct He.
      * rewrite Hpd. exact (Qx Hr).
Qed.

(** X12. Whatever the bus and the kernel answer, attach reports
    nothing to the input core and writes nothing to the bus but its
    six commands: the reset byte, the exit-bootloader command, the
    system-information mode byte, the three interval bytes at 0x1D,
    the operational mode byte and the active-distance byte at 0x1E. *)
Theorem cyttsp_power_on_traffic ts :
  exists ts' l,
    snd (cyttsp_power_on (Some ts)) = Some ts' /\
    log ts' = log ts ++ l /\
    Forall (attach_event (platform_data ts)) l.
Proof.
  destruct (log_step_power_on (attach_event (platform_data ts)) ts)
    as (ts' & Hs & l & Hl & Hall).
  - apply attach_event_passive.
  - intros e He _. now apply attach_event_command.
  - intros. apply attach_event_command. cbn. auto.
  - now exists ts', l.
Qed.

(** X13. Attach writes the exit-bootloader command only when it has
    reached the validity check and the check returned 0: if the
    interrupt cannot be registered, the reset wait times out, or the
    check fails or finds the application running, no write of the
    11-byte command appears on the bus. *)
Theorem cyttsp_power_on_exit_command ts :
  let '(irq, h) := request_threaded_irq (kernel ts) (hw ts) in
  let '(ready, ts1) :=
    cyttsp_soft_reset (set_hw (set_power_state ts CY_BL_STATE) h) in
  irq < 0 \/ ready = 0 \/ fst (cyttsp_bl_app_valid ts1) <> 0 ->
  exists ts' l,
    snd (cyttsp_power_on (Some ts)) = Some ts' /\
    log ts' = log ts ++ l /\
    filter is_exit_bl_write l = [].
Proof.
  destruct (request_threaded_irq (kernel ts) (hw ts)) as [irq h] eqn:Eirq.
  destruct (cyttsp_soft_reset (set_hw (set_power_state ts CY_BL_STATE) h))
    as [ready ts1] eqn:Ereset.
  intros Hskip.
  destruct (log_step_power_on (fun e => is_exit_bl_write e = false) ts)
    as (ts' & Hs & l & Hl & Hall).
  - apply not_exit_passive.
  - intros e He Hne. cbn [attach_commands In] in He.
    destruct He as [<- | [<- | [<- | [<- | [<- | [<- | []]]]]]];
      try reflexivity.
    contradiction.
  - intros irq' h' ready' ts1' E1 E2 Hi Hr Hv.
    rewrite Eirq in E1. injection E1 as <- <-.
    rewrite Ereset in E2. injection E2 as <- <-.
    exfalso. destruct Hskip as [H | [H | H]]; [lia|contradiction|contradiction].
  - exists ts', l. split; [exact Hs|]. split; [exact Hl|].
    clear - Hall. induction Hall as [|e l He _ IH]; [reflexivity|].
    cbn [filter]. now rewrite He.
Qed.

(** X14. Attach never returns a positive value.  It returns 0 in two
    cases only: with PowerState Active, or, when the wait after the
    soft reset timed out, with PowerState Bootloader; a NULL session
    gives -ENOMEM. *)
Theorem cyttsp_power_on_results ts :
  cyttsp_power_on (@None (cyttsp B)) = (- ENOMEM, None) /\
  exists r ts',
    cyttsp_power_on (Some ts) = (r, Some ts') /\
    r <= 0 /\
    (power_state ts' = CY_ACTIVE_STATE -> r = 0) /\
    (r = 0 ->
     power_state ts' = CY_ACTIVE_STATE \/
     (power_state ts' = CY_BL_STATE /\
      fst (cyttsp_soft_reset
             (set_hw (set_power_state ts CY_BL_STATE)
                     (snd (request_threaded_irq (kernel ts) (hw ts))))) = 0)).
Proof.
  split; [reflexivity|].
  unfold cyttsp_power_on. cbn [kernel hw set_power_state].
  destruct (request_threaded_irq (kernel ts) (hw ts)) as [irq h].
  cbn [snd].
  pose proof (cyttsp_soft_reset_power
                (set_hw (set_power_state ts CY_BL_STATE) h)) as Hbl.
  cbn [set_hw set_power_state power_state] in Hbl.
  destruct (Z.ltb_spec irq 0) as [Hirq|Hirq].
  - eexists. eexists. split; [reflexivity|]. cbn.
    repeat split; try lia; discriminate.
  - match goal with
    | |- context [cyttsp_soft_reset ?x] =>
        match type of Hbl with
        | context [cyttsp_soft_reset ?y] => change y with x in Hbl
        end;
        destruct (cyttsp_soft_reset x) as [ready ts1]
    end.
    cbn [fst snd] in *.
    destruct (Z.eqb_spec ready 0) as [->|Hr].
    + eexists. eexists. split; [reflexivity|].
      cbn [cyttsp_pr_state emit power_state]. rewrite Hbl.
      repeat split; try lia; try discriminate. right. auto.
    + pose proof (power_on_from_outcome ts1 BlAppValid false ts1 Hbl
                    (reach_bl_app_valid ts1)) as O.
      cbn [power_on_from] in O.
      destruct (power_on_bl_app_valid ts1) as [r ts']. cbn [fst snd] in O.
      exists r, ts'. split; [reflexivity|].
      destruct O as [[Hneg Hn] | (-> & ex & s & e & s' & _ & _ & _ & ->)].
      * repeat split; try lia. intros; contradiction.
      * repeat split; try lia. intros _. left. reflexivity.
Qed.

End AttachTraffic.

Section Resume.
Context {B : Type}.
Implicit Types (ts : cyttsp B) (h : B) (wakeup : option (B -> Z * B)).

Lemma cyttsp_resume_sleeping wakeup ts :
  use_sleep (platform_data ts) = true ->
  power_state ts <> CY_ACTIVE_STATE ->
  cyttsp_resume wakeup (Some ts) =
  if fst (resume_wakeup wakeup ts) <? 0
  then (fst (resume_wakeup wakeup ts), Some (snd (resume_wakeup wakeup ts)))
  else (fst (fst (resume_read wakeup ts)),
        Some (if woke_up wakeup ts
              then set_power_state (snd (resume_read wakeup ts))
                                   CY_ACTIVE_STATE
              else snd (resume_read wakeup ts))).
Proof.
  intros Hs Hna. unfold cyttsp_resume, woke_up, resume_read. rewrite Hs.
  destruct (powerstate_eqb_spec (power_state ts) CY_ACTIVE_STATE);
    [contradiction|].
  cbn [andb negb]. fold (resume_wakeup wakeup ts).
  destruct (resume_wakeup wakeup ts) as [r ts1]. cbn [fst snd].
  rewrite Z.geb_leb.
  destruct (Z.leb_spec 0 r) as [Hr|Hr], (Z.ltb_spec r 0) as [Hr'|Hr'];
    try lia; [|reflexivity].
  destruct (ttsp_read_block_data ts1 CY_REG_BASE SIZEOF_XYDATA frame_buf)
    as [[r2 xy] ts2].
  cbn [fst snd andb]. rewrite Z.geb_leb.
  now destruct ((0 <=? r2) && (GET_HSTMODE (hst_mode xy) =? 0)).
Qed.

Lemma cyttsp_resume_awake wakeup ts :
  use_sleep (platform_data ts) = false \/ power_state ts = CY_ACTIVE_STATE ->
  cyttsp_resume wakeup (Some ts) = (0, Some ts).
Proof.
  intros H. unfold cyttsp_resume. destruct H as [-> | ->]; [reflexivity|].
  cbn [powerstate_eqb negb]. now rewrite andb_false_r.
Qed.

(** X15. cyttsp_resume does nothing and returns 0 on a NULL handle,
    when sleep is not configured, and when PowerState is Active.
    Otherwise it calls the platform's wakeup: without one it fails
    with -ENOSYS and the session is untouched; if the wakeup fails its
    error is returned and the bus is not touched.  In every case the
    bus sees only reads, nothing is reported to the input core, and
    PowerState is what it was or Active. *)
Theorem cyttsp_resume_effects wakeup ts :
  cyttsp_resume wakeup None = (0, None) /\
  (use_sleep (platform_data ts) = false \/ power_state ts = CY_ACTIVE_STATE ->
   cyttsp_resume wakeup (Some ts) = (0, Some ts)) /\
  (use_sleep (platform_data ts) = true -> power_state ts <> CY_ACTIVE_STATE ->
   (wakeup = None -> cyttsp_resume wakeup (Some ts) = (- ENOSYS, Some ts)) /\
   (fst (resume_wakeup wakeup ts) < 0 ->
    cyttsp_resume wakeup (Some ts) =
      (fst (resume_wakeup wakeup ts), Some (snd (resume_wakeup wakeup ts))) /\
    log (snd (resume_wakeup wakeup ts)) = log ts)) /\
  exists r ts' l,
    cyttsp_resume wakeup (Some ts) = (r, Some ts') /\
    log ts' = log ts ++ l /\ forallb is_read_or_sleep l = true /\
    (power_state ts' = power_state ts \/ power_state ts' = CY_ACTIVE_STATE).
Proof.
  split; [reflexivity|]. split; [apply cyttsp_resume_awake|]. split.
  - intros Hs Hna. split.
    + intros ->. rewrite (cyttsp_resume_sleeping None ts Hs Hna).
      reflexivity.
    + intros Hw. rewrite (cyttsp_resume_sleeping wakeup ts Hs Hna).
      replace (fst (resume_wakeup wakeup ts) <? 0) with true
        by (symmetry; apply Z.ltb_lt; lia).
      split; [reflexivity|]. unfold resume_wakeup.
      destruct wakeup as [w|]; [|reflexivity]. now destruct (w (hw ts)).
  - destruct (use_sleep (platform_data ts)) eqn:Hs;
      [destruct (powerstate_eqb_spec (power_state ts) CY_ACTIVE_STATE)
         as [Ha|Hna]|].
    + rewrite cyttsp_resume_awake by auto.
      exists 0, ts, []. rewrite app_nil_r. auto.
    + rewrite (cyttsp_resume_sleeping wakeup ts Hs Hna).
      assert (Hw : log (snd (resume_wakeup wakeup ts)) = log ts /\
                   power_state (snd (resume_wakeup wakeup ts))
                   = power_state ts).
      { unfold resume_wakeup. destruct wakeup as [w|]; [|auto].
        now destruct (w (hw ts)). }
      destruct Hw as [Hwl Hwp].
      destruct (fst (resume_wakeup wakeup ts) <? 0).
      * eexists. eexists. exists []. split; [reflexivity|].
        rewrite app_nil_r. auto.
      * pose proof (ttsp_read_block_data_effects
                      (snd (resume_wakeup wakeup ts)) CY_REG_BASE
                      SIZEOF_XYDATA frame_buf) as R.
        fold (resume_read wakeup ts) in R.
        destruct R as (_ & _ & _ & _ & _ & Hp & l & Hl & Hall).
        eexists. eexists. exists l. split; [reflexivity|].
        destruct (woke_up wakeup ts);
          cbn [log power_state set_power_state];
          rewrite Hl, Hwl; repeat split; auto.
        left. now rewrite Hp.
    + rewrite cyttsp_resume_awake by auto.
      exists 0, ts, []. rewrite app_nil_r. auto.
Qed.

(** X16. Suspend followed by resume.  From PowerState Active with
    sleep configured: if the sleep write fails the session is still
    Active and resume does nothing; if it succeeds the session is in
    Sleep, and resume brings it back to Active exactly when the wakeup
    call did not fail and the frame then read back shows the
    operational host mode - otherwise it stays in Sleep. *)
Theorem cyttsp_suspend_resume wakeup ts :
  use_sleep (platform_data ts) = true ->
  power_state ts = CY_ACTIVE_STATE ->
  let '(rs, ts1) := cyttsp_suspend ts in
  exists rr ts2,
    cyttsp_resume wakeup (Some ts1) = (rr, Some ts2) /\
    (rs < 0 -> power_state ts1 = CY_ACTIVE_STATE /\ rr = 0 /\ ts2 = ts1) /\
    (0 <= rs ->
     power_state ts1 = CY_SLEEP_STATE /\
     power_state ts2 =
       if woke_up wakeup ts1 then CY_ACTIVE_STATE else CY_SLEEP_STATE).
Proof.
  intros Hs Ha.
  destruct (cyttsp_suspend ts) as [rs ts1] eqn:Esus.
  rewrite (cyttsp_suspend_active ts Hs Ha) in Esus.
  pose proof (io_step_write ts CY_REG_BASE 1
                [Z.b2z (use_sleep (platform_data ts))]
                ltac:(discriminate)) as W.
  fold (sleep_write ts) in W. destruct W as (Wpd & _ & _ & Wp & _).
  injection Esus as <- <-.
  assert (Hp1 : power_state
                  (if fst (sleep_write ts) >=? 0
                   then set_power_state (snd (sleep_write ts)) CY_SLEEP_STATE
                   else snd (sleep_write ts))
                = if fst (sleep_write ts) <? 0
                  then CY_ACTIVE_STATE else CY_SLEEP_STATE).
  { rewrite Z.geb_leb.
    destruct (Z.leb_spec 0 (fst (sleep_write ts))),
             (Z.ltb_spec (fst (sleep_write ts)) 0); try lia;
      cbn [power_state set_power_state]; congruence. }
  assert (Hpd : use_sleep
                  (platform_data
                     (if fst (sleep_write ts) >=? 0
                      then set_power_state (snd (sleep_write ts))
                                           CY_SLEEP_STATE
                      else snd (sleep_write ts))) = true).
  { destruct (fst (sleep_write ts) >=? 0);
      cbn [platform_data set_power_state]; now rewrite Wpd. }
  remember (if fst (sleep_write ts) >=? 0
            then set_power_state (snd (sleep_write ts)) CY_SLEEP_STATE
            else snd (sleep_write ts)) as ts1 eqn:Ets1.
  remember (fst (sleep_write ts)) as rs eqn:Ers.
  clear Ets1 Ers.
  destruct (Z.ltb_spec rs 0) as [Hneg|Hpos].
  - rewrite (cyttsp_resume_awake wakeup ts1) by auto.
    exists 0, ts1. split; [reflexivity|]. split; [auto|lia].
  - assert (Hna : power_state ts1 <> CY_ACTIVE_STATE)
      by (rewrite Hp1; discriminate).
    rewrite (cyttsp_resume_sleeping wakeup ts1 Hpd Hna).
    assert (Hwp : power_state (snd (resume_wakeup wakeup ts1))
                  = power_state ts1).
    { unfold resume_wakeup. destruct wakeup as [w|]; [|auto].
      now destruct (w (hw ts1)). }
    destruct (Z.ltb_spec (fst (resume_wakeup wakeup ts1)) 0) as [Hw|Hw].
    + eexists. eexists. split; [reflexivity|]. split; [lia|].
      intros _. split; [exact Hp1|].
      unfold woke_up.
      replace (0 <=? fst (resume_wakeup wakeup ts1)) with false
        by (symmetry; apply Z.leb_gt; lia).
      cbn [andb]. now rewrite Hwp.
    + eexists. eexists. split; [reflexivity|]. split; [lia|].
      intros _. split; [exact Hp1|].
      destruct (woke_up wakeup ts1); [reflexivity|].
      pose proof (ttsp_read_block_data_effects
                    (snd (resume_wakeup wakeup ts1)) CY_REG_BASE
                    SIZEOF_XYDATA frame_buf) as R.
      fold (resume_read wakeup ts1) in R.
      destruct R as (_ & _ & _ & _ & _ & Hp & _).
      now rewrite Hp, Hwp.
Qed.

End Resume.

Section SpiBus.
Context {S : Type}.
Variable spi_sync : S -> list Z -> Z -> Z * list Z * list Z * S.

Lemma cyttsp_spi_xfer_results op s reg buf length :
  let '(r, stored, s') := cyttsp_spi_xfer spi_sync op s reg buf length in
  (CY_SPI_DATA_SIZE < length /\ r = - EINVAL /\ s' = s /\ stored = []) \/
  (length <= CY_SPI_DATA_SIZE /\ (r = 0 \/ r = 1)).
Proof.
  unfold cyttsp_spi_xfer.
  destruct (Z.gtb_spec length CY_SPI_DATA_SIZE) as [H|H]; [left; auto|].
  cbv zeta. destruct (spi_sync _ _ _) as [[[retval rx0] rx1] s'].
  destruct (_ && _); right; auto.
Qed.

(** X17. Over SPI a block transfer returns 0, -EIO or -EINVAL and
    nothing else: -EINVAL exactly when more than 128 bytes are asked
    for, in which case the SPI master is not used at all; the return
    code of spi_sync itself never reaches the caller. *)
Theorem ttsp_spi_block_data_results s addr length data :
  let '(rr, _, sr) := ttsp_spi_read_block_data spi_sync s addr length in
  let '(rw, sw) := ttsp_spi_write_block_data spi_sync s addr length data in
  (rr = 0 \/ rr = - EIO \/ rr = - EINVAL) /\
  (rw = 0 \/ rw = - EIO \/ rw = - EINVAL) /\
  (rr = - EINVAL <-> CY_SPI_DATA_SIZE < length) /\
  (rw = - EINVAL <-> CY_SPI_DATA_SIZE < length) /\
  (CY_SPI_DATA_SIZE < length -> sr = s /\ sw = s).
Proof.
  unfold ttsp_spi_read_block_data, ttsp_spi_write_block_data.
  pose proof (cyttsp_spi_xfer_results CY_SPI_RD_OP s addr [] length) as R.
  pose proof (cyttsp_spi_xfer_results CY_SPI_WR_OP s addr data length) as W.
  destruct (cyttsp_spi_xfer spi_sync CY_SPI_RD_OP s addr [] length)
    as [[rr st] sr].
  destruct (cyttsp_spi_xfer spi_sync CY_SPI_WR_OP s addr data length)
    as [[rw st'] sw].
  unfold EINVAL, EIO in *.
  destruct R as [(Hl & -> & -> & _) | (Hl & [-> | ->])];
    destruct W as [(Hl' & -> & -> & _) | (Hl' & [-> | ->])];
    cbn; repeat split; auto; try lia; intros; try lia; try discriminate.
Qed.

End SpiBus.

Section SpiFrames.
Context {S : Type}.
Variable spi_sync : S -> list Z -> Z -> Z * list Z * list Z * S.

Lemma store_bytes_zero_nth n l i :
  (i < n)%nat -> nth i (store_bytes (repeat 0 n) l) 0 = u8 (nth i l 0).
Proof.
  intros Hi. unfold store_bytes. rewrite repeat_length, nth_firstn.
  replace (i <? n)%nat with true by (symmetry; apply Nat.ltb_lt; lia).
  destruct (Nat.lt_ge_cases i (length l)) as [Hl|Hl].
  - rewrite app_nth1 by (now rewrite length_map).
    change 0 with (u8 0) at 1. apply map_nth.
  - rewrite app_nth2 by (rewrite length_map; lia).
    rewrite (nth_overflow l) by lia.
    destruct (nth_in_or_default (i - length (map u8 l))
                (skipn (length l) (repeat 0 n)) 0) as [Hin | ->];
      [|reflexivity].
    assert (Hall : Forall (fun x => x = 0) (skipn (length l) (repeat 0 n))).
    { apply Forall_skipn, Forall_forall. intros x Hx.
      now apply repeat_spec in Hx. }
    rewrite Forall_forall in Hall. now apply Hall.
Qed.

Lemma firstn_store_zero n m D :
  List.length D = n -> (n <= m)%nat ->
  firstn n (store_bytes (repeat 0 m) D) = map u8 D.
Proof.
  intros Hd Hm. unfold store_bytes. rewrite repeat_length.
  rewrite firstn_firstn, Nat.min_l by lia.
  rewrite <- Hd, <- (length_map u8 D) at 1.
  rewrite firstn_app, Nat.sub_diag, firstn_all, firstn_O.
  apply app_nil_r.
Qed.

Lemma spi_ack_rd_buf n rx :
  (4 <= n)%nat ->
  (byte_at (store_bytes (repeat 0 (Z.to_nat CY_SPI_DATA_BUF_SIZE))
                        (firstn n rx)) CY_SPI_SYNC_BYTE
     =? CY_SPI_SYNC_ACK1)
  && (byte_at (store_bytes (repeat 0 (Z.to_nat CY_SPI_DATA_BUF_SIZE))
                           (firstn n rx)) (CY_SPI_SYNC_BYTE + 1)
        =? CY_SPI_SYNC_ACK2)
  = spi_ack rx.
Proof.
  intros Hn. unfold byte_at, spi_ack, CY_SPI_SYNC_BYTE.
  rewrite !store_bytes_zero_nth
    by (change (Z.to_nat CY_SPI_DATA_BUF_SIZE) with 132%nat; cbn; lia).
  rewrite !nth_firstn. cbn [Nat.add].
  replace (2 <? n)%nat with true by (symmetry; apply Nat.ltb_lt; lia).
  replace (3 <? n)%nat with true by (symmetry; apply Nat.ltb_lt; lia).
  reflexivity.
Qed.

(** X18. The SPI frame.  A read of at most 128 bytes sends the four
    command bytes 0x00 0xFF register 0x01 and then receives the block;
    a write sends 0x00 0xFF register 0x00 followed by the data.  The
    transfer succeeds, with result 0, exactly when the device answered
    the command bytes with the sync bytes 0x62 0x9D in positions 2 and
    3; otherwise the result is -EIO.  Whether spi_sync itself reported
    an error plays no part. *)
Theorem ttsp_spi_block_data_frames s addr length data :
  0 <= length <= CY_SPI_DATA_SIZE ->
  (Z.to_nat length <= List.length data)%nat ->
  (let '(_, rx0, rx1, s') :=
     spi_sync s (spi_header addr CY_SPI_RD_OP) length in
   ttsp_spi_read_block_data spi_sync s addr length =
   (if spi_ack rx0 then 0 else - EIO,
    map u8 (firstn (Z.to_nat length) rx1), s')) /\
  (let '(_, rx0, _, s') :=
     spi_sync s (spi_header addr CY_SPI_WR_OP
                 ++ map u8 (firstn (Z.to_nat length) data)) 0 in
   ttsp_spi_write_block_data spi_sync s addr length data =
   (if spi_ack rx0 then 0 else - EIO, s')).
Proof.
  intros Hlen Hdata. unfold CY_SPI_DATA_SIZE in *.
  assert (Hgt : (length >? 128) = false)
    by (rewrite Z.gtb_ltb; apply Z.ltb_ge; lia).
  split.
  - unfold ttsp_spi_read_block_data, cyttsp_spi_xfer.
    unfold CY_SPI_DATA_SIZE. rewrite Hgt. cbv zeta.
    change (CY_SPI_RD_OP =? CY_SPI_WR_OP) with false.
    change (CY_SPI_RD_OP =? CY_SPI_RD_OP) with true. cbv iota.
    change (firstn (Z.to_nat CY_SPI_CMD_BYTES)
              (store_bytes (repeat 0 (Z.to_nat CY_SPI_DATA_BUF_SIZE))
                 [0; 255; addr; CY_SPI_RD_OP]))
      with (spi_header addr CY_SPI_RD_OP).
    destruct (spi_sync s (spi_header addr CY_SPI_RD_OP) length)
      as [[[rc rx0] rx1] s'].
    rewrite spi_ack_rd_buf by (cbn; lia).
    now destruct (spi_ack rx0).
  - unfold ttsp_spi_write_block_data, cyttsp_spi_xfer.
    unfold CY_SPI_DATA_SIZE. rewrite Hgt. cbv zeta.
    change (CY_SPI_WR_OP =? CY_SPI_WR_OP) with true.
    change (CY_SPI_WR_OP =? CY_SPI_RD_OP) with false. cbv iota.
    change (firstn (Z.to_nat CY_SPI_CMD_BYTES)
              (store_bytes (repeat 0 (Z.to_nat CY_SPI_DATA_BUF_SIZE))
                 [0; 255; addr; CY_SPI_WR_OP]))
      with (spi_header addr CY_SPI_WR_OP).
    change (skipn (Z.to_nat CY_SPI_CMD_BYTES)
              (store_bytes (repeat 0 (Z.to_nat CY_SPI_DATA_BUF_SIZE))
                 [0; 255; addr; CY_SPI_WR_OP]))
      with (repeat 0 128).
    assert (Htx : firstn (Z.to_nat (length + CY_SPI_CMD_BYTES))
                    (spi_header addr CY_SPI_WR_OP
                     ++ store_bytes (repeat 0 128)
                          (firstn (Z.to_nat length) data))
                  = spi_header addr CY_SPI_WR_OP
                    ++ map u8 (firstn (Z.to_nat length) data)).
    { replace (Z.to_nat (length + CY_SPI_CMD_BYTES))
        with (List.length (spi_header addr CY_SPI_WR_OP)
              + Z.to_nat length)%nat
        by (unfold CY_SPI_CMD_BYTES; cbn [List.length spi_header]; lia).
      rewrite firstn_app_2. f_equal.
      apply firstn_store_zero; [|lia].
      rewrite length_firstn. lia. }
    rewrite Htx.
    destruct (spi_sync s _ 0) as [[[rc rx0] rx1] s'].
    rewrite spi_ack_rd_buf
      by (unfold CY_SPI_CMD_BYTES; lia).
    now destruct (spi_ack rx0).
Qed.

End SpiFrames.

Section CoreOverSpi.
Context {S : Type}.
Variable spi_sync : S -> list Z -> Z -> Z * list Z * list Z * S.

Lemma spi_xfer_rc kind command len buf (s : S) :
  let r := fst (bus_xfer kind (spi_bus_ops spi_sync) command len buf s) in
  (CY_SPI_DATA_SIZE < len /\ r = - EINVAL) \/
  (len <= CY_SPI_DATA_SIZE /\ (r = 0 \/ r = - EIO)).
Proof.
  destruct kind; cbn [bus_xfer spi_bus_ops read write].
  - unfold ttsp_spi_read_block_data.
    pose proof (cyttsp_spi_xfer_results spi_sync CY_SPI_RD_OP s command []
                  len) as R.
    destruct (cyttsp_spi_xfer spi_sync CY_SPI_RD_OP s command [] len)
      as [[r st] s'].
    cbn [fst].
    destruct R as [(Hl & -> & _) | (Hl & [-> | ->])]; cbn; auto.
  - unfold ttsp_spi_write_block_data.
    pose proof (cyttsp_spi_xfer_results spi_sync CY_SPI_WR_OP s command buf
                  len) as R.
    destruct (cyttsp_spi_xfer spi_sync CY_SPI_WR_OP s command buf len)
      as [[r st] s'].
    cbn [fst].
    destruct R as [(Hl & -> & _) | (Hl & [-> | ->])]; cbn; auto.
Qed.

Lemma spi_nth_rc kind command len buf i : forall (s : S),
  let r := nth_rc (bus_xfer kind (spi_bus_ops spi_sync) command len buf) s i in
  (CY_SPI_DATA_SIZE < len /\ r = - EINVAL) \/
  (len <= CY_SPI_DATA_SIZE /\ (r = 0 \/ r = - EIO)).
Proof.
  induction i as [|i IH]; intros s; cbn [nth_rc].
  - apply spi_xfer_rc.
  - apply IH.
Qed.

(** X19. The core's transport over the SPI interface: a block read or
    write of 1 to 128 bytes returns 0 or -EIO, and -EIO only after all
    four attempts failed; a longer one returns -EINVAL, also after
    four attempts, each refused without an SPI transfer.  No positive
    value ever comes back, so no failed attempt goes unretried. *)
Theorem ttsp_block_data_over_spi kind (ts : cyttsp S) command len buf :
  bus_ops ts = spi_bus_ops spi_sync -> len <> 0 ->
  let '(r, ts') := ttsp_block_data kind ts command len buf in
  let calls := count is_bus_call (skipn (length (log ts)) (log ts')) in
  (len <= CY_SPI_DATA_SIZE -> r = 0 \/ (r = - EIO /\ calls = 4%nat)) /\
  (CY_SPI_DATA_SIZE < len -> r = - EINVAL /\ calls = 4%nat).
Proof.
  intros Hops Hlen.
  assert (O : let '(r, ts') := ttsp_block_data kind ts command len buf in
              exists m, (m < 4)%nat /\
                r = nth_rc (bus_xfer kind (bus_ops ts) command len buf)
                           (hw ts) m /\
                ((m < 3)%nat -> 0 <= r) /\
                log ts' = log ts
                          ++ attempts_log (bus_event kind command len buf) m r).
  { destruct kind; unfold ttsp_block_data, ttsp_read_block_data,
      ttsp_write_block_data;
      replace (len =? 0) with false by (symmetry; apply Z.eqb_neq; lia).
    - pose proof (read_retry_outcome (Z.to_nat CY_NUM_RETRY) 0 (-1) ts
                    command len buf ltac:(lia) ltac:(simpl; lia) eq_refl)
        as R.
      cbv zeta in R. destruct (read_retry _ _ _ _ _ _ _) as [[r b'] ts'].
      destruct R as (m & Hm & Hr & _ & Hpos & Hlog).
      exists m. change (Z.to_nat CY_NUM_RETRY) with 4%nat in *.
      repeat split; auto. intros; apply Hpos; lia.
    - pose proof (write_retry_outcome (Z.to_nat CY_NUM_RETRY) 0 (-1) ts
                    command len buf ltac:(lia) ltac:(simpl; lia) eq_refl)
        as R.
      cbv zeta in R. destruct (write_retry _ _ _ _ _ _ _) as [r ts'].
      destruct R as (m & Hm & Hr & _ & Hpos & Hlog).
      exists m. change (Z.to_nat CY_NUM_RETRY) with 4%nat in *.
      repeat split; auto. intros; apply Hpos; lia. }
  destruct (ttsp_block_data kind ts command len buf) as [r ts'].
  destruct O as (m & Hm & Hr & Hpos & Hlog).
  rewrite Hops in Hr.
  pose proof (spi_nth_rc kind command len buf m (hw ts)) as Hrc.
  cbv zeta in Hrc. rewrite <- Hr in Hrc. cbv zeta.
  assert (Hcalls : count is_bus_call (skipn (length (log ts)) (log ts'))
                   = Datatypes.S m).
  { rewrite Hlog, skipn_app, Nat.sub_diag, skipn_all. cbn [app skipn].
    unfold attempts_log. rewrite count_app.
    destruct (count_failed_attempts kind command len buf m) as [-> _].
    unfold count. destruct kind, (r =? 0); cbn; lia. }
  rewrite Hcalls. unfold EINVAL, EIO in *.
  split; intros Hl; destruct Hrc as [(Hl' & ->) | (Hl' & [-> | ->])];
    try lia; auto.
Qed.

End CoreOverSpi.

Section Init.
Context {B : Type}.

Lemma cyttsp_core_init_shape env (ops : option (cyttsp_bus_ops B)) dev k h
    irq :
  let '(ts, obj, calls) := cyttsp_core_init env ops dev k h irq in
  ts = kzalloc_ts env /\
  ((ts = 0 /\ obj = None /\ calls = []) \/
   (ts <> 0 /\ obj = None /\ (exists c, calls = c ++ [KFree ts]) /\
    forall o d, ops = Some o -> dev = Some d ->
                init_succeeds env d irq = false) \/
   (ts <> 0 /\
    exists o d, ops = Some o /\ dev = Some d /\
      init_succeeds env d irq = true /\
      obj = Some (zeroed_session (dev_platform_data d) o k h) /\
      calls = init_calls d)).
Proof.
  unfold cyttsp_core_init, init_succeeds, init_calls.
  destruct (Z.eqb_spec (kzalloc_ts env) 0) as [Hz|Hz];
    [split; [reflexivity|]; left; auto|].
  cbn [negb andb].
  destruct dev as [d|], ops as [o|]; cbv zeta;
    try (split; [reflexivity|]; right; left;
         repeat split; auto; [now exists []|intros; discriminate]).
  assert (Fail : forall c,
            init_succeeds env d irq = false ->
            kzalloc_ts env = kzalloc_ts env /\
            ((kzalloc_ts env = 0 /\ @None (cyttsp B) = None /\
              c ++ [KFree (kzalloc_ts env)] = []) \/
             (kzalloc_ts env <> 0 /\ @None (cyttsp B) = None /\
              (exists c0, c ++ [KFree (kzalloc_ts env)]
                          = c0 ++ [KFree (kzalloc_ts env)]) /\
              forall o0 d0, Some o = Some o0 -> Some d = Some d0 ->
                            init_succeeds env d0 irq = false) \/
             (kzalloc_ts env <> 0 /\
              exists o0 d0, Some o = Some o0 /\ Some d = Some d0 /\
                init_succeeds env d0 irq = true /\
                @None (cyttsp B)
                = Some (zeroed_session (dev_platform_data d0) o0 k h) /\
                c ++ [KFree (kzalloc_ts env)] = init_calls d0))).
  { intros c Hf. split; [reflexivity|]. right. left.
    repeat split; auto; [now exists c|]. now intros o0 d0 _ [= <-]. }
  unfold init_succeeds, init_calls in Fail.
  replace (kzalloc_ts env =? 0) with false in Fail
    by (symmetry; now apply Z.eqb_neq).
  cbn [negb andb] in Fail.
  assert (Ok : forall c,
            init_succeeds env d irq = true ->
            c = init_calls d ->
            kzalloc_ts env = kzalloc_ts env /\
            ((kzalloc_ts env = 0 /\
              Some (zeroed_session (dev_platform_data d) o k h) = None /\
              c = []) \/
             (kzalloc_ts env <> 0 /\
              Some (zeroed_session (dev_platform_data d) o k h) = None /\
              (exists c0, c = c0 ++ [KFree (kzalloc_ts env)]) /\
              forall o0 d0, Some o = Some o0 -> Some d = Some d0 ->
                            init_succeeds env d0 irq = false) \/
             (kzalloc_ts env <> 0 /\
              exists o0 d0, Some o = Some o0 /\ Some d = Some d0 /\
                init_succeeds env d0 irq = true /\
                Some (zeroed_session (dev_platform_data d) o k h)
                = Some (zeroed_session (dev_platform_data d0) o0 k h) /\
                c = init_calls d0))).
  { intros c Hs ->. split; [reflexivity|]. right. right.
    split; [exact Hz|]. now exists o, d. }
  unfold init_succeeds, init_calls in Ok.
  replace (kzalloc_ts env =? 0) with false in Ok
    by (symmetry; now apply Z.eqb_neq).
  cbn [negb andb] in Ok.
  destruct (pd_init d) as [r|].
  - destruct (r =? 0); cbn [negb]; [|apply Fail; reflexivity].
    destruct (Z.leb_spec irq 0) as [Hirq|Hirq].
    + apply Fail.
      now replace (0 <? irq) with false by (symmetry; apply Z.ltb_ge; lia).
    + replace (0 <? irq) with true in *
        by (symmetry; apply Z.ltb_lt; lia).
      destruct (input_allocate env =? 0); cbn [negb andb] in *;
        [destruct (pd_exit d); apply Fail; reflexivity|].
      destruct (input_register env =? 0); cbn [negb andb] in *;
        [apply Ok; reflexivity
        |destruct (pd_exit d); apply Fail; reflexivity].
  - destruct (Z.leb_spec irq 0) as [Hirq|Hirq].
    + apply Fail.
      now replace (0 <? irq) with false by (symmetry; apply Z.ltb_ge; lia).
    + replace (0 <? irq) with true in *
        by (symmetry; apply Z.ltb_lt; lia).
      destruct (input_allocate env =? 0); cbn [negb andb] in *;
        [destruct (pd_exit d); apply Fail; reflexivity|].
      destruct (input_register env =? 0); cbn [negb andb] in *;
        [apply Ok; reflexivity
        |destruct (pd_exit d); apply Fail; reflexivity].
Qed.

(** X20. cyttsp_core_init hands back the address kzalloc gave it in
    every case, never an error pointer: the session behind it is live
    exactly when bus operations and a device were passed and every step
    went through; after any failure past the allocation the address
    handed back has been freed, kfree being the last call made. *)
Theorem cyttsp_core_init_result env (ops : option (cyttsp_bus_ops B)) dev k h
    irq :
  kzalloc_ts env = 0 \/ allocated (kzalloc_ts env) ->
  let '(ts, obj, calls) := cyttsp_core_init env ops dev k h irq in
  ts = kzalloc_ts env /\ IS_ERR ts = false /\
  (obj <> None <->
   exists o d, ops = Some o /\ dev = Some d /\
               init_succeeds env d irq = true) /\
  (obj = None -> ts <> 0 -> exists c, calls = c ++ [KFree ts]) /\
  (obj <> None -> ~ In (KFree ts) calls).
Proof.
  intros Ha.
  pose proof (cyttsp_core_init_shape env ops dev k h irq) as S.
  destruct (cyttsp_core_init env ops dev k h irq) as [[ts obj] calls].
  destruct S as [-> S]. split; [reflexivity|]. split.
  { unfold IS_ERR, allocated in *. apply Z.leb_gt.
    destruct Ha as [-> |Ha]; [reflexivity|lia]. }
  destruct S as [(Hz & -> & ->)|[(Hz & -> & Hc & Hn)|(Hz & o & d & -> & -> & Hs & -> & ->)]].
  - split; [|split].
    + split; [intros H; now contradiction H|].
      intros (o & d & _ & _ & Hs). unfold init_succeeds in Hs.
      rewrite Hz in Hs. discriminate.
    + intros _ H. now contradiction H.
    + intros H. now contradiction H.
  - split; [|split].
    + split; [intros H; now contradiction H|].
      intros (o & d & Ho & Hd & Hs). rewrite (Hn o d Ho Hd) in Hs.
      discriminate.
    + intros _ _. exact Hc.
    + intros H. now contradiction H.
  - split; [|split].
    + split; [|discriminate]. intros _. now exists o, d.
    + discriminate.
    + intros _ Hin. unfold init_calls in Hin.
      apply in_app_or in Hin. destruct Hin as [Hin|Hin].
      * destruct (pd_init d); [destruct Hin as [Hin|[]]|destruct Hin];
          discriminate.
      * cbn [In] in Hin.
        repeat (destruct Hin as [Hin|Hin]; [discriminate|]). exact Hin.
Qed.

(** X21. The error path of cyttsp_core_init: the platform's exit
    callback runs exactly when the call fails after the input device
    was asked for and the callback is set, so never when the interrupt
    number is refused, even after a platform init that went through;
    an input device is freed exactly when it is the one allocated and
    its registration failed. *)
Theorem cyttsp_core_init_cleanup env (ops : cyttsp_bus_ops B) d k h irq :
  let '(_, obj, calls) := cyttsp_core_init env (Some ops) (Some d) k h irq in
  (In PlatformExit calls <->
   obj = None /\ pd_exit d = true /\ In InputAllocateDevice calls) /\
  (In InputAllocateDevice calls <->
   kzalloc_ts env <> 0 /\ 0 < irq /\
   (pd_init d = Some 0 \/ pd_init d = None)) /\
  (forall p, In (InputFreeDevice p) calls <->
             p = input_allocate env /\ In InputRegisterDevice calls /\
             obj = None).
Proof.
  unfold cyttsp_core_init.
  destruct (Z.eqb_spec (kzalloc_ts env) 0) as [Hz|Hz].
  { cbn [In]. repeat split; try tauto; intros; intuition auto. }
  destruct (pd_init d) as [r|].
  - destruct (Z.eqb_spec r 0) as [-> |Hr]; cbn [negb].
    + destruct (Z.leb_spec irq 0) as [Hi|Hi].
      { cbn [In app]. repeat split; intros; intuition (try discriminate; try lia). }
      destruct (Z.eqb_spec (input_allocate env) 0) as [Hal|Hal].
      { destruct (pd_exit d); cbn [In app];
          repeat split; intros; intuition (try discriminate; try lia). }
      destruct (Z.eqb_spec (input_register env) 0) as [Hre|Hre]; cbn [negb].
      { destruct (pd_exit d); cbn [In app];
          repeat split; intros; intuition (try discriminate; try lia). }
      destruct (pd_exit d); cbn [In app];
        repeat split; intros;
        intuition (try discriminate; try lia; try congruence).
    + cbn [In app]. repeat split; intros;
        intuition (try discriminate; try lia; try congruence).
  - destruct (Z.leb_spec irq 0) as [Hi|Hi].
    { cbn [In app]. repeat split; intros; intuition (try discriminate; try lia). }
    destruct (Z.eqb_spec (input_allocate env) 0) as [Hal|Hal].
    { destruct (pd_exit d); cbn [In app];
        repeat split; intros; intuition (try discriminate; try lia). }
    destruct (Z.eqb_spec (input_register env) 0) as [Hre|Hre]; cbn [negb].
    { destruct (pd_exit d); cbn [In app];
        repeat split; intros; intuition (try discriminate; try lia). }
    destruct (pd_exit d); cbn [In app];
      repeat split; intros;
      intuition (try discriminate; try lia; try congruence).
Qed.

(** X22. cyttsp_spi_probe tests the pointer of cyttsp_core_init with
    IS_ERR only: once spi_setup and its own allocation went through it
    returns 0 whatever cyttsp_core_init did, makes no call beyond those
    of cyttsp_core_init and keeps its own structure, also when no
    session is left behind the pointer. *)
Theorem cyttsp_spi_probe_result spi_setup kzalloc_spi env
    (ops : cyttsp_bus_ops B) d k h irq :
  0 <= spi_setup -> kzalloc_spi <> 0 ->
  kzalloc_ts env = 0 \/ allocated (kzalloc_ts env) ->
  cyttsp_spi_probe spi_setup kzalloc_spi env ops d k h irq
  = (0, snd (cyttsp_core_init env (Some ops) (Some d) k h irq)).
Proof.
  intros Hs Hk Ha. unfold cyttsp_spi_probe.
  replace (spi_setup <? 0) with false by (symmetry; apply Z.ltb_ge; lia).
  replace (kzalloc_spi =? 0) with false by (symmetry; now apply Z.eqb_neq).
  pose proof (cyttsp_core_init_shape env (Some ops) (Some d) k h irq) as S.
  destruct (cyttsp_core_init env (Some ops) (Some d) k h irq)
    as [[ts obj] calls].
  destruct S as [-> _].
  replace (IS_ERR (kzalloc_ts env)) with false; [reflexivity|].
  symmetry. unfold IS_ERR, allocated in *. apply Z.leb_gt.
  destruct Ha as [-> |Ha]; [reflexivity|lia].
Qed.

End Init.


(** * Concrete runs of the further properties *)

Lemma ttsp_block_data_outcome_witness :
  3 <> 0 /\
  let '(r, ts') := ttsp_block_data XRead retry_demo CY_REG_BASE 3 [0; 0; 0] in
  exists m, (m < 4)%nat /\
    r = nth_rc (bus_xfer XRead (bus_ops retry_demo) CY_REG_BASE 3 [0; 0; 0])
               (hw retry_demo) m /\
    log ts' = attempts_log (EvBusRead CY_REG_BASE 3) m r.
Proof.
  split; [discriminate|].
  pose proof (ttsp_block_data_outcome XRead retry_demo CY_REG_BASE 3
                [0; 0; 0] ltac:(discriminate)) as H.
  cbv zeta in H.
  destruct (ttsp_block_data XRead retry_demo CY_REG_BASE 3 [0; 0; 0])
    as [r ts'].
  destruct H as (m & Hm & Hr & _ & _ & Hl).
  exists m. split; [exact Hm|]. split; [exact Hr|exact Hl].
Defined.

Lemma cyttsp_handle_tchdata_updates_witness :
  power_state two_touch_demo <> CY_IDLE_STATE /\
  let '(r, ts') := cyttsp_handle_tchdata two_touch_demo in
  r = 0 /\ filter is_input (log ts') = frame_events two_touch_frame.
Proof.
  split; [discriminate|].
  pose proof (cyttsp_handle_tchdata_updates two_touch_demo
                (snd (fst (ttsp_read_block_data two_touch_demo CY_REG_BASE
                             SIZEOF_XYDATA frame_buf)))
                (snd (ttsp_read_block_data two_touch_demo CY_REG_BASE
                        SIZEOF_XYDATA frame_buf))
                (snd (ttsp_read_block_data two_touch_demo CY_REG_BASE
                        SIZEOF_XYDATA frame_buf))
                ltac:(discriminate) eq_refl eq_refl eq_refl) as H.
  destruct (cyttsp_handle_tchdata two_touch_demo) as [r ts'].
  destruct H as (Hr & _ & Hf & _).
  split; [exact Hr|]. rewrite Hf. reflexivity.
Defined.


Lemma cyttsp_power_on_exit_command_witness :
  exists ts' l,
    snd (cyttsp_power_on (Some attach_timeout_demo)) = Some ts' /\
    log ts' = log attach_timeout_demo ++ l /\
    filter is_exit_bl_write l = [].
Proof.
  pose proof (cyttsp_power_on_exit_command attach_timeout_demo) as H.
  exact (H (or_intror (or_introl eq_refl))).
Defined.

Lemma cyttsp_suspend_resume_witness :
  use_sleep (platform_data suspend_resume_demo) = true /\
  power_state suspend_resume_demo = CY_ACTIVE_STATE /\
  let '(rs, ts1) := cyttsp_suspend suspend_resume_demo in
  exists rr ts2,
    cyttsp_resume (Some demo_wakeup) (Some ts1) = (rr, Some ts2) /\
    power_state ts1 = CY_SLEEP_STATE /\
    power_state ts2 = CY_ACTIVE_STATE.
Proof.
  split; [reflexivity|]. split; [reflexivity|].
  pose proof (cyttsp_suspend_resume (Some demo_wakeup) suspend_resume_demo
                eq_refl eq_refl) as H.
  destruct (cyttsp_suspend suspend_resume_demo) as [rs ts1] eqn:E.
  vm_compute in E. injection E as Hrs Hts. subst rs ts1.
  destruct H as (rr & ts2 & Hres & _ & Hok).
  destruct (Hok (Z.le_refl 0)) as [H1 H2].
  exists rr, ts2. split; [exact Hres|]. split; [exact H1|exact H2].
Defined.

Lemma ttsp_spi_block_data_frames_witness :
  ttsp_spi_read_block_data demo_spi_sync 0%nat 0x11 3
  = (0, [0x11; 0x12; 0x13], 1%nat) /\
  ttsp_spi_write_block_data demo_spi_sync 0%nat 0x11 3 [1; 2; 3]
  = (0, 1%nat).
Proof.
  exact (ttsp_spi_block_data_frames demo_spi_sync 0%nat 0x11 3 [1; 2; 3]
           ltac:(unfold CY_SPI_DATA_SIZE; lia) (le_n 3)).
Defined.

Lemma ttsp_block_data_over_spi_witness :
  bus_ops spi_demo = spi_bus_ops demo_spi_sync /\ 1 <> 0 /\
  let '(r, ts') := ttsp_block_data XWrite spi_demo 0x20 1 [0] in
  r = - EIO /\ count is_bus_call (log ts') = 4%nat.
Proof.
  split; [reflexivity|]. split; [discriminate|].
  pose proof (ttsp_block_data_over_spi demo_spi_sync XWrite spi_demo 0x20 1
                [0] eq_refl ltac:(discriminate)) as H.
  destruct (ttsp_block_data XWrite spi_demo 0x20 1 [0]) as [r ts'] eqn:E.
  cbv zeta in H. destruct H as [H _].
  destruct (H ltac:(unfold CY_SPI_DATA_SIZE; lia)) as [H0|[He Hc]].
  - exfalso. vm_compute in E. injection E as Hr _. subst r. discriminate.
  - split; [exact He|exact Hc].
Defined.

Lemma cyttsp_core_init_result_witness :
  allocated (kzalloc_ts register_fails_env) /\
  let '(ts, obj, calls) :=
    cyttsp_core_init register_fails_env (Some script_bus) (Some board_device)
                     script_kernel [] 5 in
  ts = kzalloc_ts register_fails_env /\ IS_ERR ts = false /\ obj = None /\
  exists c, calls = c ++ [KFree ts].
Proof.
  assert (Ha : allocated (kzalloc_ts register_fails_env))
    by (vm_compute; split; reflexivity).
  split; [exact Ha|].
  pose proof (cyttsp_core_init_result register_fails_env (Some script_bus)
                (Some board_device) script_kernel [] 5 (or_intror Ha)) as H.
  destruct (cyttsp_core_init register_fails_env (Some script_bus)
              (Some board_device) script_kernel [] 5)
    as [[ts obj] calls] eqn:E.
  vm_compute in E. injection E as Hts Hobj Hcalls. subst obj.
  destruct H as (H1 & H2 & _ & H4 & _).
  split; [exact H1|]. split; [exact H2|]. split; [reflexivity|].
  apply H4; [reflexivity|]. subst ts. discriminate.
Defined.

Lemma cyttsp_spi_probe_result_witness :
  fst (cyttsp_spi_probe 0 0xC0300000 register_fails_env script_bus
         board_device script_kernel [] 5) = 0 /\
  snd (fst (cyttsp_core_init register_fails_env (Some script_bus)
              (Some board_device) script_kernel [] 5)) = None.
Proof.
  split; [|reflexivity].
  assert (Hk : 0xC0300000 <> 0) by discriminate.
  assert (Ha : allocated (kzalloc_ts register_fails_env))
    by (vm_compute; split; reflexivity).
  exact (f_equal fst
           (cyttsp_spi_probe_result 0 0xC0300000 register_fails_env
              script_bus board_device script_kernel [] 5
              (Z.le_refl 0) Hk (or_intror Ha))).
Defined.
